(** * WhatsApp sessions to timesheets: a shallow embedding

    Embedding of [wa_sesiones_a_timesheets.py] (and of the session block it
    shares with [exportar_whatsapp_odoo.py]): ingestion of the day's
    messages, segmentation into sessions by inactivity, attribution of the
    session time to the operators, and the upsert of one analytic line per
    operator and session.

    Conventions of the embedding:
    - an instant is a number of seconds ([Z]); Odoo stores [mail.message.date]
      with a resolution of one second, and [tz_convert] keeps the instant,
      so [fecha_local] is the same number as [fecha_utc];
    - a calendar date is the number of its day in local time;
    - pandas floats that hold minutes, hours and weights are exact
      rationals ([Q]);
    - a DataFrame is the list of its rows, a column a list of the same
      length;
    - local time is UTC-3 throughout, which is the zone of the program from
      2009-03-15 on;
    - an exception ends a computation with the server as it then is: the
      fault of a refused call, or the [KeyError] of the ingestion;
    - the analytic lines of the server have no field [tag_ids]: the run
      asks for the fields (line 382) and then leaves the tags alone. *)

From stdpp Require Import gmap strings list pretty sorting.
From Stdlib Require Import Ascii QArith Qround Qfield Lqa.

Open Scope Z_scope.

(** ** Strings *)

Module Str.

(** ASCII lower-casing, the part of the case folding of [ilike] that the
    markers written by this program can meet. *)
Definition lower_ascii (a : ascii) : ascii :=
  let n := N_of_ascii a in
  if ((65 <=? n) && (n <=? 90))%N then ascii_of_N (n + 32) else a.

Fixpoint lower (s : string) : string :=
  match s with
  | EmptyString => EmptyString
  | String a s' => String (lower_ascii a) (lower s')
  end.

Fixpoint is_prefix (p s : string) : bool :=
  match p, s with
  | EmptyString, _ => true
  | String a p', String b s' => bool_decide (a = b) && is_prefix p' s'
  | String _ _, EmptyString => false
  end.

(** [contains s p]: [p] occurs in [s] (Python's [p in s]). *)
Fixpoint contains (s p : string) : bool :=
  is_prefix p s ||
  match s with
  | EmptyString => false
  | String _ s' => contains s' p
  end.

(** Odoo's [("name", "ilike", v)]: SQL [name ILIKE '%v%'].  The values
    searched here hold no [%], [_] or backslash, so the match is a
    case-insensitive search for [v] inside the name. *)
Definition ilike (name v : string) : bool :=
  contains (lower name) (lower v).

End Str.

(** ** Sorting and grouping, as pandas does them *)

Section Sorting.
Context {A : Type} (leb : A → A → bool).

(** [x] goes in front of the first element that is not smaller. *)
Fixpoint insert_sorted (x : A) (l : list A) : list A :=
  match l with
  | [] => [x]
  | y :: l' => if leb x y then x :: y :: l' else y :: insert_sorted x l'
  end.

(** [DataFrame.sort_values] on several columns goes through a
    lexicographic sort of the key codes, which keeps rows with equal keys
    in their order: a stable sort, here by insertion. *)
Definition sort_by (l : list A) : list A := foldr insert_sorted [] l.
End Sorting.

(** ** How a computation ends *)

(** With a value, with the fault of a call the server refuses, or with the
    [KeyError] pandas raises at line 189, which nothing catches. *)
Inductive result (A : Type) : Type :=
  | Ok (a : A)
  | Fault
  | KeyError.
Arguments Ok {A} a.
Arguments Fault {A}.
Arguments KeyError {A}.

(** ** Ingestion: [build_sessions_from_messages], the rows *)

(** A [mail.message] as [read] returns it, with the fields the program
    uses.  [m_date] is the instant [pd.to_datetime(..., utc=True,
    errors="coerce")] makes of the [date] field, [None] when it is [NaT].
    [m_author_id] is the many2one pair [[id, display_name]], [None] when
    Odoo sends [False]. *)
Record message := {
  m_id : Z;
  m_date : option Z;
  m_author_id : option (Z * string);
  m_res_id : Z;
}.

(** A row of [rows]. *)
Record row := {
  msg_id : Z;
  channel_id : Z;
  canal : string;
  fecha_utc : option Z;
  autor_partner_id : option Z;
  autor : string;
  es_operador : bool;
}.

(** A row of [df] after [dropna(subset=["fecha_utc"])], with the column
    [fecha_local] added to it. *)
Record drow := {
  d_row : row;
  fecha_local : Z;
}.

Definition d_channel (r : drow) : Z := channel_id (d_row r).

(** The dictionary entry of one message (lines 179-188). *)
Definition mk_row (ch_map : gmap Z string) (internal_partner_ids : gset Z)
    (m : message) : row :=
  {| msg_id := m_id m;
     channel_id := m_res_id m;
     canal := default ""%string (ch_map !! m_res_id m);
     fecha_utc := m_date m;
     autor_partner_id :=
       match m_author_id m with Some a => Some (fst a) | None => None end;
     autor :=
       match m_author_id m with Some a => snd a | None => ""%string end;
     es_operador :=
       match m_author_id m with
       | Some a => bool_decide (fst a ∈ internal_partner_ids)
       | None => false
       end |}.

(** The loop of lines 176-188: messages of other channels are skipped. *)
Definition build_rows (ch_map : gmap Z string) (internal_partner_ids : gset Z)
    (msgs : list message) : list row :=
  mk_row ch_map internal_partner_ids
    <$> filter (λ m, is_Some (ch_map !! m_res_id m)) msgs.

Definition dropna (rows : list row) : list drow :=
  omap (λ r, (λ t, {| d_row := r; fecha_local := t |}) <$> fecha_utc r) rows.

(** The order of [sort_values(["channel_id","fecha_local"])]. *)
Definition row_leb (a b : drow) : bool :=
  (d_channel a <? d_channel b)
  || ((d_channel a =? d_channel b) && (fecha_local a <=? fecha_local b)).

Definition sort_values (df : list drow) : list drow := sort_by row_leb df.

(** ** Segmentation *)

(** [groupby("channel_id")["fecha_local"].diff()]: the difference to the
    previous row of the same channel, [None] ([NaT]) on the first row of
    each channel.  [last] holds the latest instant seen per channel. *)
Fixpoint groupby_diff (last : gmap Z Z) (df : list drow) : list (option Z) :=
  match df with
  | [] => []
  | r :: df' =>
      ((λ t, fecha_local r - t) <$> last !! d_channel r)
      :: groupby_diff (<[d_channel r := fecha_local r]> last) df'
  end.

(** [.dt.total_seconds().div(60)]: minutes, [NaN] stays [NaN]. *)
Definition minutes (d : option Z) : option Q := (λ s, s # 60) <$> d.

(** [Series.gt]: the element-wise [>]; a comparison with [NaN] is [False],
    and the result is a column of plain booleans. *)
Definition gt (x : option Q) (T : Z) : bool :=
  match x with
  | Some q => negb (Qle_bool q (inject_Z T))
  | None => false
  end.

(** [Series.fillna] on that boolean column: it holds no missing value, so
    nothing is replaced. *)
Definition fillna (v : bool) (b : bool) : bool := b.

(** The column [session_break] (lines 198-201). *)
Definition session_break (inactivity_minutes : Z) (df : list drow) : list bool :=
  (λ d, fillna true (gt (minutes d) inactivity_minutes)) <$> groupby_diff ∅ df.

(** [groupby("channel_id")["session_break"].cumsum()]: per channel, the
    number of [True] up to and including the row. *)
Fixpoint groupby_cumsum (acc : gmap Z Z) (col : list (Z * bool)) : list Z :=
  match col with
  | [] => []
  | (c, b) :: col' =>
      let n := default 0 (acc !! c) + (if b then 1 else 0) in
      n :: groupby_cumsum (<[c := n]> acc) col'
  end.

(** The column [session_id] (line 202). *)
Definition session_id (inactivity_minutes : Z) (df : list drow) : list Z :=
  groupby_cumsum ∅ (zip (d_channel <$> df) (session_break inactivity_minutes df)).

(** [df] with its column [session_id]. *)
Definition with_sessions (inactivity_minutes : Z) (df : list drow)
    : list (drow * Z) :=
  zip df (session_id inactivity_minutes df).

(** ** The summary of the sessions *)

Record session := {
  s_canal : string;
  s_channel_id : Z;
  s_session_id : Z;
  inicio : Z;
  fin : Z;
  dur_min : Q;
  msgs_total : Z;
  msgs_oper : Z;
  msgs_user : Z;
  date_local : Z;
}.

(** Offset of America/Argentina/Buenos_Aires and the day a local instant
    falls on.  The zone has kept UTC-3 with no summer time since
    2009-03-15 00:00 local time (the instant 1237082400, day 14318); the
    embedding takes that offset for every instant, so it is the code from
    that day on.  Before it the zone had summer time and other offsets,
    which [pytz] follows and this constant does not. *)
Definition TZ_OFFSET : Z := 10800.
Definition local_day (t : Z) : Z := (t - TZ_OFFSET) `div` 86400.

Definition Zmin_list (l : list Z) : Z :=
  match l with [] => 0 | x :: l' => foldr Z.min x l' end.
Definition Zmax_list (l : list Z) : Z :=
  match l with [] => 0 | x :: l' => foldr Z.max x l' end.
Definition count_true (l : list bool) : Z :=
  Z.of_nat (length (filter (λ b, b = true) l)).

Definition session_key (x : drow * Z) : string * Z * Z :=
  (canal (d_row x.1), d_channel x.1, x.2).

(** The order in which [groupby] lists the keys [(canal, channel_id,
    session_id)]. *)
Definition session_key_leb (a b : string * Z * Z) : bool :=
  match String.compare a.1.1 b.1.1 with
  | Lt => true
  | Gt => false
  | Eq => (a.1.2 <? b.1.2) || ((a.1.2 =? b.1.2) && (a.2 <=? b.2))
  end.

(** [grp.agg(...)] on one group (lines 206-213), and [date_local]
    (line 217). *)
Definition agg_session (k : string * Z * Z) (g : list (drow * Z)) : session :=
  let ts := (λ x, fecha_local x.1) <$> g in
  let ops := (λ x, es_operador (d_row x.1)) <$> g in
  {| s_canal := k.1.1;
     s_channel_id := k.1.2;
     s_session_id := k.2;
     inicio := Zmin_list ts;
     fin := Zmax_list ts;
     dur_min := (Zmax_list ts - Zmin_list ts) # 60;
     msgs_total := Z.of_nat (length g);
     msgs_oper := count_true ops;
     msgs_user := count_true (negb <$> ops);
     date_local := local_day (Zmin_list ts) |}.

Definition sessions_all (dfs : list (drow * Z)) : list session :=
  (λ k, agg_session k (filter (λ x, session_key x = k) dfs))
    <$> sort_by session_key_leb (remove_dups (session_key <$> dfs)).

(** Line 216: only the sessions with a user and an operator. *)
Definition qualifying (s : session) : Prop := 0 < msgs_user s ∧ 0 < msgs_oper s.

Definition sessions (dfs : list (drow * Z)) : list session :=
  filter qualifying (sessions_all dfs).

(** ** The operators of each session *)

Record op_row := {
  o_channel_id : Z;
  o_session_id : Z;
  o_partner_id : Z;
  o_autor : string;
  o_msgs_oper : Z;
}.

Definition op_key (x : drow * Z) : option (Z * Z * Z * string) :=
  (λ p, (d_channel x.1, x.2, p, autor (d_row x.1))) <$> autor_partner_id (d_row x.1).

Definition op_key_leb (a b : Z * Z * Z * string) : bool :=
  let '(c1, s1, p1, n1) := a in
  let '(c2, s2, p2, n2) := b in
  (c1 <? c2) || ((c1 =? c2) &&
    ((s1 <? s2) || ((s1 =? s2) &&
      ((p1 <? p2) || ((p1 =? p2) && String.leb n1 n2))))).

(** Lines 220-224: the operator rows, grouped by channel, session and
    author; a group key with a missing value is left out by [groupby]. *)
Definition ops_per_sess (dfs : list (drow * Z)) : list op_row :=
  let dfo := filter (λ x, es_operador (d_row x.1) = true) dfs in
  (λ k, let '(c, s, p, n) := k in
        {| o_channel_id := c; o_session_id := s; o_partner_id := p;
           o_autor := n;
           o_msgs_oper :=
             Z.of_nat (length (filter (λ x, op_key x = Some k) dfo)) |})
    <$> sort_by op_key_leb (remove_dups (omap op_key dfo)).

(** Lines 189-224: the two tables, from the rows on.  Without a dated row
    both are empty, as the return of lines 190-192 has them. *)
Definition session_tables (ch_map : gmap Z string)
    (internal_partner_ids : gset Z) (msgs : list message)
    (inactivity_minutes : Z) : list session * list op_row :=
  let df := sort_values (dropna (build_rows ch_map internal_partner_ids msgs)) in
  let dfs := with_sessions inactivity_minutes df in
  (sessions dfs, ops_per_sess dfs).

(** [build_sessions_from_messages], from the channels and the messages
    read (the server sends a record for each id it found, so [msgs] is
    empty when no id was found).  It returns empty tables when there is no
    WhatsApp channel (lines 136-138) or no message (lines 164-166).  When
    messages were read and none lies in a channel of [ch_map], which the
    third search of lines 155-162 allows, [rows] is empty,
    [pd.DataFrame(rows)] has no column [fecha_utc] and the [dropna] of line
    189 raises [KeyError]. *)
Definition build_sessions_from_messages (ch_map : gmap Z string)
    (internal_partner_ids : gset Z) (msgs : list message)
    (inactivity_minutes : Z) : result (list session * list op_row) :=
  if decide (ch_map = ∅) then Ok ([], [])
  else if decide (msgs = []) then Ok ([], [])
  else if decide (build_rows ch_map internal_partner_ids msgs = [])
  then KeyError
  else Ok (session_tables ch_map internal_partner_ids msgs inactivity_minutes).

(** ** The ledger: [account.analytic.line] behind XML-RPC *)

(** The values of one analytic line ([line_vals]).  The run embedded is the
    one in which [account.analytic.line] has no field [tag_ids]
    ([has_tags] is [False]): no call goes to [account.analytic.tag] and
    [line_vals] carries no tags.  Tags only label a line; no search reads
    them. *)
Record line_vals := {
  name : string;
  date : Z;
  unit_amount : Q;
  project_id : Z;
  employee_id : Z;
}.

Record line := {
  id : Z;
  vals : line_vals;
}.

(** The server: the stored lines, the sequence the next id comes from, and
    the outcome of the calls to come ([true]: the call raises a fault; when
    the list is used up the calls succeed). *)
Record world := {
  lines : list line;
  next_id : Z;
  pending : list bool;
}.

(** A computation that calls the server: an exception ends it, the state
    of the server stays. *)
Definition rpc (A : Type) : Type := world → result A * world.

#[global] Instance rpc_ret : MRet rpc := λ A a w, (Ok a, w).
#[global] Instance rpc_bind : MBind rpc := λ A B f m w,
  match m w with
  | (Ok a, w') => f a w'
  | (Fault, w') => (Fault, w')
  | (KeyError, w') => (KeyError, w')
  end.

(** [models.execute_kw]: one call; it raises when the server says so, and
    then nothing is written. *)
Definition execute_kw {A : Type} (method : world → A * world) : rpc A := λ w,
  match pending w with
  | true :: p =>
      (Fault, {| lines := lines w; next_id := next_id w; pending := p |})
  | false :: p =>
      let '(a, w') :=
        method {| lines := lines w; next_id := next_id w; pending := p |} in
      (Ok a, w')
  | [] => let '(a, w') := method w in (Ok a, w')
  end.

(** The search domain of [create_timesheet_if_needed]. *)
Record domain := {
  dom_name_ilike : string;
  dom_date : Z;
  dom_project_id : Z;
  dom_employee_id : Z;
}.

Definition matches (dom : domain) (l : line) : Prop :=
  Str.ilike (name (vals l)) (dom_name_ilike dom) = true
  ∧ date (vals l) = dom_date dom
  ∧ project_id (vals l) = dom_project_id dom
  ∧ employee_id (vals l) = dom_employee_id dom.

#[global] Instance matches_dec dom l : Decision (matches dom l).
Proof. unfold matches. apply _. Defined.

(** [search] with [order="id asc"] and an optional [limit]. *)
Definition server_search (dom : domain) (limit : option nat) (w : world)
    : list Z * world :=
  let ids := sort_by Z.leb (id <$> filter (matches dom) (lines w)) in
  (match limit with Some n => take n ids | None => ids end, w).

Definition server_unlink (ids : list Z) (w : world) : bool * world :=
  (true, {| lines := filter (λ l, id l ∉ ids) (lines w);
            next_id := next_id w; pending := pending w |}).

Definition server_create (v : line_vals) (w : world) : Z * world :=
  (next_id w, {| lines := lines w ++ [ {| id := next_id w; vals := v |} ];
                 next_id := next_id w + 1; pending := pending w |}).

Definition search (dom : domain) (limit : option nat) : rpc (list Z) :=
  execute_kw (server_search dom limit).

(** Lines 276-292. *)
Definition create_timesheet_if_needed (line_vals : line_vals)
    (signature : string) (recreate : bool) : rpc (Z * bool) :=
  let name_marker := "[" +:+ signature +:+ "]" in
  let dom := {| dom_name_ilike := name_marker;
                dom_date := date line_vals;
                dom_project_id := project_id line_vals;
                dom_employee_id := employee_id line_vals |} in
  existing ← search dom (Some 1%nat);
  let create :=
    new_id ← execute_kw (server_create line_vals);
    mret (new_id, true) in
  match existing with
  | e0 :: _ =>
      if recreate then _ ← execute_kw (server_unlink existing); create
      else mret (e0, false)
  | [] => create
  end.

(** ** Attribution: [main] *)

Inductive modo : Type := equal | by_msgs | full.

(** The command line, as far as the computation reads it; [fecha] is the
    day asked for. *)
Record args := {
  fecha : Z;
  inactividad : Z;
  modo_ : modo;
  dry_run : bool;
  recrear : bool;
}.

(** A row of [ops]: an operator row and, when the left join finds it, the
    session it belongs to. *)
Record ops_row := {
  o_op : op_row;
  o_session : option session;
}.

Definition same_session (a b : ops_row) : Prop :=
  o_channel_id (o_op a) = o_channel_id (o_op b)
  ∧ o_session_id (o_op a) = o_session_id (o_op b).

#[global] Instance same_session_dec a b : Decision (same_session a b).
Proof. unfold same_session. apply _. Defined.

(** [ops_per_sess.merge(sessions[...], on=["channel_id","session_id"],
    how="left")]: every operator row stays, with missing values when no
    session of the summary has its key. *)
Definition merge (ops_per_sess : list op_row) (sessions : list session)
    : list ops_row :=
  o ← ops_per_sess;
  match filter (λ s, s_channel_id s = o_channel_id o
                     ∧ s_session_id s = o_session_id o) sessions with
  | [] => [ {| o_op := o; o_session := None |} ]
  | ss => (λ s, {| o_op := o; o_session := Some s |}) <$> ss
  end.

(** [to_numeric(...).fillna(0.0)] and [fillna(default_date)]. *)
Definition o_dur_min (r : ops_row) : Q := from_option dur_min 0%Q (o_session r).
Definition o_date_local (default_date : Z) (r : ops_row) : Z :=
  from_option date_local default_date (o_session r).

(** [Series.replace(0, 1)]. *)
Definition replace_0_1 (n : Z) : Z := if decide (n = 0) then 1 else n.

Definition Zsum (l : list Z) : Z := foldr Z.add 0 l.

(** [transform("sum")] and [transform("nunique")] over the rows of the
    same channel and session. *)
Definition tot_by_sess (ops : list ops_row) (r : ops_row) : Z :=
  Zsum ((λ x, o_msgs_oper (o_op x)) <$> filter (same_session r) ops).
Definition n_ops (ops : list ops_row) (r : ops_row) : Z :=
  Z.of_nat (length (remove_dups
    ((λ x, o_partner_id (o_op x)) <$> filter (same_session r) ops))).

(** Lines 366-374. *)
Definition weight (mode : modo) (ops : list ops_row) (r : ops_row) : Q :=
  match mode with
  | by_msgs =>
      (inject_Z (o_msgs_oper (o_op r)) / inject_Z (replace_0_1 (tot_by_sess ops r)))%Q
  | full => 1%Q
  | equal => (1 / inject_Z (replace_0_1 (n_ops ops r)))%Q
  end.

Definition min_asignados (mode : modo) (ops : list ops_row) (r : ops_row) : Q :=
  (o_dur_min r * weight mode ops r)%Q.
Definition horas_asignadas (mode : modo) (ops : list ops_row) (r : ops_row) : Q :=
  (min_asignados mode ops r / 60)%Q.

(** Python's [round]: to the nearest integer, a tie to the even one.
    [round2] is [round(x, 2)] on the exact rational.  The code rounds a
    float: where the rational lies exactly between two hundredths, the
    float nearest to it lies on one side and the code rounds to that side
    (25/1000 gives 0.03 in the code and 2/100 here); elsewhere the two
    agree up to the error of the float. *)
Definition round_half_even (q : Q) : Z :=
  let f := Qfloor q in
  match (q - inject_Z f ?= 1 # 2)%Q with
  | Lt => f
  | Gt => f + 1
  | Eq => if Z.even f then f else f + 1
  end.
Definition round2 (q : Q) : Q := round_half_even (q * 100) # 100.

Definition pad2 (n : Z) : string :=
  if n <? 10 then "0" +:+ pretty n else pretty n.

(** [_fmt_hhmm]: the local time of day, [%H:%M]. *)
Definition fmt_hhmm (t : Z) : string :=
  let s := (t - TZ_OFFSET) `mod` 86400 in
  pad2 (s `div` 3600) +:+ ":" +:+ pad2 ((s `mod` 3600) `div` 60).

(** Line 419. *)
Definition signature_of (r : ops_row) : string :=
  "WA[" +:+ pretty (o_channel_id (o_op r)) +:+ "/"
  +:+ pretty (o_session_id (o_op r)) +:+ "]@" +:+ pretty (o_partner_id (o_op r)).

Definition time_span (r : ops_row) : string :=
  match o_session r with
  | Some s => fmt_hhmm (inicio s) +:+ "-" +:+ fmt_hhmm (fin s)
  | None => pretty (round_half_even (o_dur_min r)) +:+ "m"
  end.

(** Line 437; a missing [canal] prints as [nan]. *)
Definition name_of (r : ops_row) : string :=
  "WhatsApp " +:+ from_option s_canal "nan" (o_session r)
  +:+ " (" +:+ time_span r +:+ ") - " +:+ o_autor (o_op r)
  +:+ " [" +:+ signature_of r +:+ "]".

(** Lines 397-408: partner, then user, then employee; [None] when the
    chain breaks or the employee id is falsy. *)
Definition employee_of (partner_to_user : gmap Z (Z * string))
    (user_to_employee : gmap Z (Z * string)) (r : ops_row) : option Z :=
  user_info ← partner_to_user !! o_partner_id (o_op r);
  emp ← user_to_employee !! user_info.1;
  if decide (emp.1 = 0) then None else Some emp.1.

(** Lines 439-445. *)
Definition line_vals_of (a : args) (project : Z) (ops : list ops_row)
    (employee : Z) (r : ops_row) : line_vals :=
  {| name := name_of r;
     date := o_date_local (fecha a) r;
     unit_amount := round2 (horas_asignadas (modo_ a) ops r);
     project_id := project;
     employee_id := employee |}.

(** What the run reports. *)
Record summary := {
  creados : Z;
  ya_existian : Z;
  omitidos_sin_empleado : gmap string Z;
  preview_rows : list (line_vals * string);
}.

Definition summary0 : summary :=
  {| creados := 0; ya_existian := 0; omitidos_sin_empleado := ∅;
     preview_rows := [] |}.

(** One turn of the loop of lines 391-467.  [preview_rows] keeps the
    values and the signature of each planned line; the other columns of the
    preview file repeat them. *)
Definition process_row (a : args) (project : Z)
    (partner_to_user user_to_employee : gmap Z (Z * string))
    (ops : list ops_row) (acc : summary) (r : ops_row) : rpc summary :=
  match employee_of partner_to_user user_to_employee r with
  | None =>
      let k := o_autor (o_op r) in
      mret {| creados := creados acc; ya_existian := ya_existian acc;
              omitidos_sin_empleado :=
                <[k := default 0 (omitidos_sin_empleado acc !! k) + 1]>
                  (omitidos_sin_empleado acc);
              preview_rows := preview_rows acc |}
  | Some employee =>
      let signature := signature_of r in
      let lv := line_vals_of a project ops employee r in
      let rows := preview_rows acc ++ [(lv, signature)] in
      if dry_run a then
        mret {| creados := creados acc; ya_existian := ya_existian acc;
                omitidos_sin_empleado := omitidos_sin_empleado acc;
                preview_rows := rows |}
      else
        '(_, created) ← create_timesheet_if_needed lv signature (recrear a);
        mret {| creados := if created : bool then creados acc + 1 else creados acc;
                ya_existian :=
                  if created then ya_existian acc else ya_existian acc + 1;
                omitidos_sin_empleado := omitidos_sin_empleado acc;
                preview_rows := rows |}
  end.

Fixpoint process_rows (a : args) (project : Z)
    (partner_to_user user_to_employee : gmap Z (Z * string))
    (ops : list ops_row) (acc : summary) (rows : list ops_row) : rpc summary :=
  match rows with
  | [] => mret acc
  | r :: rows' =>
      acc' ← process_row a project partner_to_user user_to_employee ops acc r;
      process_rows a project partner_to_user user_to_employee ops acc' rows'
  end.

(** The rows [main] iterates over (line 347). *)
Definition ops_of (a : args) (ch_map : gmap Z string)
    (internal_partner_ids : gset Z) (msgs : list message) : list ops_row :=
  let '(sessions, ops_per_sess) :=
    session_tables ch_map internal_partner_ids msgs (inactividad a) in
  merge ops_per_sess sessions.

(** [fields_get] on [account.analytic.line] (line 382), a call as any
    other; the answer is whether the model has a field [tag_ids], and the
    run embedded is the one in which it has none. *)
Definition server_fields_get (w : world) : bool * world := (false, w).

(** [main], from the messages read for the day on; the two maps are what
    [build_employee_map] returned (line 342).  The [KeyError] of the
    ingestion ends the run; empty tables end it with nothing done (lines
    335-339). *)
Definition main (a : args) (project : Z) (ch_map : gmap Z string)
    (internal_partner_ids : gset Z)
    (partner_to_user user_to_employee : gmap Z (Z * string))
    (msgs : list message) : rpc summary :=
  '(sessions, ops_per_sess) ←
    (λ w, (build_sessions_from_messages ch_map internal_partner_ids msgs
             (inactividad a), w));
  if bool_decide (sessions = [] ∨ ops_per_sess = []) then mret summary0
  else
    let ops := merge ops_per_sess sessions in
    _ ← execute_kw server_fields_get;
    process_rows a project partner_to_user user_to_employee ops summary0 ops.

(** * Readings used in the statements *)

(** The order a comparison function stands for. *)
Definition le_of {A : Type} (leb : A → A → bool) : relation A :=
  λ x y, leb x y = true.

(** What the two grouped columns amount to inside one channel: [prev] is
    the instant of the previous event of the channel, [n] the count so
    far. *)
Fixpoint channel_ids (T : Z) (prev : option Z) (n : Z) (ts : list Z) : list Z :=
  match ts with
  | [] => []
  | t :: ts' =>
      let b := match prev with
               | Some p => bool_decide (60 * T < t - p)
               | None => false
               end in
      let n' := n + (if b then 1 else 0) in
      n' :: channel_ids T (Some t) n' ts'
  end.

(** The column [session_id] from a given state of the two groupings. *)
Definition ids_from (T : Z) (last acc : gmap Z Z) (df : list drow) : list Z :=
  groupby_cumsum acc
    (zip (d_channel <$> df)
         ((λ d, fillna true (gt (minutes d) T)) <$> groupby_diff last df)).

(** The name of a channel follows from its id. *)
Definition canal_by_channel (dfs : list (drow * Z)) : Prop :=
  ∀ x y, x ∈ dfs → y ∈ dfs → d_channel x.1 = d_channel y.1 →
         canal (d_row x.1) = canal (d_row y.1).

(** The group key of an operator row, and the session an operator row
    belongs to. *)
Definition op_row_key (o : op_row) : Z * Z * Z * string :=
  (o_channel_id o, o_session_id o, o_partner_id o, o_autor o).

Definition session_of_op (o : op_row) (s : session) : Prop :=
  s_channel_id s = o_channel_id o ∧ s_session_id s = o_session_id o.

(** The sum of a column of rationals. *)
Definition Qsum (l : list Q) : Q := foldr Qplus 0%Q l.

(** Two messages of the same partner show the same display name. *)
Definition same_name (m1 m2 : message) : bool :=
  match m_author_id m1, m_author_id m2 with
  | Some a1, Some a2 => bool_decide (a1.1 = a2.1 → a1.2 = a2.2)
  | _, _ => true
  end.

Definition names_consistent (msgs : list message) : Prop :=
  Forall (λ m1, Forall (λ m2, same_name m1 m2 = true) msgs) msgs.

(** The search domain of a record. *)
Definition domain_of (lv : line_vals) (signature : string) : domain :=
  {| dom_name_ilike := "[" +:+ signature +:+ "]";
     dom_date := date lv;
     dom_project_id := project_id lv;
     dom_employee_id := employee_id lv |}.

(** The ids found by the search of [create_timesheet_if_needed]. *)
Definition existing_ids (lv : line_vals) (signature : string) (w : world)
    : list Z :=
  take 1 (sort_by Z.leb (id <$> filter (matches (domain_of lv signature)) (lines w))).

(** The ledger after the insert of [lv], [ls] being the lines kept. *)
Definition with_line (lv : line_vals) (ls : list line) (w : world) : world :=
  {| lines := ls ++ [ {| id := next_id w; vals := lv |} ];
     next_id := next_id w + 1; pending := pending w |}.

(** The record of [r], when it has one, finds a line in the ledger. *)
Definition covered (a : args) (project : Z)
    (partner_to_user user_to_employee : gmap Z (Z * string))
    (ops : list ops_row) (w : world) (r : ops_row) : Prop :=
  match employee_of partner_to_user user_to_employee r with
  | None => True
  | Some e =>
      ∃ l, l ∈ lines w
           ∧ matches (domain_of (line_vals_of a project ops e r) (signature_of r)) l
  end.

(** ** A day of messages to run the program on *)

Module Day.

Definition ch_map : gmap Z string := {[ 1 := "Acme"%string; 2 := "Bodega"%string ]}.
Definition internal_partner_ids : gset Z := {[ 7; 8 ]}.
Definition partner_to_user : gmap Z (Z * string) :=
  {[ 7 := (70, "Ana"%string); 8 := (80, "Beto"%string) ]}.
Definition user_to_employee : gmap Z (Z * string) :=
  {[ 70 := (700, "Ana"%string); 80 := (800, "Beto"%string) ]}.

(** 2025-09-01 09:00:00 local time, as an instant. *)
Definition t0 : Z := 1756728000.

Definition msg (i c t : Z) (a : option (Z * string)) : message :=
  {| m_id := i; m_date := Some t; m_author_id := a; m_res_id := c |}.

Definition cliente : option (Z * string) := Some (100, "Cliente"%string).
Definition ana : option (Z * string) := Some (7, "Ana"%string).
Definition beto : option (Z * string) := Some (8, "Beto"%string).

(** One channel: a gap of exactly 45 minutes, then one of 45 minutes and a
    second. *)
Definition msgs_threshold : list message :=
  [ msg 1 1 t0 cliente; msg 2 1 (t0 + 2700) ana; msg 3 1 (t0 + 5401) cliente ].

(** Two channels read interleaved. *)
Definition msgs_two_channels : list message :=
  [ msg 1 1 t0 cliente; msg 2 2 (t0 + 100) cliente; msg 3 1 (t0 + 600) ana;
    msg 4 2 (t0 + 200) beto; msg 5 1 (t0 + 4000) cliente ].

(** The day of section 8 of the specification: 09:00 and 09:10 from the
    client, 09:15 from Ana, 10:20 from Beto. *)
Definition msgs_spec : list message :=
  [ msg 1 1 t0 cliente; msg 2 1 (t0 + 600) cliente; msg 3 1 (t0 + 900) ana;
    msg 4 1 (t0 + 4800) beto ].

Definition df_of (msgs : list message) : list drow :=
  sort_values (dropna (build_rows ch_map internal_partner_ids msgs)).

Definition args0 : args :=
  {| fecha := 20332; inactividad := 45; modo_ := equal;
     dry_run := false; recrear := false |}.

Definition world0 : world := {| lines := []; next_id := 1; pending := [] |}.

(** Three messages of Ana and one of Beto in one session. *)
Definition msgs_activity : list message :=
  [ msg 1 1 t0 cliente; msg 2 1 (t0 + 60) ana;
    msg 3 1 (t0 + 120) ana; msg 4 1 (t0 + 180) beto;
    msg 5 1 (t0 + 240) ana ].


(** A day with three records: in channel 1 a client writes and Ana and
    Beto answer, in channel 2 a client writes and Ana answers. *)
Definition msgs_three_records : list message :=
  [ msg 1 1 t0 cliente; msg 2 1 (t0 + 60) ana; msg 3 1 (t0 + 120) beto;
    msg 4 2 (t0 + 30) cliente; msg 5 2 (t0 + 90) ana ].

Definition session_acme : session :=
  {| s_canal := "Acme"; s_channel_id := 1; s_session_id := 0;
     inicio := t0; fin := t0 + 120; dur_min := 120 # 60;
     msgs_total := 3; msgs_oper := 2; msgs_user := 1;
     date_local := 20332 |}.
Definition session_bodega : session :=
  {| s_canal := "Bodega"; s_channel_id := 2; s_session_id := 0;
     inicio := t0 + 30; fin := t0 + 90; dur_min := 60 # 60;
     msgs_total := 2; msgs_oper := 1; msgs_user := 1;
     date_local := 20332 |}.
Definition row_acme_ana : ops_row :=
  {| o_op := {| o_channel_id := 1; o_session_id := 0; o_partner_id := 7;
                o_autor := "Ana"; o_msgs_oper := 1 |};
     o_session := Some session_acme |}.
Definition row_acme_beto : ops_row :=
  {| o_op := {| o_channel_id := 1; o_session_id := 0; o_partner_id := 8;
                o_autor := "Beto"; o_msgs_oper := 1 |};
     o_session := Some session_acme |}.
Definition row_bodega_ana : ops_row :=
  {| o_op := {| o_channel_id := 2; o_session_id := 0; o_partner_id := 7;
                o_autor := "Ana"; o_msgs_oper := 1 |};
     o_session := Some session_bodega |}.

(** The row of the lone message of Beto, and ledgers to run the upsert on. *)
Definition row_beto : ops_row :=
  {| o_op := {| o_channel_id := 1; o_session_id := 1; o_partner_id := 8;
                o_autor := "Beto"; o_msgs_oper := 1 |};
     o_session := None |}.

Definition line_beto (i : Z) : line :=
  {| id := i; vals := line_vals_of args0 55 [row_beto] 800 row_beto |}.

Definition world_duplicates : world :=
  {| lines := [ line_beto 3; line_beto 5 ]; next_id := 6; pending := [] |}.

(** The server accepts two calls and refuses the third: in a run of
    [main], the insert of the first record, after [fields_get] and the
    search. *)
Definition world_refusing : world :=
  {| lines := []; next_id := 1; pending := [false; false; true] |}.

End Day.

(** * Further readings: the run as a whole *)

(** The server with another list of outcomes to come. *)
Definition set_pending (p : list bool) (w : world) : world :=
  {| lines := lines w; next_id := next_id w; pending := p |}.

(** The ledger is well formed: no two lines share an id, and every id came
    out of the sequence already. *)
Definition ledger_wf (w : world) : Prop :=
  NoDup (id <$> lines w) ∧ Forall (λ l, id l < next_id w) (lines w).

(** The lines a run plans: one per row with an employee. *)
Definition plan_of (a : args) (project : Z)
    (partner_to_user user_to_employee : gmap Z (Z * string))
    (ops : list ops_row) (rows : list ops_row) : list (line_vals * string) :=
  omap (λ r, (λ e, (line_vals_of a project ops e r, signature_of r))
               <$> employee_of partner_to_user user_to_employee r) rows.

(** The rows left out for want of an employee, all authors together. *)
Definition omitidos_total (m : gmap string Z) : Z :=
  map_fold (λ _ v acc, v + acc) 0 m.

(** The number of rows [main] goes over: none when it returns early. *)
Definition rows_processed (a : args) (ch_map : gmap Z string)
    (internal_partner_ids : gset Z) (msgs : list message) : list ops_row :=
  if bool_decide ((session_tables ch_map internal_partner_ids
                     msgs (inactividad a)).1 = [])
  then [] else ops_of a ch_map internal_partner_ids msgs.

(** [to_local_day_bounds] (lines 87-93): the first and the last second of
    a local day, as instants; with the constant offset, so for the days
    from 14318 (2009-03-15) on. *)
Definition to_local_day_bounds (date_local : Z) : Z * Z :=
  (date_local * 86400 + TZ_OFFSET, date_local * 86400 + 86399 + TZ_OFFSET).

(** The dates the search for the messages of a day lets through (lines
    144-147). *)
Definition in_day (d : Z) (m : message) : Prop :=
  ∀ t, m_date m = Some t →
       (to_local_day_bounds d).1 ≤ t ≤ (to_local_day_bounds d).2.

(** [c in s] for one character. *)
Fixpoint occurs (c : ascii) (s : string) : bool :=
  match s with
  | EmptyString => false
  | String x s' => bool_decide (c = x) || occurs c s'
  end.

(** The characters [str] prints an integer with. *)
Definition numeric_char (c : ascii) : bool :=
  let n := N_of_ascii c in
  ((48 <=? n) && (n <=? 57))%N || bool_decide (c = "-"%char).

Fixpoint numeric (s : string) : bool :=
  match s with
  | EmptyString => true
  | String c s' => numeric_char c && numeric s'
  end.

(** What the signature of a row is made of. *)
Definition row_key (r : ops_row) : Z * Z * Z :=
  (o_channel_id (o_op r), o_session_id (o_op r), o_partner_id (o_op r)).

(** The part of the name of a line that comes before the marker. *)
Definition name_head (r : ops_row) : string :=
  "WhatsApp " +:+ from_option s_canal "nan" (o_session r)
  +:+ " (" +:+ time_span r +:+ ") - " +:+ o_autor (o_op r) +:+ " ".

(** No channel name and no display name holds an opening bracket. *)
Definition plain_names (ch_map : gmap Z string) (msgs : list message) : Prop :=
  map_Forall (λ _ n, occurs "[" n = false) ch_map
  ∧ Forall (λ m, ∀ a, m_author_id m = Some a → occurs "[" a.2 = false) msgs.

Definition plain_row (r : ops_row) : Prop :=
  occurs "[" (from_option s_canal "nan" (o_session r)) = false
  ∧ occurs "[" (o_autor (o_op r)) = false.

Module Book.


Definition args_recreate : args :=
  {| fecha := 20332; inactividad := 45; modo_ := equal;
     dry_run := false; recrear := true |}.


(** Two visits of one client to one channel, an hour and more apart. *)
Definition msgs_two_visits : list message :=
  [ Day.msg 1 1 Day.t0 Day.cliente; Day.msg 2 1 (Day.t0 + 60) Day.ana;
    Day.msg 3 1 (Day.t0 + 4000) Day.cliente;
    Day.msg 4 1 (Day.t0 + 4100) Day.beto ].

(** A row of another operator in the session of [Day.row_beto]: partner 81,
    whose id begins like Beto's. *)
Definition row_beta : ops_row :=
  {| o_op := {| o_channel_id := 1; o_session_id := 1; o_partner_id := 81;
                o_autor := "Beto"; o_msgs_oper := 1 |};
     o_session := None |}.

(** A run that recomputes the day by the count of messages, and the
    ledger the run of [Day.args0] on [Day.msgs_activity] leaves. *)
Definition args_remode : args :=
  {| fecha := 20332; inactividad := 45; modo_ := by_msgs;
     dry_run := false; recrear := true |}.

Definition world_after : world :=
  (main Day.args0 55 Day.ch_map Day.internal_partner_ids Day.partner_to_user
     Day.user_to_employee Day.msgs_activity Day.world0).2.

(** The session of [Day.msgs_activity] and the row of Ana in it. *)
Definition session_activity : session :=
  {| s_canal := "Acme"; s_channel_id := 1; s_session_id := 0;
     inicio := Day.t0; fin := Day.t0 + 240; dur_min := 240 # 60;
     msgs_total := 5; msgs_oper := 4; msgs_user := 1; date_local := 20332 |}.

Definition row_ana : ops_row :=
  {| o_op := {| o_channel_id := 1; o_session_id := 0; o_partner_id := 7;
                o_autor := "Ana"; o_msgs_oper := 3 |};
     o_session := Some session_activity |}.

End Book.

(** * Users and employees *)

(** A record of [res.users] and one of [hr.employee] as [read] returns
    them: a many2one field is the pair of an id and a name, or [False]. *)
Record user_rec := {
  u_id : Z;
  u_name : string;
  u_partner_id : option (Z * string);
}.

Record emp_rec := {
  e_id : Z;
  e_name : string;
  e_user_id : option (Z * string);
}.

(** The partners of the internal users (lines 126-128). *)
Definition internal_partner_ids_of (users : list user_rec) : gset Z :=
  list_to_set (omap (λ u, fst <$> u_partner_id u) users).

(** [build_employee_map] (lines 231-250), from what the server answers:
    the internal users, and the employees when the model [hr.employee]
    exists.  A later record of the same key overwrites an earlier one. *)
Definition build_employee_map (users : list user_rec)
    (emps : option (list emp_rec))
    : gmap Z (Z * string) * gmap Z (Z * string) :=
  let user_to_employee :=
    foldl (λ m e, match e_user_id e with
                  | Some u => <[u.1 := (e_id e, e_name e)]> m
                  | None => m
                  end) ∅ (default [] emps) in
  let partner_to_user :=
    foldl (λ m u, match u_partner_id u with
                  | Some p => <[p.1 := (u_id u, u_name u)]> m
                  | None => m
                  end) ∅ users in
  (partner_to_user, user_to_employee).

(** * Projects and tags *)

(** A record of [project.project] or of [account.analytic.tag]: its id,
    its name, and the flag [allow_timesheets] when it was given one. *)
Record named := {
  n_id : Z;
  n_name : string;
  n_allow_timesheets : option bool;
}.

(** The model on the server, as [world] is for the analytic lines. *)
Record catalog := {
  recs : list named;
  cat_next_id : Z;
  cat_pending : list bool;
}.

(** How a call ends: with a value, with a fault of the server, or with the
    [RuntimeError] the program raises itself. *)
Inductive outcome (A : Type) : Type :=
  | Done (a : A)
  | ServerFault
  | RuntimeError.
Arguments Done {A} a.
Arguments ServerFault {A}.
Arguments RuntimeError {A}.

Definition call (A : Type) : Type := catalog → outcome A * catalog.

#[global] Instance call_ret : MRet call := λ A a c, (Done a, c).
#[global] Instance call_bind : MBind call := λ A B f m c,
  match m c with
  | (Done a, c') => f a c'
  | (ServerFault, c') => (ServerFault, c')
  | (RuntimeError, c') => (RuntimeError, c')
  end.

Definition raise_RuntimeError {A : Type} : call A := λ c, (RuntimeError, c).

Definition cat_execute_kw {A : Type} (method : catalog → A * catalog) : call A :=
  λ c,
  match cat_pending c with
  | true :: p =>
      (ServerFault,
       {| recs := recs c; cat_next_id := cat_next_id c; cat_pending := p |})
  | false :: p =>
      let '(a, c') :=
        method {| recs := recs c; cat_next_id := cat_next_id c;
                  cat_pending := p |} in
      (Done a, c')
  | [] => let '(a, c') := method c in (Done a, c')
  end.

(** [search] with one condition, [order="id asc"] and [limit=1]. *)
Definition cat_search (cond : named → Prop) `{!∀ r, Decision (cond r)}
    (c : catalog) : list Z * catalog :=
  (take 1 (sort_by Z.leb (n_id <$> filter cond (recs c))), c).

Definition cat_create (nm : string) (allow : option bool) (c : catalog)
    : Z * catalog :=
  (cat_next_id c,
   {| recs := recs c ++ [ {| n_id := cat_next_id c; n_name := nm;
                             n_allow_timesheets := allow |} ];
      cat_next_id := cat_next_id c + 1; cat_pending := cat_pending c |}).

(** Lines 252-262. *)
Definition find_project (project_name : string) (crear : bool) : call Z :=
  ids ← cat_execute_kw (cat_search (λ r, n_name r = project_name));
  match ids with
  | i :: _ => mret i
  | [] =>
      if crear then cat_execute_kw (cat_create project_name (Some true))
      else raise_RuntimeError
  end.

(** Lines 264-268. *)
Definition find_project_by_id (project_id : Z) : call Z :=
  ids ← cat_execute_kw (cat_search (λ r, n_id r = project_id));
  match ids with
  | i :: _ => mret i
  | [] => raise_RuntimeError
  end.

(** Lines 270-274. *)
Definition find_or_create_tag (tag_name : string) : call Z :=
  ids ← cat_execute_kw (cat_search (λ r, n_name r = tag_name));
  match ids with
  | i :: _ => mret i
  | [] => cat_execute_kw (cat_create tag_name None)
  end.

Module Office.

(** A server with two projects of one name. *)
Definition projects : catalog :=
  {| recs := [ {| n_id := 9; n_name := "WhatsApp";
                  n_allow_timesheets := Some true |};
               {| n_id := 4; n_name := "WhatsApp";
                  n_allow_timesheets := Some false |} ];
     cat_next_id := 10; cat_pending := [] |}.

End Office.

(** * Reading in chunks *)

(** Python's [range(0, stop, step)] for a step above 0: the multiples of
    [step] below [stop]. *)
Definition range_step (stop step : nat) : list nat :=
  (λ k, k * step)%nat <$> seq 0 (Nat.div (stop + step - 1) step).

(** [lst[i:i+n]]. *)
Definition slice {A : Type} (lst : list A) (i n : nat) : list A :=
  take n (drop i lst).

(** [chunked] ([exportar_whatsapp_odoo.py], lines 26-28): the slices the
    generator yields; [range] raises for a step of 0. *)
Definition chunked {A : Type} (lst : list A) (n : nat) : option (list (list A)) :=
  if decide (n = 0%nat) then None
  else Some ((λ i, slice lst i n) <$> range_step (length lst) n).

(** [read] (lines 72-76 there, and lines 81-85 of
    [wa_sesiones_a_timesheets.py], where the loop of [chunked] is written
    out): one call for each 200 ids, the answers put end to end.
    [server_read] is what the server answers for the model and the fields
    asked for. *)
Section Read.
Context {R : Type} (server_read : list Z → world → list R * world).

Fixpoint read_chunks (chunks : list (list Z)) (out : list R) : rpc (list R) :=
  match chunks with
  | [] => mret out
  | ch :: chunks' =>
      recs ← execute_kw (server_read ch);
      read_chunks chunks' (out ++ recs)
  end.

Definition read (ids : list Z) : rpc (list R) :=
  read_chunks ((λ i, slice ids i 200) <$> range_step (length ids) 200) [].

End Read.

(** * The names of the sheets *)

(** [s[:k]]: the first [k] characters; a negative [k] counts from the
    end.  A character of a name is one [ascii] here. *)
Fixpoint str_take (n : nat) (s : string) : string :=
  match n, s with
  | S n', String c s' => String c (str_take n' s')
  | _, _ => EmptyString
  end.

Definition py_prefix (s : string) (k : Z) : string :=
  if decide (0 ≤ k) then str_take (Z.to_nat k) s
  else str_take (Z.to_nat (Z.of_nat (String.length s) + k)) s.

(** The candidate of the turn [i] of the loop of [xl_sheet] (line 85). *)
Definition cand (base : string) (i : Z) : string :=
  let sfx := "~" +:+ pretty i in
  py_prefix base (31 - Z.of_nat (String.length sfx)) +:+ sfx.

(** [xl_sheet] ([exportar_whatsapp_odoo.py], lines 79-88): the name given
    to the sheet and the set [used] as the call leaves it.  [fuel] bounds
    the turns of the [while True]. *)
Fixpoint xl_sheet_loop (fuel : nat) (base : string) (used : gset string)
    (i : Z) : option (string * gset string) :=
  match fuel with
  | O => None
  | S fuel' =>
      if decide (cand base i ∈ used)
      then xl_sheet_loop fuel' base used (i + 1)
      else Some (cand base i, {[ cand base i ]} ∪ used)
  end.

Definition xl_sheet (fuel : nat) (name : string) (used : gset string)
    : option (string * gset string) :=
  let base := py_prefix name 31 in
  if decide (base ∈ used) then xl_sheet_loop fuel base used 2
  else Some (base, {[ base ]} ∪ used).

(** The loop over the sheets of a workbook (lines 133-138 and 182-188;
    [write_sheet], lines 543-544, called sheet after sheet): every call
    works on the one set [used]. *)
Fixpoint xl_sheets (fuel : nat) (names : list string) (used : gset string)
    : option (list string * gset string) :=
  match names with
  | [] => Some ([], used)
  | name :: names' =>
      '(sh, used1) ← xl_sheet fuel name used;
      '(shs, used2) ← xl_sheets fuel names' used1;
      Some (sh :: shs, used2)
  end.

(** * Properties *)

(** ** Strings *)

Lemma lower_app (a b : string) : Str.lower (a +:+ b) = Str.lower a +:+ Str.lower b.
Proof. induction a as [|c a IH]; simpl; [done | by rewrite IH]. Qed.

Lemma is_prefix_app (p s : string) : Str.is_prefix p (p +:+ s) = true.
Proof.
  induction p as [|c p IH]; simpl; [done |].
  rewrite IH. by rewrite bool_decide_eq_true_2.
Qed.

Lemma is_prefix_refl (p : string) : Str.is_prefix p p = true.
Proof.
  induction p as [|c p IH]; simpl; [done |].
  rewrite IH. by rewrite bool_decide_eq_true_2.
Qed.

Lemma contains_app (a p : string) : Str.contains (a +:+ p) p = true.
Proof.
  induction a as [|c a IH].
  - destruct p as [|c p]; simpl; [done |].
    rewrite bool_decide_eq_true_2 by done. by rewrite is_prefix_refl.
  - simpl. rewrite IH. apply orb_true_r.
Qed.

Lemma ilike_app (a p : string) : Str.ilike (a +:+ p) p = true.
Proof. unfold Str.ilike. rewrite lower_app. apply contains_app. Qed.

(** ** The stable sort *)

Section SortingFacts.
Context {A : Type} (leb : A → A → bool).

Lemma insert_sorted_Permutation (x : A) (l : list A) :
  insert_sorted leb x l ≡ₚ x :: l.
Proof.
  induction l as [|y l IH]; simpl; [done |].
  destruct (leb x y); [done |].
  rewrite IH. apply Permutation_swap.
Qed.

Lemma sort_by_Permutation (l : list A) : sort_by leb l ≡ₚ l.
Proof.
  induction l as [|x l IH]; simpl; [done |].
  rewrite insert_sorted_Permutation. by rewrite IH.
Qed.

Lemma elem_of_sort_by (x : A) (l : list A) : x ∈ sort_by leb l ↔ x ∈ l.
Proof. by rewrite sort_by_Permutation. Qed.

Lemma sort_by_length (l : list A) : length (sort_by leb l) = length l.
Proof. by rewrite sort_by_Permutation. Qed.

Lemma NoDup_sort_by (l : list A) : NoDup l → NoDup (sort_by leb l).
Proof. by rewrite sort_by_Permutation. Qed.

Lemma insert_sorted_Sorted (x : A) (l : list A) :
  (∀ a b, leb a b = true ∨ leb b a = true) →
  Sorted (le_of leb) l → Sorted (le_of leb) (insert_sorted leb x l).
Proof.
  intros Htot. induction l as [|y l IH]; intros Hs; simpl.
  - by repeat constructor.
  - destruct (leb x y) eqn:Hxy.
    + constructor; [done | by constructor].
    + apply Sorted_inv in Hs as [Hs Hhd].
      constructor; [by apply IH |].
      destruct l as [|z l]; simpl.
      * constructor. destruct (Htot x y) as [H|H]; [congruence | done].
      * destruct (leb x z).
        -- constructor. destruct (Htot x y) as [H|H]; [congruence | done].
        -- constructor. by apply HdRel_inv in Hhd.
Qed.

Lemma sort_by_Sorted (l : list A) :
  (∀ a b, leb a b = true ∨ leb b a = true) → Sorted (le_of leb) (sort_by leb l).
Proof.
  intros Htot. induction l as [|x l IH]; simpl; [constructor |].
  by apply insert_sorted_Sorted.
Qed.

(** Stability: the rows of one key class come out in the order they went
    in. *)
Lemma insert_sorted_filter (P : A → Prop) `{!∀ x, Decision (P x)}
    (x : A) (l : list A) :
  (∀ a b, P a → P b → leb a b = true) →
  filter P (insert_sorted leb x l) = filter P (x :: l).
Proof.
  intros Hcls. induction l as [|y l IH]; simpl; [done |].
  destruct (leb x y) eqn:Hxy; [done |].
  rewrite filter_cons, IH. rewrite !filter_cons.
  destruct (decide (P x)) as [Hx|Hx], (decide (P y)) as [Hy|Hy]; try done.
  rewrite (Hcls x y Hx Hy) in Hxy. done.
Qed.

Lemma sort_by_stable (P : A → Prop) `{!∀ x, Decision (P x)} (l : list A) :
  (∀ a b, P a → P b → leb a b = true) →
  filter P (sort_by leb l) = filter P l.
Proof.
  intros Hcls. induction l as [|x l IH]; simpl; [done |].
  rewrite insert_sorted_filter by done.
  rewrite !filter_cons, IH. done.
Qed.

End SortingFacts.

Lemma StronglySorted_filter {A : Type} (R : relation A) (P : A → Prop)
    `{!∀ x, Decision (P x)} (l : list A) :
  StronglySorted R l → StronglySorted R (filter P l).
Proof.
  induction 1 as [|x l Hs IH Hall]; [constructor |].
  rewrite filter_cons. destruct (decide (P x)); [|done].
  constructor; [done |].
  apply Forall_forall. intros y [_ Hy]%list_elem_of_filter.
  by eapply Forall_forall in Hall.
Qed.

Lemma StronglySorted_impl_elem {A : Type} (R1 R2 : relation A) (l : list A) :
  (∀ x y, x ∈ l → y ∈ l → R1 x y → R2 x y) →
  StronglySorted R1 l → StronglySorted R2 l.
Proof.
  intros Himpl Hs. induction Hs as [|x l Hs IH Hall]; [constructor |].
  constructor.
  - apply IH. intros a b Ha Hb. apply Himpl; by right.
  - apply Forall_forall. intros y Hy.
    apply Himpl; [by left | by right |].
    by eapply Forall_forall in Hall.
Qed.

(** ** Ingestion *)

Lemma row_leb_total (a b : drow) : row_leb a b = true ∨ row_leb b a = true.
Proof.
  unfold row_leb.
  destruct (Z.ltb_spec (d_channel a) (d_channel b)),
    (Z.ltb_spec (d_channel b) (d_channel a)),
    (Z.eqb_spec (d_channel a) (d_channel b)),
    (Z.eqb_spec (d_channel b) (d_channel a)),
    (Z.leb_spec (fecha_local a) (fecha_local b)),
    (Z.leb_spec (fecha_local b) (fecha_local a)); simpl; auto; lia.
Qed.

#[local] Instance row_leb_trans : Transitive (le_of row_leb).
Proof.
  intros a b c. unfold le_of, row_leb.
  destruct (Z.ltb_spec (d_channel a) (d_channel b)),
    (Z.ltb_spec (d_channel b) (d_channel c)),
    (Z.ltb_spec (d_channel a) (d_channel c)),
    (Z.eqb_spec (d_channel a) (d_channel b)),
    (Z.eqb_spec (d_channel b) (d_channel c)),
    (Z.eqb_spec (d_channel a) (d_channel c)),
    (Z.leb_spec (fecha_local a) (fecha_local b)),
    (Z.leb_spec (fecha_local b) (fecha_local c)),
    (Z.leb_spec (fecha_local a) (fecha_local c)); simpl; auto; lia.
Qed.

Lemma sort_values_Permutation (df : list drow) : sort_values df ≡ₚ df.
Proof. apply sort_by_Permutation. Qed.

Lemma sort_values_channel_sorted (df : list drow) (c : Z) :
  StronglySorted (λ a b, fecha_local a ≤ fecha_local b)
    (filter (λ r, d_channel r = c) (sort_values df)).
Proof.
  apply (StronglySorted_impl_elem (le_of row_leb));
    [| apply StronglySorted_filter, Sorted_StronglySorted;
       [apply _ | apply sort_by_Sorted, row_leb_total]].
  intros x y [Hx _]%list_elem_of_filter [Hy _]%list_elem_of_filter.
  unfold le_of, row_leb. rewrite Hx, Hy.
  rewrite Z.ltb_irrefl, Z.eqb_refl. simpl. lia.
Qed.

(** C8: in the output of ingestion the events of every channel are in
    non-decreasing order of their instant, nothing is lost or added by the
    sort, and the events of a channel that carry the very same instant keep
    the order in which they were read. *)
Theorem ingestion_sorted_stable (ch_map : gmap Z string)
    (internal_partner_ids : gset Z) (msgs : list message) (c : Z) :
  let df0 := dropna (build_rows ch_map internal_partner_ids msgs) in
  let df := sort_values df0 in
  df ≡ₚ df0
  ∧ StronglySorted (λ a b, fecha_local a ≤ fecha_local b)
      (filter (λ r, d_channel r = c) df)
  ∧ ∀ t : Z,
      filter (λ r, d_channel r = c ∧ fecha_local r = t) df
      = filter (λ r, d_channel r = c ∧ fecha_local r = t) df0.
Proof.
  intros df0 df. split; [apply sort_values_Permutation |].
  split; [apply sort_values_channel_sorted |].
  intros t. apply sort_by_stable.
  intros a b [Ha1 Ha2] [Hb1 Hb2]. unfold row_leb.
  rewrite Ha1, Hb1, Ha2, Hb2, Z.eqb_refl, Z.leb_refl.
  apply orb_true_r.
Qed.

(** ** Segmentation, channel by channel *)

(** Minutes against the threshold, on whole seconds. *)
Lemma gt_minutes (d T : Z) : gt (minutes (Some d)) T = bool_decide (60 * T < d).
Proof.
  unfold gt, minutes, Qle_bool. simpl.
  destruct (Z.leb_spec (d * 1) (T * 60)); simpl.
  - rewrite bool_decide_eq_false_2; [done | lia].
  - rewrite bool_decide_eq_true_2; [done | lia].
Qed.

Lemma session_id_ids_from (T : Z) (df : list drow) :
  session_id T df = ids_from T ∅ ∅ df.
Proof. done. Qed.

Lemma ids_from_length (T : Z) (df : list drow) (last acc : gmap Z Z) :
  length (ids_from T last acc df) = length df.
Proof.
  revert last acc. induction df as [|r df IH]; intros last acc; [done |].
  unfold ids_from in *. simpl. by rewrite IH.
Qed.

Lemma ids_from_channel (T : Z) (c : Z) (df : list drow) (last acc : gmap Z Z) :
  (filter (λ x, d_channel x.1 = c) (zip df (ids_from T last acc df))).*2
  = channel_ids T (last !! c) (default 0 (acc !! c))
      (fecha_local <$> filter (λ r, d_channel r = c) df).
Proof.
  revert last acc. induction df as [|r df IH]; intros last acc; [done |].
  unfold ids_from in *. cbn [groupby_diff fmap list_fmap zip zip_with groupby_cumsum].
  rewrite !filter_cons. cbn [fst].
  destruct (decide (d_channel r = c)) as [Hc|Hc].
  - cbn [fmap list_fmap snd channel_ids]. rewrite IH, Hc.
    rewrite !lookup_insert_eq. cbn [default].
    destruct (last !! c) as [p|]; cbn [fmap option_fmap option_map].
    + by rewrite gt_minutes.
    + done.
  - rewrite IH. by rewrite !lookup_insert_ne.
Qed.

(** Every event receives exactly one session id. *)
Lemma with_sessions_fst (T : Z) (df : list drow) : (with_sessions T df).*1 = df.
Proof.
  unfold with_sessions. apply fst_zip.
  rewrite session_id_ids_from, ids_from_length. done.
Qed.

Lemma with_sessions_channel (T : Z) (c : Z) (df : list drow) :
  (filter (λ x, d_channel x.1 = c) (with_sessions T df)).*2
  = channel_ids T None 0 (fecha_local <$> filter (λ r, d_channel r = c) df).
Proof.
  unfold with_sessions. rewrite session_id_ids_from, ids_from_channel.
  by rewrite !lookup_empty.
Qed.

Lemma channel_ids_length (T : Z) (ts : list Z) (prev : option Z) (n : Z) :
  length (channel_ids T prev n ts) = length ts.
Proof.
  revert prev n. induction ts as [|t ts IH]; intros prev n; simpl; [done |].
  by rewrite IH.
Qed.

(** Between two consecutive events of a channel the id goes up by one when
    the gap is strictly longer than the threshold, and stays otherwise. *)
Lemma channel_ids_step (T : Z) (ts : list Z) (prev : option Z) (n : Z)
    (i : nat) (t1 t2 s1 s2 : Z) :
  ts !! i = Some t1 → ts !! S i = Some t2 →
  channel_ids T prev n ts !! i = Some s1 →
  channel_ids T prev n ts !! S i = Some s2 →
  s2 = s1 + (if bool_decide (60 * T < t2 - t1) then 1 else 0).
Proof.
  revert prev n i. induction ts as [|t ts IH]; intros prev n i; [done |].
  destruct i as [|i]; simpl.
  - intros [= ->] Ht2 [= <-]. destruct ts as [|t' ts]; [done |].
    simpl in *. intros [= <-]. by injection Ht2 as ->.
  - apply IH.
Qed.

(** The first event of a channel gets the id 0: its difference is missing,
    the comparison is false, and nothing is left for [fillna] to fill. *)
Lemma channel_ids_first (T : Z) (t : Z) (ts : list Z) :
  channel_ids T None 0 (t :: ts) !! 0%nat = Some 0.
Proof. done. Qed.

(** C3: inside every channel the session ids are those of [channel_ids]
    started without a previous event and at 0: the id goes up exactly where
    the gap to the previous event of the channel is strictly longer than
    the threshold.  On a channel whose events lie 45 minutes and then 45
    minutes and a second apart, with the threshold at 45, the program
    numbers the sessions 0, 0, 1: the gap equal to the threshold does not
    break, the longer one does, and the first event opens session 0, not
    session 1. *)
Theorem session_ids_at_threshold :
  (∀ (T c : Z) (df : list drow),
     (filter (λ x, d_channel x.1 = c) (with_sessions T df)).*2
     = channel_ids T None 0 (fecha_local <$> filter (λ r, d_channel r = c) df))
  ∧ session_break 45 (Day.df_of Day.msgs_threshold) = [false; false; true]
  ∧ session_id 45 (Day.df_of Day.msgs_threshold) = [0; 0; 1].
Proof.
  split; [intros T c df; apply with_sessions_channel |].
  split; vm_compute; reflexivity.
Qed.

(** ** The summary and the operator rows *)

Lemma count_true_pos (l : list bool) : 0 < count_true l ↔ true ∈ l.
Proof.
  unfold count_true. induction l as [|b l IH]; simpl.
  - split; [lia | by intros ?%elem_of_nil].
  - rewrite filter_cons. destruct (decide (b = true)) as [->|Hb]; simpl.
    + split; [intros _; by left | lia].
    + rewrite IH. split; [by right |].
      intros [?|?]%elem_of_cons; [congruence | done].
Qed.

Lemma count_true_negb (l : list bool) :
  count_true l + count_true (negb <$> l) = Z.of_nat (length l).
Proof.
  unfold count_true. induction l as [|b l IH]; [done |].
  rewrite fmap_cons, !filter_cons.
  destruct b; cbn [negb]; repeat case_decide; try done;
    cbn [length]; rewrite ?Nat2Z.inj_succ; lia.
Qed.

Lemma count_true_bound (l : list bool) : 0 ≤ count_true l ≤ Z.of_nat (length l).
Proof.
  unfold count_true. pose proof (length_filter (λ b, b = true) l). lia.
Qed.

Lemma agg_session_counts (k : string * Z * Z) (g : list (drow * Z)) :
  msgs_oper (agg_session k g) + msgs_user (agg_session k g)
  = msgs_total (agg_session k g).
Proof.
  unfold agg_session. simpl.
  rewrite count_true_negb. by rewrite length_fmap.
Qed.

Lemma elem_of_sessions_all (dfs : list (drow * Z)) (s : session) :
  s ∈ sessions_all dfs ↔
  ∃ x, x ∈ dfs
       ∧ s = agg_session (session_key x)
               (filter (λ y, session_key y = session_key x) dfs).
Proof.
  unfold sessions_all. rewrite list_elem_of_fmap. split.
  - intros (k & -> & Hk).
    rewrite elem_of_sort_by, elem_of_remove_dups, list_elem_of_fmap in Hk.
    destruct Hk as (x & -> & Hx). eauto.
  - intros (x & Hx & ->). exists (session_key x). split; [done |].
    rewrite elem_of_sort_by, elem_of_remove_dups, list_elem_of_fmap. eauto.
Qed.

Lemma elem_of_sessions (dfs : list (drow * Z)) (s : session) :
  s ∈ sessions dfs ↔ s ∈ sessions_all dfs ∧ 0 < msgs_user s ∧ 0 < msgs_oper s.
Proof.
  unfold sessions. rewrite list_elem_of_filter. unfold qualifying. tauto.
Qed.

(** A session of the summary has both roles, hence two events or more. *)
Lemma sessions_qualifying (dfs : list (drow * Z)) (s : session) :
  s ∈ sessions dfs →
  0 < msgs_user s ∧ 0 < msgs_oper s ∧ 2 ≤ msgs_total s.
Proof.
  intros (Hall & Hu & Ho)%elem_of_sessions.
  apply elem_of_sessions_all in Hall as (x & _ & ->).
  pose proof (agg_session_counts (session_key x)
    (filter (λ y, session_key y = session_key x) dfs)). lia.
Qed.

(** The groups of the summary split the table: a row sits in the group of
    its own key and in no other, and the groups together hold as many rows
    as the table. *)
Lemma session_group_of_row (dfs : list (drow * Z)) (x : drow * Z) (k : string * Z * Z) :
  x ∈ dfs →
  session_key x ∈ sort_by session_key_leb (remove_dups (session_key <$> dfs))
  ∧ (x ∈ filter (λ y, session_key y = k) dfs ↔ k = session_key x).
Proof.
  intros Hx. split.
  - rewrite elem_of_sort_by, elem_of_remove_dups. by apply list_elem_of_fmap_2.
  - rewrite list_elem_of_filter. split; [by intros [<- _] | by intros ->].
Qed.

Lemma length_filter_complement {A : Type} (P : A → Prop)
    `{!∀ x, Decision (P x)} (l : list A) :
  length l = (length (filter P l) + length (filter (λ x, ¬ P x) l))%nat.
Proof.
  induction l as [|x l IH]; [done |].
  rewrite !filter_cons. destruct (decide (P x)), (decide (¬ P x));
    try done; simpl; lia.
Qed.

Lemma Zsum_group_lengths {A K : Type} `{EqDecision K} (key : A → K)
    (ks : list K) (l : list A) :
  NoDup ks → (∀ x, x ∈ l → key x ∈ ks) →
  Zsum ((λ k, Z.of_nat (length (filter (λ y, key y = k) l))) <$> ks)
  = Z.of_nat (length l).
Proof.
  intros Hnd. revert l. induction Hnd as [|k ks Hk Hnd IH]; intros l Hcov.
  - destruct l as [|x l]; [done |].
    specialize (Hcov x (list_elem_of_here _ _)). by apply elem_of_nil in Hcov.
  - rewrite fmap_cons. cbn [Zsum foldr].
    fold (Zsum ((λ k, Z.of_nat (length (filter (λ y, key y = k) l))) <$> ks)).
    assert ((λ k', Z.of_nat (length (filter (λ y, key y = k') l))) <$> ks
            = (λ k', Z.of_nat (length (filter (λ y, key y = k')
                                 (filter (λ y, key y ≠ k) l)))) <$> ks) as ->.
    { apply list_fmap_ext. intros i k' Hk'%list_elem_of_lookup_2.
      rewrite list_filter_filter. do 2 f_equal.
      apply list_filter_iff. intros y. split; [|tauto].
      intros ->. split; [done |]. by intros ->. }
    rewrite IH.
    + rewrite (length_filter_complement (λ y, key y = k) l). lia.
    + intros x [Hne Hx]%list_elem_of_filter.
      specialize (Hcov x Hx). by apply elem_of_cons in Hcov as [?|?].
Qed.

Lemma sessions_all_msgs_total (dfs : list (drow * Z)) :
  Zsum (msgs_total <$> sessions_all dfs) = Z.of_nat (length dfs).
Proof.
  unfold sessions_all. rewrite <- list_fmap_compose.
  erewrite list_fmap_ext; [apply (Zsum_group_lengths session_key) |].
  - apply NoDup_sort_by, NoDup_remove_dups.
  - intros x Hx. by apply (session_group_of_row dfs x (session_key x)).
  - done.
Qed.

(** C4: every event comes out once, with one session id, and the groups
    of the summary before its filter hold as many events as the table.  On
    two interleaved channels the ids of each channel count its breaks from
    0: channel 1 gets 0, 0, 1 and channel 2 gets 0, 0. *)
Theorem session_ids_two_channels :
  (∀ (T : Z) (df : list drow),
     (with_sessions T df).*1 = df
     ∧ Zsum (msgs_total <$> sessions_all (with_sessions T df))
       = Z.of_nat (length df))
  ∧ (λ x, (msg_id (d_row x.1), d_channel x.1, x.2))
      <$> with_sessions 45 (Day.df_of Day.msgs_two_channels)
    = [ (1, 1, 0); (3, 1, 0); (5, 1, 1); (2, 2, 0); (4, 2, 0) ].
Proof.
  split; [|vm_compute; reflexivity].
  intros T df. split; [apply with_sessions_fst |].
  rewrite sessions_all_msgs_total.
  by rewrite <- (with_sessions_fst T df) at 2; rewrite length_fmap.
Qed.

(** The key [(channel_id, session_id)] names one session of the summary at
    most, as long as the name of a channel follows from its id. *)
Lemma sessions_all_key_unique (dfs : list (drow * Z)) (s1 s2 : session) :
  canal_by_channel dfs →
  s1 ∈ sessions_all dfs → s2 ∈ sessions_all dfs →
  s_channel_id s1 = s_channel_id s2 → s_session_id s1 = s_session_id s2 →
  s1 = s2.
Proof.
  intros Hcan (x & Hx & ->)%elem_of_sessions_all
    (y & Hy & ->)%elem_of_sessions_all. simpl. intros Hc Hs.
  assert (session_key x = session_key y) as Hk.
  { unfold session_key in *. simpl in *. rewrite Hc, Hs.
    by rewrite (Hcan x y Hx Hy Hc). }
  by rewrite Hk.
Qed.

Lemma NoDup_sessions_all (dfs : list (drow * Z)) : NoDup (sessions_all dfs).
Proof.
  unfold sessions_all. apply NoDup_fmap_2_strong.
  - intros k1 k2 _ _ Heq.
    apply (f_equal (λ s, (s_canal s, s_channel_id s, s_session_id s))) in Heq.
    simpl in Heq. by destruct k1 as [[? ?] ?], k2 as [[? ?] ?].
  - apply NoDup_sort_by, NoDup_remove_dups.
Qed.

(** ** Where the rows come from *)

Section Pipeline.
Context (ch_map : gmap Z string) (internal_partner_ids : gset Z)
  (msgs : list message) (T : Z).

Let df := sort_values (dropna (build_rows ch_map internal_partner_ids msgs)).
Let dfs := with_sessions T df.

Lemma df_row_message (r : drow) :
  r ∈ df →
  ∃ m, m ∈ msgs ∧ d_row r = mk_row ch_map internal_partner_ids m
       ∧ m_date m = Some (fecha_local r).
Proof.
  unfold df, sort_values. rewrite elem_of_sort_by. unfold dropna.
  rewrite list_elem_of_omap. intros (row & Hrow & Hr).
  destruct (fecha_utc row) as [t|] eqn:Ht; simpl in Hr; [|done].
  injection Hr as <-. simpl.
  unfold build_rows in Hrow. apply list_elem_of_fmap in Hrow as (m & -> & Hm).
  apply list_elem_of_filter in Hm as [_ Hm]. eauto.
Qed.

Lemma dfs_row_message (x : drow * Z) :
  x ∈ dfs →
  ∃ m, m ∈ msgs ∧ d_row x.1 = mk_row ch_map internal_partner_ids m
       ∧ m_date m = Some (fecha_local x.1).
Proof.
  intros Hx. apply df_row_message.
  rewrite <- (with_sessions_fst T df). apply list_elem_of_fmap. eauto.
Qed.

Lemma dfs_canal_by_channel : canal_by_channel dfs.
Proof.
  intros x y (m & _ & Hm & _)%dfs_row_message (m' & _ & Hm' & _)%dfs_row_message.
  unfold d_channel. rewrite Hm, Hm'. simpl. by intros ->.
Qed.

(** An operator row of the table stands for messages that carry an author
    who is an internal partner. *)
Lemma dfs_operador_author (x : drow * Z) :
  x ∈ dfs → es_operador (d_row x.1) = true →
  ∃ m p, m ∈ msgs ∧ m_author_id m = Some (p, autor (d_row x.1))
         ∧ autor_partner_id (d_row x.1) = Some p
         ∧ p ∈ internal_partner_ids
         ∧ m_res_id m = d_channel x.1.
Proof.
  intros (m & Hm & Hrow & _)%dfs_row_message. unfold d_channel.
  rewrite Hrow. simpl. destruct (m_author_id m) as [[p n]|] eqn:Ha; [|done].
  simpl. intros Hp%bool_decide_eq_true. exists m, p. by rewrite Ha.
Qed.

Lemma dfs_authorless_not_operador (x : drow * Z) :
  x ∈ dfs → autor_partner_id (d_row x.1) = None →
  es_operador (d_row x.1) = false.
Proof.
  intros (m & _ & -> & _)%dfs_row_message. simpl.
  by destruct (m_author_id m).
Qed.

End Pipeline.

Lemma elem_of_ops_per_sess (dfs : list (drow * Z)) (o : op_row) :
  o ∈ ops_per_sess dfs ↔
  ∃ x, x ∈ dfs ∧ es_operador (d_row x.1) = true
       ∧ op_key x = Some (o_channel_id o, o_session_id o, o_partner_id o, o_autor o)
       ∧ o_msgs_oper o =
           Z.of_nat (length (filter (λ y, op_key y = op_key x)
             (filter (λ y, es_operador (d_row y.1) = true) dfs))).
Proof.
  unfold ops_per_sess. rewrite list_elem_of_fmap. split.
  - intros ([[[c s] p] n] & -> & Hk).
    rewrite elem_of_sort_by, elem_of_remove_dups, list_elem_of_omap in Hk.
    destruct Hk as (x & [Hop Hx]%list_elem_of_filter & Hkx).
    exists x. simpl. rewrite Hkx. done.
  - intros (x & Hx & Hop & Hk & Hn).
    exists (o_channel_id o, o_session_id o, o_partner_id o, o_autor o).
    split.
    + destruct o. simpl in *. rewrite Hn, Hk. done.
    + rewrite elem_of_sort_by, elem_of_remove_dups, list_elem_of_omap.
      exists x. by rewrite list_elem_of_filter.
Qed.

(** Each operator row counts one message at least. *)
Lemma ops_per_sess_msgs_pos (dfs : list (drow * Z)) (o : op_row) :
  o ∈ ops_per_sess dfs → 0 < o_msgs_oper o.
Proof.
  intros (x & Hx & Hop & _ & ->)%elem_of_ops_per_sess.
  assert (x ∈ filter (λ y, op_key y = op_key x)
            (filter (λ y, es_operador (d_row y.1) = true) dfs)) as Hin.
  { by rewrite !list_elem_of_filter. }
  destruct (filter _ _); [by apply elem_of_nil in Hin | simpl; lia].
Qed.

Lemma NoDup_ops_per_sess_keys (dfs : list (drow * Z)) :
  NoDup (op_row_key <$> ops_per_sess dfs).
Proof.
  unfold ops_per_sess. rewrite <- list_fmap_compose.
  erewrite list_fmap_ext; [rewrite list_fmap_id|].
  - apply NoDup_sort_by, NoDup_remove_dups.
  - intros _ [[[c s] p] n] _. done.
Qed.

(** ** The left join *)

Lemma elem_of_merge (ops_per_sess : list op_row) (sessions : list session)
    (r : ops_row) :
  r ∈ merge ops_per_sess sessions ↔
  o_op r ∈ ops_per_sess
  ∧ match o_session r with
    | Some s => s ∈ sessions ∧ session_of_op (o_op r) s
    | None => ∀ s, s ∈ sessions → ¬ session_of_op (o_op r) s
    end.
Proof.
  unfold merge. rewrite list_elem_of_bind. split.
  - intros (o & Hr & Ho).
    destruct (filter _ sessions) as [|s0 ss] eqn:Hf.
    + apply list_elem_of_singleton in Hr as ->. simpl. split; [done |].
      intros s Hs Hk.
      assert (s ∈ filter (λ s, s_channel_id s = o_channel_id o
                               ∧ s_session_id s = o_session_id o) sessions) as Hin
        by (by apply list_elem_of_filter).
      rewrite Hf in Hin. by apply elem_of_nil in Hin.
    + apply list_elem_of_fmap in Hr as (s & -> & Hs).
      rewrite <- Hf in Hs. simpl.
      apply list_elem_of_filter in Hs as [Hk Hs]. done.
  - intros [Ho Hs]. exists (o_op r). split; [|done].
    destruct r as [o [s|]]; simpl in *.
    + destruct Hs as [Hs Hk].
      assert (s ∈ filter (λ s, s_channel_id s = o_channel_id o
                               ∧ s_session_id s = o_session_id o) sessions) as Hin
        by (by apply list_elem_of_filter).
      destruct (filter _ sessions) as [|s0 ss] eqn:Hf;
        [by apply elem_of_nil in Hin |].
      apply elem_of_cons in Hin as [->|Hin]; [by left | right].
      apply (list_elem_of_fmap_2 (λ s, {| o_op := o; o_session := Some s |})).
      done.
    + destruct (filter _ sessions) as [|s0 ss] eqn:Hf; [by left |].
      exfalso. assert (s0 ∈ filter (λ s, s_channel_id s = o_channel_id o
                               ∧ s_session_id s = o_session_id o) sessions) as Hin
        by (rewrite Hf; by left).
      apply list_elem_of_filter in Hin as [Hk Hin]. by apply (Hs s0).
Qed.

(** Every operator row survives the join. *)
Lemma merge_keeps_ops (ops_per_sess : list op_row) (sessions : list session)
    (o : op_row) :
  o ∈ ops_per_sess → ∃ r, r ∈ merge ops_per_sess sessions ∧ o_op r = o.
Proof.
  intros Ho.
  destruct (filter (session_of_op o) sessions) as [|s ss] eqn:Hf.
  - exists {| o_op := o; o_session := None |}. split; [|done].
    apply elem_of_merge. simpl. split; [done |].
    intros s Hs Hk.
    assert (s ∈ filter (session_of_op o) sessions) as Hin
      by (by apply list_elem_of_filter).
    rewrite Hf in Hin. by apply elem_of_nil in Hin.
  - exists {| o_op := o; o_session := Some s |}. split; [|done].
    apply elem_of_merge. simpl. split; [done |].
    assert (s ∈ filter (session_of_op o) sessions) as Hin
      by (rewrite Hf; by left).
    by apply list_elem_of_filter in Hin as [? ?].
Qed.

(** A session of the summary has an operator row, and the join hands it
    over. *)
Lemma sessions_have_rows (ch_map : gmap Z string)
    (internal_partner_ids : gset Z) (msgs : list message) (T : Z) (s : session) :
  let dfs := with_sessions T
    (sort_values (dropna (build_rows ch_map internal_partner_ids msgs))) in
  s ∈ sessions dfs →
  ∃ r, r ∈ merge (ops_per_sess dfs) (sessions dfs) ∧ o_session r = Some s.
Proof.
  intros dfs Hs. pose proof Hs as (Hall & _ & Hop)%elem_of_sessions.
  apply elem_of_sessions_all in Hall as (x & Hx & Hagg).
  assert (∃ y, y ∈ dfs ∧ session_key y = session_key x
               ∧ es_operador (d_row y.1) = true) as (y & Hy & Hk & Hyop).
  { rewrite Hagg in Hop. unfold agg_session in Hop. simpl in Hop.
    apply count_true_pos, list_elem_of_fmap in Hop as (y & Hyop & Hy).
    apply list_elem_of_filter in Hy as [Hk Hy]. eauto. }
  destruct (dfs_operador_author ch_map internal_partner_ids msgs T
              y Hy Hyop) as (_ & p & _ & _ & Hp & _ & _).
  set (o := {| o_channel_id := d_channel y.1; o_session_id := y.2;
               o_partner_id := p; o_autor := autor (d_row y.1);
               o_msgs_oper :=
                 Z.of_nat (length (filter (λ z, op_key z = op_key y)
                   (filter (λ z, es_operador (d_row z.1) = true) dfs))) |}).
  exists {| o_op := o; o_session := Some s |}. split; [|done].
  apply elem_of_merge. simpl. split; [|split; [done |]].
  - apply elem_of_ops_per_sess. exists y. repeat split; try done.
    unfold op_key. by rewrite Hp.
  - rewrite Hagg. unfold session_of_op, agg_session. simpl.
    unfold session_key in Hk. by injection Hk as _ <- <-.
Qed.

(** ** How the ingestion and the run end *)

Lemma session_tables_nil (ch_map : gmap Z string)
    (internal_partner_ids : gset Z) (msgs : list message) (T : Z) :
  build_rows ch_map internal_partner_ids msgs = [] →
  session_tables ch_map internal_partner_ids msgs T = ([], []).
Proof. intros Hrows. unfold session_tables. by rewrite Hrows. Qed.

Lemma build_rows_no_channel (internal_partner_ids : gset Z)
    (msgs : list message) :
  build_rows ∅ internal_partner_ids msgs = [].
Proof.
  unfold build_rows. induction msgs as [|m msgs IH]; [done |].
  rewrite filter_cons_False; [done |].
  rewrite lookup_empty. by intros [? ?].
Qed.

(** The ingestion raises [KeyError] or returns the two tables. *)
Lemma build_sessions_from_messages_cases (ch_map : gmap Z string)
    (internal_partner_ids : gset Z) (msgs : list message) (T : Z) :
  (build_sessions_from_messages ch_map internal_partner_ids msgs T = KeyError
   ∧ ch_map ≠ ∅ ∧ msgs ≠ []
   ∧ build_rows ch_map internal_partner_ids msgs = [])
  ∨ build_sessions_from_messages ch_map internal_partner_ids msgs T
    = Ok (session_tables ch_map internal_partner_ids msgs T).
Proof.
  unfold build_sessions_from_messages.
  destruct (decide (ch_map = ∅)) as [->|Hch].
  { right. by rewrite session_tables_nil by apply build_rows_no_channel. }
  destruct (decide (msgs = [])) as [->|Hm]; [by right |].
  destruct (decide (build_rows ch_map internal_partner_ids msgs = []));
    [by left | by right].
Qed.

Lemma session_tables_empty (ch_map : gmap Z string)
    (internal_partner_ids : gset Z) (msgs : list message) (T : Z) :
  let out := session_tables ch_map internal_partner_ids msgs T in
  out.1 = [] ∨ out.2 = [] ↔ out.1 = [].
Proof.
  cbv zeta. split; [|by left]. intros [Hs|Hops]; [done |].
  unfold session_tables in *. cbn [fst snd] in *.
  set (dfs := with_sessions T _) in *.
  destruct (sessions dfs) as [|s ss] eqn:Hss; [done |].
  destruct (sessions_have_rows ch_map internal_partner_ids msgs T s)
    as (r & Hr & _).
  { fold dfs. rewrite Hss. by left. }
  fold dfs in Hr. rewrite Hops in Hr. by apply elem_of_nil in Hr.
Qed.

(** [main], by the way the ingestion ends. *)
Lemma main_eq (a : args) (project : Z)
    (ch_map : gmap Z string) (internal_partner_ids : gset Z)
    (partner_to_user user_to_employee : gmap Z (Z * string))
    (msgs : list message) (w : world) :
  let ops := ops_of a ch_map internal_partner_ids msgs in
  main a project ch_map internal_partner_ids partner_to_user user_to_employee
    msgs w
  = match build_sessions_from_messages ch_map internal_partner_ids msgs
            (inactividad a) with
    | Ok _ =>
        if bool_decide ((session_tables ch_map internal_partner_ids msgs
                           (inactividad a)).1 = [])
        then (Ok summary0, w)
        else (_ ← execute_kw server_fields_get;
              process_rows a project partner_to_user user_to_employee ops
                summary0 ops) w
    | Fault => (Fault, w)
    | KeyError => (KeyError, w)
    end.
Proof.
  intros ops. unfold main. unfold mbind at 1, rpc_bind at 1.
  destruct (build_sessions_from_messages_cases ch_map internal_partner_ids
              msgs (inactividad a)) as [(-> & _)| ->]; [done |].
  pose proof (session_tables_empty ch_map internal_partner_ids msgs
                (inactividad a)) as Hempty. cbv zeta in Hempty.
  unfold ops, ops_of.
  destruct (session_tables _ _ _ _) as [sessions ops_per_sess].
  cbn [fst snd] in *.
  destruct (decide (sessions = [])) as [Hs|Hs].
  - by rewrite !bool_decide_eq_true_2 by tauto.
  - by rewrite !bool_decide_eq_false_2 by tauto.
Qed.

(** Without a session there is no time to book. *)
Lemma unit_amount_unmatched (a : args) (project employee : Z)
    (ops : list ops_row) (r : ops_row) :
  o_session r = None →
  unit_amount (line_vals_of a project ops employee r) = 0 # 100.
Proof.
  intros Hs. unfold line_vals_of, horas_asignadas, min_asignados, o_dur_min.
  rewrite Hs. simpl. by destruct (weight (modo_ a) ops r) as [n d].
Qed.

(** C6, amended: a session without a user event or without an operator
    event is left out of the summary of sessions, so every session of the
    summary has both roles and two events at least; the attribution rows,
    however, are the operator rows left-joined with that summary, so every
    operator row stays: a row whose session is in the summary carries it,
    and a row whose session was left out carries no session, the duration
    0, the day asked for and the amount 0.  [main] runs its loop over these
    rows unless the summary is empty, in which case it writes nothing; when
    the ingestion raises [KeyError] there is no summary and [main] ends in
    that error, the server untouched. *)
Theorem summary_filter_left_join (a : args) (ch_map : gmap Z string)
    (internal_partner_ids : gset Z) (msgs : list message) :
  let ops := ops_of a ch_map internal_partner_ids msgs in
  match build_sessions_from_messages ch_map internal_partner_ids msgs
          (inactividad a) with
  | Ok out =>
      Forall (λ s, 0 < msgs_user s ∧ 0 < msgs_oper s ∧ 2 ≤ msgs_total s) out.1
      ∧ Forall (λ o, ∃ r, r ∈ ops ∧ o_op r = o) out.2
      ∧ Forall (λ r,
          o_op r ∈ out.2
          ∧ match o_session r with
            | Some s => s ∈ out.1 ∧ session_of_op (o_op r) s
            | None =>
                (∀ s, s ∈ out.1 → ¬ session_of_op (o_op r) s)
                ∧ o_dur_min r = 0%Q
                ∧ o_date_local (fecha a) r = fecha a
                ∧ ∀ project employee,
                    unit_amount (line_vals_of a project ops employee r)
                    = 0 # 100
            end) ops
      ∧ ∀ project partner_to_user user_to_employee w,
          main a project ch_map internal_partner_ids partner_to_user
            user_to_employee msgs w
          = if bool_decide (out.1 = []) then (Ok summary0, w)
            else (_ ← execute_kw server_fields_get;
                  process_rows a project partner_to_user user_to_employee
                    ops summary0 ops) w
  | KeyError =>
      ∀ project partner_to_user user_to_employee w,
        main a project ch_map internal_partner_ids partner_to_user
          user_to_employee msgs w = (KeyError, w)
  | Fault => False
  end.
Proof.
  intros ops.
  pose proof (main_eq a) as Hmain. cbv zeta in Hmain.
  destruct (build_sessions_from_messages_cases ch_map internal_partner_ids
              msgs (inactividad a)) as [(Hbuild & _)|Hbuild]; rewrite Hbuild.
  { intros project partner_to_user user_to_employee w.
    by rewrite Hmain, Hbuild. }
  split; [|split; [|split]].
  - apply Forall_forall. intros s Hs. unfold session_tables in Hs.
    by eapply sessions_qualifying.
  - apply Forall_forall. intros o Ho. by apply merge_keeps_ops.
  - apply Forall_forall. unfold ops, ops_of, session_tables. cbn [fst snd].
    intros r [Ho Hs]%elem_of_merge. split; [done |].
    destruct (o_session r) as [s|] eqn:Hr; [done |].
    repeat split; [done | by unfold o_dur_min; rewrite Hr
                  | by unfold o_date_local; rewrite Hr |].
    intros project employee. by apply unit_amount_unmatched.
  - intros project partner_to_user user_to_employee w.
    by rewrite Hmain, Hbuild.
Qed.

(** C6, as stated, fails on the day of section 8 of the specification: the
    summary holds the session 0 of channel 1 only, the lone message of Beto
    at 10:20 forms session 1 and is left out of it, and yet the run writes
    a line for that session. *)
Lemma single_event_session_attributed :
  match build_sessions_from_messages Day.ch_map Day.internal_partner_ids
          Day.msgs_spec 45 with
  | Ok out =>
      (λ s, (s_channel_id s, s_session_id s, msgs_total s)) <$> out.1
      = [ (1, 0, 3) ]
  | _ => False
  end
  ∧ (λ l, (name (vals l), unit_amount (vals l)))
      <$> lines (main Day.args0 55 Day.ch_map Day.internal_partner_ids
                   Day.partner_to_user Day.user_to_employee Day.msgs_spec
                   Day.world0).2
    = [ ("WhatsApp Acme (09:00-09:15) - Ana [WA[1/0]@7]"%string, 25 # 100);
        ("WhatsApp nan (0m) - Beto [WA[1/1]@8]"%string, 0 # 100) ].
Proof. split; vm_compute; reflexivity. Qed.

(** ** Messages without an author *)

(** C9: a message without an author becomes a row that is not of an
    operator; a session in which an operator row and an authorless row meet
    is in the summary of sessions (it counts as having a user and an
    operator); and every row that attribution goes over stands for messages
    written by an internal partner, so an authorless message never yields
    one. *)
Theorem authorless_is_user (ch_map : gmap Z string)
    (internal_partner_ids : gset Z) (msgs : list message) (T : Z) :
  let dfs := with_sessions T
    (sort_values (dropna (build_rows ch_map internal_partner_ids msgs))) in
  (∀ m, m_author_id m = None →
        es_operador (mk_row ch_map internal_partner_ids m) = false
        ∧ autor_partner_id (mk_row ch_map internal_partner_ids m) = None)
  ∧ (∀ x y, x ∈ dfs → y ∈ dfs → session_key x = session_key y →
            es_operador (d_row x.1) = true →
            autor_partner_id (d_row y.1) = None →
            ∃ s, s ∈ sessions dfs
                 ∧ s_channel_id s = d_channel x.1 ∧ s_session_id s = x.2)
  ∧ Forall (λ r, ∃ m, m ∈ msgs
                      ∧ m_author_id m
                        = Some (o_partner_id (o_op r), o_autor (o_op r))
                      ∧ o_partner_id (o_op r) ∈ internal_partner_ids
                      ∧ m_res_id m = o_channel_id (o_op r))
      (merge (ops_per_sess dfs) (sessions dfs)).
Proof.
  intros dfs. split; [|split].
  - intros m Hm. unfold mk_row. simpl. by rewrite Hm.
  - intros x y Hx Hy Hk Hop Hnone.
    exists (agg_session (session_key x)
              (filter (λ z, session_key z = session_key x) dfs)).
    split; [|done].
    apply elem_of_sessions. split; [apply elem_of_sessions_all; eauto |].
    unfold agg_session. simpl. rewrite !count_true_pos. split.
    + apply list_elem_of_fmap. exists (es_operador (d_row y.1)). split.
      * by erewrite dfs_authorless_not_operador.
      * apply list_elem_of_fmap. exists y. split; [done |].
        by apply list_elem_of_filter.
    + apply list_elem_of_fmap. exists x. split; [done |].
      by apply list_elem_of_filter.
  - apply Forall_forall. intros r [Ho _]%elem_of_merge.
    apply elem_of_ops_per_sess in Ho as (x & Hx & Hop & Hk & _).
    destruct (dfs_operador_author _ _ _ _ x Hx Hop) as (m & p & Hm & Ha & Hp & Hin & Hc).
    unfold op_key in Hk. rewrite Hp in Hk. simpl in Hk.
    injection Hk as Hk1 Hk2 Hk3 Hk4. exists m.
    rewrite <- Hk1, <- Hk3, <- Hk4. done.
Qed.

(** The theorem on a day of two messages, one of them without an author. *)
Lemma authorless_is_user_witness :
  es_operador (mk_row Day.ch_map Day.internal_partner_ids
                 (Day.msg 1 1 Day.t0 None)) = false
  ∧ ∃ s, s ∈ sessions (with_sessions 45
             (Day.df_of [Day.msg 1 1 Day.t0 None; Day.msg 2 1 (Day.t0 + 60) Day.ana]))
         ∧ s_channel_id s = 1 ∧ s_session_id s = 0.
Proof.
  pose proof (authorless_is_user Day.ch_map Day.internal_partner_ids
    [Day.msg 1 1 Day.t0 None; Day.msg 2 1 (Day.t0 + 60) Day.ana] 45) as (H1 & H2 & _).
  split.
  - apply (H1 (Day.msg 1 1 Day.t0 None)). reflexivity.
  - pose (x := ({| d_row := mk_row Day.ch_map Day.internal_partner_ids
                              (Day.msg 2 1 (Day.t0 + 60) Day.ana);
                   fecha_local := Day.t0 + 60 |}, 0)).
    pose (y := ({| d_row := mk_row Day.ch_map Day.internal_partner_ids
                              (Day.msg 1 1 Day.t0 None);
                   fecha_local := Day.t0 |}, 0)).
    apply (H2 x y).
    + vm_compute. right. left.
    + vm_compute. left.
    + reflexivity.
    + reflexivity.
    + reflexivity.
Defined.

(** ** Weights *)

Lemma Qsum_const {A : Type} (q : Q) (l : list A) :
  (Qsum ((λ _, q) <$> l) == inject_Z (Z.of_nat (length l)) * q)%Q.
Proof.
  induction l as [|x l IH].
  - simpl. ring.
  - cbn [fmap list_fmap Qsum foldr length]. fold (Qsum ((λ _, q) <$> l)).
    rewrite IH, Nat2Z.inj_succ. unfold Z.succ. rewrite inject_Z_plus. ring.
Qed.

Lemma Qsum_div {A : Type} (f : A → Z) (d : Z) (l : list A) :
  d ≠ 0 →
  (Qsum ((λ x, inject_Z (f x) / inject_Z d) <$> l)
   == inject_Z (Zsum (f <$> l)) / inject_Z d)%Q.
Proof.
  intros Hd.
  assert (¬ (inject_Z d == 0)%Q) as Hd'.
  { unfold Qeq. simpl. lia. }
  induction l as [|x l IH].
  - simpl. field. done.
  - cbn [fmap list_fmap Qsum foldr Zsum].
    fold (Qsum ((λ x, inject_Z (f x) / inject_Z d)%Q <$> l)).
    fold (Zsum (f <$> l)).
    rewrite IH, inject_Z_plus. field. done.
Qed.

Lemma same_session_filter (ops : list ops_row) (r r' : ops_row) :
  same_session r r' →
  filter (same_session r') ops = filter (same_session r) ops.
Proof.
  intros [Hc Hs]. apply list_filter_iff. intros x. unfold same_session.
  rewrite Hc, Hs. done.
Qed.

Lemma Zsum_pos (l : list Z) (x : Z) :
  x ∈ l → Forall (λ y, 0 < y) l → 0 < Zsum l.
Proof.
  intros Hx Hall.
  assert (∀ l', Forall (λ y, 0 < y) l' → 0 ≤ Zsum l') as Hnn.
  { induction 1; simpl; lia. }
  induction Hall as [|y l Hy Hall IH]; [by apply elem_of_nil in Hx |].
  simpl. pose proof (Hnn l Hall). lia.
Qed.


Lemma remove_dups_NoDup `{EqDecision A} (l : list A) :
  NoDup l → remove_dups l = l.
Proof.
  induction 1 as [|x l Hx Hnd IH]; simpl; [done |].
  destruct (decide_rel elem_of x l); [done | by rewrite IH].
Qed.

Section Weights.
Context (ops : list ops_row) (r : ops_row).

Let sess := filter (same_session r) ops.

(** Under [full] every row weighs 1. *)
Lemma weight_full : weight full ops r = 1%Q.
Proof. done. Qed.

(** Under [by_msgs] the weights of a session add up to 1 as soon as the
    session counts a message. *)
Lemma weight_by_msgs_sum :
  tot_by_sess ops r ≠ 0 →
  (Qsum (weight by_msgs ops <$> sess) == 1)%Q.
Proof.
  intros Htot.
  assert (weight by_msgs ops <$> sess
          = (λ x, inject_Z (o_msgs_oper (o_op x))
                  / inject_Z (tot_by_sess ops r))%Q <$> sess) as ->.
  { apply list_fmap_ext. intros i x Hx.
    apply list_elem_of_lookup_2, list_elem_of_filter in Hx as [Hx _].
    unfold weight, tot_by_sess. rewrite (same_session_filter _ _ _ Hx).
    unfold replace_0_1. by rewrite decide_False. }
  rewrite Qsum_div by done.
  change (Zsum ((λ x, o_msgs_oper (o_op x)) <$> sess)) with (tot_by_sess ops r).
  generalize (tot_by_sess ops r) Htot. intros t Ht.
  field. unfold Qeq. simpl. lia.
Qed.

(** Under [equal] they add up to 1 when no partner has two rows in the
    session. *)
Lemma weight_equal_sum :
  r ∈ ops →
  NoDup ((λ x, o_partner_id (o_op x)) <$> sess) →
  0 < n_ops ops r
  ∧ n_ops ops r = Z.of_nat (length sess)
  ∧ (Qsum (weight equal ops <$> sess) == 1)%Q.
Proof.
  intros Hr Hnd.
  assert (n_ops ops r = Z.of_nat (length sess)) as Hn.
  { unfold n_ops. fold sess. rewrite (remove_dups_NoDup _ Hnd).
    by rewrite length_fmap. }
  assert (0 < Z.of_nat (length sess)) as Hpos.
  { assert (r ∈ sess) as Hin by (by apply list_elem_of_filter).
    destruct sess; [by apply elem_of_nil in Hin | simpl; lia]. }
  split; [lia |]. split; [done |].
  assert (weight equal ops <$> sess
          = (λ _, 1 / inject_Z (n_ops ops r))%Q <$> sess) as ->.
  { apply list_fmap_ext. intros i x Hx.
    apply list_elem_of_lookup_2, list_elem_of_filter in Hx as [Hx _].
    assert (n_ops ops x = n_ops ops r) as Hnx.
    { unfold n_ops. by rewrite (same_session_filter _ _ _ Hx). }
    unfold weight, replace_0_1. rewrite Hnx.
    rewrite decide_False by lia. done. }
  rewrite Qsum_const, <- Hn.
  generalize (n_ops ops r) Hn Hpos. intros n -> Hn'.
  field. unfold Qeq. simpl. lia.
Qed.

(** A row counts among the operators of its own session. *)
Lemma n_ops_pos : r ∈ ops → 0 < n_ops ops r.
Proof.
  intros Hr. unfold n_ops.
  assert (o_partner_id (o_op r)
          ∈ remove_dups ((λ x, o_partner_id (o_op x)) <$> sess)) as Hin.
  { apply elem_of_remove_dups.
    apply (list_elem_of_fmap_2 (λ x, o_partner_id (o_op x))).
    by apply list_elem_of_filter. }
  fold sess. destruct (remove_dups _); [by apply elem_of_nil in Hin | simpl; lia].
Qed.

End Weights.

(** ** The weights on the rows the program builds *)

Lemma filter_unique_length {A : Type} (P : A → Prop) `{!∀ x, Decision (P x)}
    (l : list A) :
  NoDup l → (∀ x y, x ∈ l → y ∈ l → P x → P y → x = y) →
  (length (filter P l) ≤ 1)%nat.
Proof.
  induction 1 as [|x l Hx Hnd IH]; intros Huniq; [simpl; lia |].
  rewrite filter_cons. destruct (decide (P x)) as [HPx|HPx].
  - assert (filter P l = []) as ->; [|simpl; lia].
    destruct (filter P l) as [|y l'] eqn:Hf; [done |]. exfalso.
    assert (y ∈ filter P l) as [HPy Hy]%list_elem_of_filter
      by (rewrite Hf; by left).
    apply Hx. replace x with y; [done |].
    apply Huniq; [by right | by left | done | done].
  - apply IH. intros y z Hy Hz. apply Huniq; by right.
Qed.

Lemma fmap_filter_comm {A B : Type} (f : A → B) (P : B → Prop) (Q : A → Prop)
    `{!∀ y, Decision (P y)} `{!∀ x, Decision (Q x)} (l : list A) :
  (∀ x, Q x ↔ P (f x)) → f <$> filter Q l = filter P (f <$> l).
Proof.
  intros HPQ. induction l as [|x l IH]; [done |].
  rewrite fmap_cons, !filter_cons.
  destruct (decide (Q x)) as [HQ|HQ], (decide (P (f x))) as [HP|HP];
    rewrite ?fmap_cons, IH; try done; exfalso; by apply HPQ in HQ || apply HQ, HPQ.
Qed.

Lemma NoDup_fmap_eq {A B : Type} (f : A → B) (l : list A) (x y : A) :
  NoDup (f <$> l) → x ∈ l → y ∈ l → f x = f y → x = y.
Proof.
  induction l as [|z l IH]; [by intros _ ?%elem_of_nil |].
  rewrite fmap_cons, NoDup_cons.
  intros [Hz Hnd] [->|Hx]%elem_of_cons [->|Hy]%elem_of_cons Heq; auto.
  - exfalso. apply Hz. rewrite Heq. by apply list_elem_of_fmap_2.
  - exfalso. apply Hz. rewrite <- Heq. by apply list_elem_of_fmap_2.
Qed.

Lemma merge_one_to_one (ops_per_sess : list op_row) (sessions : list session) :
  (∀ o, o ∈ ops_per_sess →
        (length (filter (session_of_op o) sessions) ≤ 1)%nat) →
  o_op <$> merge ops_per_sess sessions = ops_per_sess.
Proof.
  induction ops_per_sess as [|o l IH]; intros Hone; [done |].
  unfold merge in *. cbn [mbind list_bind]. rewrite fmap_app, IH.
  - specialize (Hone o (list_elem_of_here _ _)). unfold session_of_op in Hone.
    destruct (filter _ sessions) as [|s [|s' ss]]; simpl in *; [done | done | lia].
  - intros o' Ho'. apply Hone. by right.
Qed.

Lemma names_consistent_eq (msgs : list message) (m1 m2 : message)
    (p : Z) (n1 n2 : string) :
  names_consistent msgs → m1 ∈ msgs → m2 ∈ msgs →
  m_author_id m1 = Some (p, n1) → m_author_id m2 = Some (p, n2) → n1 = n2.
Proof.
  intros Hall H1 H2 Ha1 Ha2.
  eapply Forall_forall in Hall; [|exact H1].
  eapply Forall_forall in Hall; [|exact H2].
  unfold same_name in Hall. rewrite Ha1, Ha2 in Hall.
  apply bool_decide_eq_true in Hall. by apply Hall.
Qed.

Section PipelineWeights.
Context (a : args) (ch_map : gmap Z string) (internal_partner_ids : gset Z)
  (msgs : list message).

Let dfs := with_sessions (inactividad a)
  (sort_values (dropna (build_rows ch_map internal_partner_ids msgs))).
Let ops := ops_of a ch_map internal_partner_ids msgs.

Lemma ops_of_eq : ops = merge (ops_per_sess dfs) (sessions dfs).
Proof. done. Qed.

Lemma ops_of_one_to_one : o_op <$> ops = ops_per_sess dfs.
Proof.
  rewrite ops_of_eq. apply merge_one_to_one. intros o _.
  apply filter_unique_length.
  - apply NoDup_filter, NoDup_sessions_all.
  - intros s1 s2 [_ H1]%list_elem_of_filter [_ H2]%list_elem_of_filter
      [Hc1 Hs1] [Hc2 Hs2].
    eapply sessions_all_key_unique; [apply dfs_canal_by_channel | done.. | |];
      congruence.
Qed.

Lemma NoDup_ops_per_sess : NoDup (ops_per_sess dfs).
Proof. eapply NoDup_fmap_1, NoDup_ops_per_sess_keys. Qed.

Lemma ops_per_sess_name (o1 o2 : op_row) :
  names_consistent msgs →
  o1 ∈ ops_per_sess dfs → o2 ∈ ops_per_sess dfs →
  o_partner_id o1 = o_partner_id o2 → o_autor o1 = o_autor o2.
Proof.
  intros Hcons H1 H2 Hp.
  assert (∀ o, o ∈ ops_per_sess dfs →
    ∃ m, m ∈ msgs ∧ m_author_id m = Some (o_partner_id o, o_autor o)) as Hmsg.
  { intros o (x & Hx & Hop & Hk & _)%elem_of_ops_per_sess.
    destruct (dfs_operador_author _ _ _ _ x Hx Hop)
      as (m & p & Hm & Ha & Hpid & _ & _).
    unfold op_key in Hk. rewrite Hpid in Hk. simpl in Hk.
    injection Hk as _ _ Hk3 Hk4. exists m. by rewrite <- Hk3, <- Hk4. }
  destruct (Hmsg o1 H1) as (m1 & Hm1 & Ha1), (Hmsg o2 H2) as (m2 & Hm2 & Ha2).
  rewrite Hp in Ha1.
  exact (names_consistent_eq msgs m1 m2 _ _ _ Hcons Hm1 Hm2 Ha1 Ha2).
Qed.

Lemma ops_session_partners_NoDup (r : ops_row) :
  names_consistent msgs →
  NoDup ((λ x, o_partner_id (o_op x)) <$> filter (same_session r) ops).
Proof.
  intros Hcons.
  set (P := λ o : op_row, o_channel_id (o_op r) = o_channel_id o
                          ∧ o_session_id (o_op r) = o_session_id o).
  assert ((λ x, o_partner_id (o_op x)) <$> filter (same_session r) ops
          = o_partner_id <$> filter P (ops_per_sess dfs)) as ->.
  { rewrite <- ops_of_one_to_one.
    rewrite <- (fmap_filter_comm o_op P (same_session r)) by done.
    by rewrite <- list_fmap_compose. }
  apply NoDup_fmap_2_strong; [|apply NoDup_filter, NoDup_ops_per_sess].
  intros o1 o2 [[Hc1 Hs1] H1]%list_elem_of_filter
    [[Hc2 Hs2] H2]%list_elem_of_filter Hp.
  eapply (NoDup_fmap_eq op_row_key);
    [apply NoDup_ops_per_sess_keys | done | done |].
  unfold op_row_key. rewrite <- Hc1, <- Hc2, <- Hs1, <- Hs2, Hp.
  by rewrite (ops_per_sess_name o1 o2 Hcons H1 H2 Hp).
Qed.

Lemma ops_msgs_pos (r : ops_row) : r ∈ ops → 0 < o_msgs_oper (o_op r).
Proof.
  intros Hr. apply (ops_per_sess_msgs_pos dfs).
  rewrite <- ops_of_one_to_one. by apply list_elem_of_fmap_2.
Qed.

Lemma ops_tot_pos (r : ops_row) : r ∈ ops → 0 < tot_by_sess ops r.
Proof.
  intros Hr. unfold tot_by_sess.
  apply (Zsum_pos _ (o_msgs_oper (o_op r))).
  - apply (list_elem_of_fmap_2 (λ x, o_msgs_oper (o_op x))).
    by apply list_elem_of_filter.
  - apply Forall_fmap, Forall_forall.
    intros x [_ Hx]%list_elem_of_filter. by apply ops_msgs_pos.
Qed.

End PipelineWeights.


(** The second example of section 8: three messages of Ana and one of Beto
    in one session. *)
Example weights_activity :
  let ops := ops_of Day.args0 Day.ch_map Day.internal_partner_ids Day.msgs_activity in
  (λ r, (o_autor (o_op r), weight by_msgs ops r, weight equal ops r)) <$> ops
  = [ ("Ana"%string, 3 # 4, 1 # 2); ("Beto"%string, 1 # 4, 1 # 2) ].
Proof. vm_compute. reflexivity. Qed.



(** ** The upsert *)

Lemma contains_app_r (a s p : string) :
  Str.contains s p = true → Str.contains (a +:+ s) p = true.
Proof.
  intros Hs. induction a as [|c a IH]; [done |].
  simpl. rewrite IH. apply orb_true_r.
Qed.

Lemma ilike_app_r (a s p : string) :
  Str.ilike s p = true → Str.ilike (a +:+ s) p = true.
Proof.
  unfold Str.ilike. rewrite lower_app. apply contains_app_r.
Qed.

(** The name [main] gives a line carries the marker of its signature. *)
Lemma name_of_marker (r : ops_row) :
  Str.ilike (name_of r) ("[" +:+ signature_of r +:+ "]") = true.
Proof.
  unfold name_of. do 6 apply ilike_app_r.
  apply (ilike_app " " ("[" +:+ signature_of r +:+ "]")).
Qed.

Lemma line_vals_of_matches (a : args) (project employee : Z)
    (ops : list ops_row) (r : ops_row) (i : Z) :
  matches (domain_of (line_vals_of a project ops employee r) (signature_of r))
    {| id := i; vals := line_vals_of a project ops employee r |}.
Proof. unfold matches. simpl. split; [apply name_of_marker | done]. Qed.

Lemma execute_kw_ok {A : Type} (method : world → A * world) (w : world) :
  pending w = [] → execute_kw method w = (Ok (method w).1, (method w).2).
Proof. intros Hp. unfold execute_kw. rewrite Hp. by destruct (method w). Qed.

(** What one call of [create_timesheet_if_needed] does when no call
    fails. *)
Lemma create_timesheet_if_needed_ok (lv : line_vals) (signature : string)
    (recreate : bool) (w : world) :
  pending w = [] →
  create_timesheet_if_needed lv signature recreate w =
  match existing_ids lv signature w with
  | [] => (Ok (next_id w, true), with_line lv (lines w) w)
  | e0 :: _ =>
      if recreate then
        (Ok (next_id w, true),
         with_line lv
           (filter (λ l, id l ∉ existing_ids lv signature w) (lines w)) w)
      else (Ok (e0, false), w)
  end.
Proof.
  intros Hp. unfold create_timesheet_if_needed, search.
  unfold mbind, rpc_bind at 1. rewrite execute_kw_ok by done.
  cbn [server_search fst snd]. fold (domain_of lv signature).
  fold (existing_ids lv signature w).
  destruct (existing_ids lv signature w) as [|e0 ex] eqn:Hex.
  - unfold mbind, rpc_bind, mret, rpc_ret. rewrite execute_kw_ok by done. done.
  - destruct recreate; [|done].
    unfold mbind, rpc_bind, mret, rpc_ret.
    rewrite execute_kw_ok by done. cbn [server_unlink fst snd].
    rewrite execute_kw_ok by done. done.
Qed.

Lemma existing_ids_nil (lv : line_vals) (signature : string) (w : world) :
  existing_ids lv signature w = [] ↔
  filter (matches (domain_of lv signature)) (lines w) = [].
Proof.
  unfold existing_ids. split.
  - intros Hnil.
    destruct (filter _ (lines w)) as [|l ls] eqn:Hf; [done |].
    pose proof (sort_by_length Z.leb (id <$> l :: ls)) as Hlen.
    destruct (sort_by Z.leb (id <$> l :: ls)); [done | done].
  - by intros ->.
Qed.

(** The id found is the least id of the matching lines. *)
Lemma existing_ids_head (lv : line_vals) (signature : string) (w : world)
    (e0 : Z) (ex : list Z) :
  existing_ids lv signature w = e0 :: ex →
  ex = []
  ∧ (∃ l, l ∈ lines w ∧ matches (domain_of lv signature) l ∧ id l = e0)
  ∧ ∀ l, l ∈ lines w → matches (domain_of lv signature) l → e0 ≤ id l.
Proof.
  unfold existing_ids.
  set (ids := id <$> filter (matches (domain_of lv signature)) (lines w)).
  intros Hex.
  destruct (sort_by Z.leb ids) as [|x xs] eqn:Hs; [done |].
  simpl in Hex. injection Hex as <- <-. split; [by rewrite take_0 |].
  assert (∀ y, y ∈ ids ↔ y ∈ x :: xs) as Hin.
  { intros y. by rewrite <- Hs, elem_of_sort_by. }
  split.
  - assert (x ∈ ids) as Hx by (apply Hin; by left).
    apply list_elem_of_fmap in Hx as (l & -> & [Hm Hl]%list_elem_of_filter).
    eauto.
  - intros l Hl Hm.
    assert (id l ∈ x :: xs) as [->|Hy]%elem_of_cons.
    { apply Hin, list_elem_of_fmap_2. by apply list_elem_of_filter. }
    + lia.
    + assert (StronglySorted (le_of Z.leb) (x :: xs)) as Hss.
      { rewrite <- Hs. apply Sorted_StronglySorted.
        - intros a b c. unfold le_of. rewrite !Z.leb_le. lia.
        - apply sort_by_Sorted. intros a b. rewrite !Z.leb_le. lia. }
      apply StronglySorted_inv in Hss as [_ Hall].
      eapply Forall_forall in Hall; [|exact Hy].
      unfold le_of in Hall. by apply Z.leb_le in Hall.
Qed.

Lemma filter_not_in_singleton (e0 : Z) (ls : list line) :
  filter (λ l, id l ∉ [e0]) ls = filter (λ l, id l ≠ e0) ls.
Proof. apply list_filter_iff. intros l. by rewrite list_elem_of_singleton. Qed.

Lemma process_row_world (a : args) (project : Z)
    (partner_to_user user_to_employee : gmap Z (Z * string))
    (ops : list ops_row) (acc : summary) (r : ops_row) (e : Z) (w : world) :
  employee_of partner_to_user user_to_employee r = Some e →
  dry_run a = false →
  (process_row a project partner_to_user user_to_employee ops acc r w).2
  = (create_timesheet_if_needed (line_vals_of a project ops e r)
       (signature_of r) (recrear a) w).2.
Proof.
  intros He Hdry. unfold process_row. rewrite He, Hdry.
  unfold mbind, rpc_bind.
  by destruct (create_timesheet_if_needed _ _ _ w) as [[[x c]| |] w'].
Qed.

(** C2: for a row with an employee, outside a dry run and with no failing
    call, the signature is [WA[channel/session]@partner]; the ledger is
    searched for the lines whose name contains [[signature]] and whose
    date, project and employee are those of the record; when none is found
    the record is inserted; when one is found and [recreate] is off nothing
    is written and its id comes back; when one is found and [recreate] is
    on, the line found (the one with the least id) is deleted and the
    record inserted.  The state [process_row] leaves is the one of this
    upsert. *)
Theorem upsert_by_signature (a : args) (project : Z)
    (partner_to_user user_to_employee : gmap Z (Z * string))
    (ops : list ops_row) (acc : summary) (r : ops_row) (e : Z) (w : world) :
  employee_of partner_to_user user_to_employee r = Some e →
  dry_run a = false →
  pending w = [] →
  let signature := signature_of r in
  let lv := line_vals_of a project ops e r in
  let found := filter (matches (domain_of lv signature)) (lines w) in
  signature = "WA[" +:+ pretty (o_channel_id (o_op r)) +:+ "/"
              +:+ pretty (o_session_id (o_op r)) +:+ "]@"
              +:+ pretty (o_partner_id (o_op r))
  ∧ domain_of lv signature
    = {| dom_name_ilike := "[" +:+ signature +:+ "]";
         dom_date := o_date_local (fecha a) r;
         dom_project_id := project;
         dom_employee_id := e |}
  ∧ (process_row a project partner_to_user user_to_employee ops acc r w).2
    = (create_timesheet_if_needed lv signature (recrear a) w).2
  ∧ match found with
    | [] =>
        create_timesheet_if_needed lv signature (recrear a) w
        = (Ok (next_id w, true), with_line lv (lines w) w)
    | _ :: _ =>
        ∃ e0, (∃ l, l ∈ found ∧ id l = e0)
              ∧ (∀ l, l ∈ found → e0 ≤ id l)
              ∧ create_timesheet_if_needed lv signature (recrear a) w
                = if recrear a then
                    (Ok (next_id w, true),
                     with_line lv (filter (λ l, id l ≠ e0) (lines w)) w)
                  else (Ok (e0, false), w)
    end.
Proof.
  intros He Hdry Hp signature lv found.
  split; [done |]. split; [done |].
  split; [by apply process_row_world |].
  rewrite create_timesheet_if_needed_ok by done.
  destruct (existing_ids lv signature w) as [|e0 ex] eqn:Hex.
  - apply existing_ids_nil in Hex. unfold found. by rewrite Hex.
  - destruct found as [|l0 ls] eqn:Hfound.
    { exfalso. assert (existing_ids lv signature w = []) as Hnil
        by (by apply existing_ids_nil).
      congruence. }
    rewrite <- Hfound.
    destruct (existing_ids_head _ _ _ _ _ Hex) as (-> & (l & Hl & Hm & Hid) & Hmin).
    exists e0. split; [|split].
    + exists l. split; [|done]. by apply list_elem_of_filter.
    + intros l' [Hm' Hl']%list_elem_of_filter. by apply Hmin.
    + by rewrite filter_not_in_singleton.
Qed.

Lemma upsert_by_signature_witness :
  signature_of Day.row_beto = "WA[1/1]@8"%string
  ∧ create_timesheet_if_needed
      (line_vals_of Day.args0 55 [Day.row_beto] 800 Day.row_beto) "WA[1/1]@8" false
      Day.world0
    = (Ok (1, true),
       with_line (line_vals_of Day.args0 55 [Day.row_beto] 800 Day.row_beto) [] Day.world0).
Proof.
  pose proof (upsert_by_signature Day.args0 55 Day.partner_to_user
    Day.user_to_employee [Day.row_beto] summary0 Day.row_beto 800 Day.world0
    eq_refl eq_refl eq_refl) as (H1 & _ & _ & H2).
  split; [exact H1 | exact H2].
Defined.

(** ** Recreate with duplicates *)

Lemma filter_all {A : Type} (P : A → Prop) `{!∀ x, Decision (P x)} (l : list A) :
  Forall P l → filter P l = l.
Proof.
  induction 1 as [|x l Hx Hall IH]; [done |].
  by rewrite filter_cons_True, IH.
Qed.

Lemma filter_other_ids_length (ls : list line) (l : line) :
  NoDup (id <$> ls) → l ∈ ls →
  length (filter (λ x, id x ≠ id l) ls) = (length ls - 1)%nat.
Proof.
  induction ls as [|x ls IH]; [by intros _ ?%elem_of_nil |].
  rewrite fmap_cons, NoDup_cons. intros [Hx Hnd] [->|Hl]%elem_of_cons.
  - rewrite filter_cons_False by (intros ?; done).
    rewrite filter_all; [simpl; lia |].
    apply Forall_forall. intros y Hy Heq. apply Hx. rewrite <- Heq.
    by apply list_elem_of_fmap_2.
  - rewrite filter_cons_True.
    + cbn [length]. rewrite IH by done.
      destruct ls; [by apply elem_of_nil in Hl | simpl; lia].
    + intros Heq. apply Hx. rewrite Heq. by apply list_elem_of_fmap_2.
Qed.

Lemma NoDup_fmap_filter {A B : Type} (f : A → B) (P : A → Prop)
    `{!∀ x, Decision (P x)} (l : list A) :
  NoDup (f <$> l) → NoDup (f <$> filter P l).
Proof.
  induction l as [|x l IH]; [done |].
  rewrite fmap_cons, NoDup_cons. intros [Hx Hnd].
  rewrite filter_cons. destruct (decide (P x)); [|by apply IH].
  rewrite fmap_cons, NoDup_cons. split; [|by apply IH].
  intros (y & Hy & [_ Hin]%list_elem_of_filter)%list_elem_of_fmap.
  apply Hx. rewrite Hy. by apply list_elem_of_fmap_2.
Qed.

(** C10: with [recreate] on, distinct ids in the ledger and two or more
    lines matching the signature, date, project and employee, the upsert
    deletes one line, one of the matching ones, and inserts the record;
    every other line, the other matching ones included, stays as it was. *)
Theorem recreate_deletes_one (lv : line_vals) (signature : string) (w : world) :
  pending w = [] →
  NoDup (id <$> lines w) →
  let found := filter (matches (domain_of lv signature)) (lines w) in
  (2 ≤ length found)%nat →
  ∃ e0 kept,
    create_timesheet_if_needed lv signature true w
    = (Ok (next_id w, true), with_line lv kept w)
    ∧ kept = filter (λ l, id l ≠ e0) (lines w)
    ∧ (∃ l, l ∈ found ∧ id l = e0)
    ∧ length kept = (length (lines w) - 1)%nat
    ∧ length (filter (matches (domain_of lv signature)) kept)
      = (length found - 1)%nat
    ∧ ∀ l, l ∈ lines w → id l ≠ e0 → l ∈ lines (with_line lv kept w).
Proof.
  intros Hp Hnd found Hlen.
  rewrite create_timesheet_if_needed_ok by done.
  destruct (existing_ids lv signature w) as [|e0 ex] eqn:Hex.
  { apply existing_ids_nil in Hex. unfold found in Hlen.
    rewrite Hex in Hlen. simpl in Hlen. lia. }
  destruct (existing_ids_head _ _ _ _ _ Hex) as (-> & (l & Hl & Hm & Hid) & _).
  exists e0, (filter (λ l, id l ≠ e0) (lines w)).
  rewrite filter_not_in_singleton. split; [done |]. split; [done |].
  assert (l ∈ found) as Hlf by (by apply list_elem_of_filter).
  split; [eauto |]. subst e0. split; [|split].
  - by apply filter_other_ids_length.
  - assert (filter (matches (domain_of lv signature))
              (filter (λ x, id x ≠ id l) (lines w))
            = filter (λ x, id x ≠ id l) found) as ->.
    { unfold found. rewrite !list_filter_filter.
      apply list_filter_iff. intros x. tauto. }
    apply filter_other_ids_length; [|done].
    by apply NoDup_fmap_filter.
  - intros l' Hl' Hne. simpl. apply elem_of_app. left.
    by apply list_elem_of_filter.
Qed.

Lemma recreate_deletes_one_witness :
  ∃ e0 kept,
    create_timesheet_if_needed (vals (Day.line_beto 3)) "WA[1/1]@8" true
      Day.world_duplicates
    = (Ok (6, true), with_line (vals (Day.line_beto 3)) kept Day.world_duplicates)
    ∧ kept = filter (λ l, id l ≠ e0) [ Day.line_beto 3; Day.line_beto 5 ]
    ∧ length kept = 1%nat.
Proof.
  destruct (recreate_deletes_one (vals (Day.line_beto 3)) "WA[1/1]@8"
              Day.world_duplicates) as (e0 & kept & H1 & H2 & _ & H3 & _).
  - reflexivity.
  - apply (bool_decide_unpack _). vm_compute. exact I.
  - vm_compute. lia.
  - exists e0, kept. split; [exact H1 |]. split; [exact H2 | exact H3].
Defined.

(** On that ledger the line 3 goes, the line 5 stays and the new line gets
    the id 6. *)
Example recreate_on_duplicates :
  id <$> lines (create_timesheet_if_needed (vals (Day.line_beto 3)) "WA[1/1]@8"
                  true Day.world_duplicates).2 = [5; 6].
Proof. vm_compute. reflexivity. Qed.

(** ** Running twice *)

Section TwoRuns.
Context (a : args) (project : Z)
  (partner_to_user user_to_employee : gmap Z (Z * string))
  (ops : list ops_row).

Let cov := covered a project partner_to_user user_to_employee ops.

Lemma covered_mono (w w' : world) (r : ops_row) (extra : list line) :
  lines w' = lines w ++ extra → cov w r → cov w' r.
Proof.
  unfold cov, covered. intros Hl.
  destruct (employee_of partner_to_user user_to_employee r); [|done].
  intros (l & Hin & Hm). exists l. rewrite Hl, elem_of_app. auto.
Qed.

(** With [recreate] off a found record is left alone. *)
Lemma create_timesheet_if_needed_found (lv : line_vals) (signature : string)
    (w : world) :
  pending w = [] →
  (∃ l, l ∈ lines w ∧ matches (domain_of lv signature) l) →
  ∃ e0, create_timesheet_if_needed lv signature false w = (Ok (e0, false), w)
        ∧ ∃ l, l ∈ lines w ∧ matches (domain_of lv signature) l ∧ id l = e0.
Proof.
  intros Hp (l & Hl & Hm).
  rewrite create_timesheet_if_needed_ok by done.
  destruct (existing_ids lv signature w) as [|e0 ex] eqn:Hex.
  - apply existing_ids_nil in Hex.
    assert (l ∈ filter (matches (domain_of lv signature)) (lines w)) as Hin
      by (by apply list_elem_of_filter).
    rewrite Hex in Hin. by apply elem_of_nil in Hin.
  - exists e0. split; [done |].
    by destruct (existing_ids_head _ _ _ _ _ Hex) as (_ & Hfound & _).
Qed.

Lemma process_row_first_run (acc : summary) (r : ops_row) (w : world) :
  recrear a = false → pending w = [] →
  ∃ acc' w' extra,
    process_row a project partner_to_user user_to_employee ops acc r w
    = (Ok acc', w')
    ∧ pending w' = [] ∧ lines w' = lines w ++ extra
    ∧ (dry_run a = false → cov w' r).
Proof.
  intros Hrec Hp. unfold process_row, cov, covered.
  destruct (employee_of partner_to_user user_to_employee r) as [e|].
  2: { eexists _, w, []. by rewrite app_nil_r. }
  destruct (dry_run a).
  { eexists _, w, []. by rewrite app_nil_r. }
  unfold mbind, rpc_bind. rewrite Hrec.
  rewrite create_timesheet_if_needed_ok by done.
  destruct (existing_ids _ _ w) as [|e0 ex] eqn:Hex.
  - eexists _, _, [ _ ]. split; [done |]. split; [done |]. split; [done |].
    intros _. eexists. split; [|apply line_vals_of_matches].
    simpl. apply elem_of_app. right. by left.
  - eexists _, w, []. rewrite app_nil_r. split; [done |].
    split; [done |]. split; [done |]. intros _.
    destruct (existing_ids_head _ _ _ _ _ Hex) as (_ & (l & Hl & Hm & _) & _).
    eauto.
Qed.

Lemma process_rows_first_run (rows : list ops_row) (acc : summary) (w : world) :
  recrear a = false → pending w = [] →
  ∃ acc' w' extra,
    process_rows a project partner_to_user user_to_employee ops acc rows w
    = (Ok acc', w')
    ∧ pending w' = [] ∧ lines w' = lines w ++ extra
    ∧ (dry_run a = false → Forall (cov w') rows).
Proof.
  intros Hrec. revert acc w. induction rows as [|r rows IH]; intros acc w Hp.
  - exists acc, w, []. by rewrite app_nil_r.
  - destruct (process_row_first_run acc r w Hrec Hp)
      as (acc1 & w1 & ex1 & Hrow & Hp1 & Hl1 & Hc1).
    destruct (IH acc1 w1 Hp1) as (acc2 & w2 & ex2 & Hrows & Hp2 & Hl2 & Hc2).
    exists acc2, w2, (ex1 ++ ex2). cbn [process_rows].
    unfold mbind, rpc_bind at 1. rewrite Hrow.
    split; [done |]. split; [done |].
    split; [by rewrite Hl2, Hl1, app_assoc |].
    intros Hdry. constructor; [|by apply Hc2].
    eapply covered_mono; [exact Hl2 | by apply Hc1].
Qed.

Lemma process_row_second_run (acc : summary) (r : ops_row) (w : world) :
  recrear a = false → pending w = [] →
  (dry_run a = false → cov w r) →
  ∃ acc',
    process_row a project partner_to_user user_to_employee ops acc r w
    = (Ok acc', w)
    ∧ creados acc' = creados acc.
Proof.
  intros Hrec Hp Hcov. unfold process_row, cov, covered in *.
  destruct (employee_of partner_to_user user_to_employee r) as [e|];
    [|by eexists].
  destruct (dry_run a); [by eexists |].
  destruct (create_timesheet_if_needed_found _ _ w Hp (Hcov eq_refl))
    as (e0 & Hfound & _).
  unfold mbind, rpc_bind. rewrite Hrec, Hfound. by eexists.
Qed.

Lemma process_rows_second_run (rows : list ops_row) (acc : summary) (w : world) :
  recrear a = false → pending w = [] →
  (dry_run a = false → Forall (cov w) rows) →
  ∃ acc',
    process_rows a project partner_to_user user_to_employee ops acc rows w
    = (Ok acc', w)
    ∧ creados acc' = creados acc.
Proof.
  intros Hrec Hp. revert acc. induction rows as [|r rows IH]; intros acc Hcov.
  - by exists acc.
  - destruct (process_row_second_run acc r w Hrec Hp) as (acc1 & Hrow & Hc1).
    { intros Hdry. specialize (Hcov Hdry). by apply Forall_cons in Hcov as [? _]. }
    destruct (IH acc1) as (acc2 & Hrows & Hc2).
    { intros Hdry. specialize (Hcov Hdry). by apply Forall_cons in Hcov as [_ ?]. }
    exists acc2. cbn [process_rows]. unfold mbind, rpc_bind at 1.
    rewrite Hrow. split; [done | congruence].
Qed.

End TwoRuns.

(** With no refused call a run that gets through the ingestion is the loop
    over the rows: the call of [fields_get] is answered, and empty tables
    leave no row to go over. *)
Lemma main_rows_processed (a : args) (project : Z)
    (ch_map : gmap Z string) (internal_partner_ids : gset Z)
    (partner_to_user user_to_employee : gmap Z (Z * string))
    (msgs : list message) (w : world) :
  build_sessions_from_messages ch_map internal_partner_ids msgs (inactividad a)
  ≠ KeyError →
  pending w = [] →
  main a project ch_map internal_partner_ids partner_to_user user_to_employee
    msgs w
  = process_rows a project partner_to_user user_to_employee
      (ops_of a ch_map internal_partner_ids msgs) summary0
      (rows_processed a ch_map internal_partner_ids msgs) w.
Proof.
  intros Hok Hp. rewrite main_eq. unfold rows_processed.
  destruct (build_sessions_from_messages_cases ch_map internal_partner_ids
              msgs (inactividad a)) as [(Hk & _)| ->]; [done |].
  case_bool_decide; [done |].
  unfold mbind, rpc_bind. by rewrite execute_kw_ok by done.
Qed.

Lemma main_KeyError (a : args) (project : Z)
    (ch_map : gmap Z string) (internal_partner_ids : gset Z)
    (partner_to_user user_to_employee : gmap Z (Z * string))
    (msgs : list message) (w : world) :
  build_sessions_from_messages ch_map internal_partner_ids msgs (inactividad a)
  = KeyError →
  main a project ch_map internal_partner_ids partner_to_user user_to_employee
    msgs w = (KeyError, w).
Proof. intros Hk. by rewrite main_eq, Hk. Qed.

(** C1: with [recreate] off and no failing call, a second run of the
    program on the same messages, from the ledger the first run left,
    writes nothing: it ends in the very same ledger and counts no created
    line; when the ingestion raises [KeyError], a run ends in that error
    and writes nothing either.  Record by record: when a line of the ledger
    matches the signature, date, project and employee of a record,
    [create_timesheet_if_needed] changes nothing and returns the id of a
    matching line with [created = False]. *)
Theorem second_run_writes_nothing (a : args) (project : Z)
    (ch_map : gmap Z string) (internal_partner_ids : gset Z)
    (partner_to_user user_to_employee : gmap Z (Z * string))
    (msgs : list message) (w : world) :
  recrear a = false → pending w = [] →
  match build_sessions_from_messages ch_map internal_partner_ids msgs
          (inactividad a) with
  | Ok _ =>
      ∃ s1 w1 s2,
        main a project ch_map internal_partner_ids partner_to_user
          user_to_employee msgs w = (Ok s1, w1)
        ∧ main a project ch_map internal_partner_ids partner_to_user
            user_to_employee msgs w1 = (Ok s2, w1)
        ∧ creados s2 = 0
  | KeyError =>
      main a project ch_map internal_partner_ids partner_to_user
        user_to_employee msgs w = (KeyError, w)
  | Fault => False
  end
  ∧ ∀ lv signature w',
      pending w' = [] →
      (∃ l, l ∈ lines w' ∧ matches (domain_of lv signature) l) →
      ∃ e0, create_timesheet_if_needed lv signature false w' = (Ok (e0, false), w')
            ∧ ∃ l, l ∈ lines w' ∧ matches (domain_of lv signature) l ∧ id l = e0.
Proof.
  intros Hrec Hp. split; [|intros lv signature w'; apply create_timesheet_if_needed_found].
  destruct (build_sessions_from_messages_cases ch_map internal_partner_ids
              msgs (inactividad a)) as [(Hk & _)|Hok].
  { rewrite Hk. by apply main_KeyError. }
  rewrite Hok.
  assert (build_sessions_from_messages ch_map internal_partner_ids msgs
            (inactividad a) ≠ KeyError) as Hne by (by rewrite Hok).
  set (ops := ops_of a ch_map internal_partner_ids msgs).
  set (rows := rows_processed a ch_map internal_partner_ids msgs).
  destruct (process_rows_first_run a project partner_to_user user_to_employee
              ops rows summary0 w Hrec Hp)
    as (s1 & w1 & extra & Hrun1 & Hp1 & _ & Hcov).
  destruct (process_rows_second_run a project partner_to_user user_to_employee
              ops rows summary0 w1 Hrec Hp1 Hcov) as (s2 & Hrun2 & Hc).
  exists s1, w1, s2. rewrite !main_rows_processed by done. done.
Qed.

Lemma second_run_writes_nothing_witness :
  ∃ s1 w1 s2,
    main Day.args0 55 Day.ch_map Day.internal_partner_ids Day.partner_to_user
      Day.user_to_employee Day.msgs_spec Day.world0 = (Ok s1, w1)
    ∧ main Day.args0 55 Day.ch_map Day.internal_partner_ids Day.partner_to_user
        Day.user_to_employee Day.msgs_spec w1 = (Ok s2, w1)
    ∧ creados s2 = 0.
Proof.
  exact (proj1 (second_run_writes_nothing Day.args0 55 Day.ch_map
    Day.internal_partner_ids Day.partner_to_user Day.user_to_employee
    Day.msgs_spec Day.world0 eq_refl eq_refl)).
Defined.

(** A day whose messages all lie in a channel that is not of WhatsApp: the
    run ends in [KeyError], the ledger as it was. *)
Example run_without_rows :
  main Day.args0 55 Day.ch_map Day.internal_partner_ids Day.partner_to_user
    Day.user_to_employee [ Day.msg 1 3 Day.t0 Day.cliente ] Day.world0
  = (KeyError, Day.world0).
Proof. vm_compute. reflexivity. Qed.

(** The two runs on the day of section 8: two lines created, then none. *)
Example two_runs_counts :
  let run := main Day.args0 55 Day.ch_map Day.internal_partner_ids
               Day.partner_to_user Day.user_to_employee Day.msgs_spec in
  match run Day.world0 with
  | (Ok s1, w1) =>
      match run w1 with
      | (Ok s2, w2) =>
          creados s1 = 2 ∧ creados s2 = 0 ∧ ya_existian s2 = 2 ∧ w2 = w1
      | _ => False
      end
  | _ => False
  end.
Proof. vm_compute. done. Qed.

(** ** A failing call *)

Lemma set_pending_self (w : world) : set_pending (pending w) w = w.
Proof. by destruct w. Qed.

Lemma execute_kw_cases {A : Type} (method : world → A * world) (w : world) :
  ∃ p, execute_kw method w = (Fault, set_pending p w)
       ∨ execute_kw method w
         = (Ok (method (set_pending p w)).1, (method (set_pending p w)).2).
Proof.
  unfold execute_kw. destruct (pending w) as [|[] p] eqn:Hp.
  - exists []. right. rewrite <- Hp, set_pending_self. by destruct (method w).
  - exists p. by left.
  - exists p. right. unfold set_pending. by destruct (method _).
Qed.

Lemma execute_kw_fault {A : Type} (method : world → A * world) (w : world)
    (p : list bool) :
  pending w = true :: p →
  execute_kw method w
  = (Fault, {| lines := lines w; next_id := next_id w; pending := p |}).
Proof. intros Hp. unfold execute_kw. by rewrite Hp. Qed.

(** A refused call ends [create_timesheet_if_needed] in the fault: the
    search, the insert of a record not found, and the delete of a record
    found under [recreate]; the refused call writes nothing. *)
Lemma search_refused (lv : line_vals) (signature : string) (recreate : bool)
    (w : world) (p : list bool) :
  pending w = true :: p →
  create_timesheet_if_needed lv signature recreate w
  = (Fault, {| lines := lines w; next_id := next_id w; pending := p |}).
Proof.
  intros Hp. unfold create_timesheet_if_needed, search.
  unfold mbind, rpc_bind at 1. by rewrite (execute_kw_fault _ _ p).
Qed.

Lemma insert_refused (lv : line_vals) (signature : string) (recreate : bool)
    (w : world) (p : list bool) :
  pending w = false :: true :: p →
  existing_ids lv signature w = [] →
  create_timesheet_if_needed lv signature recreate w
  = (Fault, {| lines := lines w; next_id := next_id w; pending := p |}).
Proof.
  intros Hp Hex. unfold create_timesheet_if_needed, search.
  unfold mbind, rpc_bind at 1. unfold execute_kw at 1. rewrite Hp.
  cbn [server_search lines]. fold (domain_of lv signature).
  unfold existing_ids in Hex. rewrite Hex.
  unfold mbind, rpc_bind. by rewrite (execute_kw_fault _ _ p).
Qed.

Lemma delete_refused (lv : line_vals) (signature : string)
    (w : world) (p : list bool) :
  pending w = false :: true :: p →
  existing_ids lv signature w ≠ [] →
  create_timesheet_if_needed lv signature true w
  = (Fault, {| lines := lines w; next_id := next_id w; pending := p |}).
Proof.
  intros Hp Hex. unfold create_timesheet_if_needed, search.
  unfold mbind, rpc_bind at 1. unfold execute_kw at 1. rewrite Hp.
  cbn [server_search lines]. fold (domain_of lv signature).
  unfold existing_ids in Hex.
  destruct (take 1 _) as [|e0 ex]; [done |].
  unfold mbind, rpc_bind. by rewrite (execute_kw_fault _ _ p).
Qed.

Lemma process_rows_cons (a : args) (project : Z)
    (partner_to_user user_to_employee : gmap Z (Z * string))
    (ops : list ops_row) (r : ops_row) (rows : list ops_row) (acc : summary)
    (w : world) :
  process_rows a project partner_to_user user_to_employee ops acc (r :: rows) w
  = match process_row a project partner_to_user user_to_employee ops acc r w with
    | (Ok acc', w') =>
        process_rows a project partner_to_user user_to_employee ops acc' rows w'
    | (Fault, w') => (Fault, w')
    | (KeyError, w') => (KeyError, w')
    end.
Proof. done. Qed.

Lemma process_rows_app (a : args) (project : Z)
    (partner_to_user user_to_employee : gmap Z (Z * string))
    (ops : list ops_row) (rows1 rows2 : list ops_row) (acc acc1 : summary)
    (w w1 : world) :
  process_rows a project partner_to_user user_to_employee ops acc rows1 w
  = (Ok acc1, w1) →
  process_rows a project partner_to_user user_to_employee ops acc
    (rows1 ++ rows2) w
  = process_rows a project partner_to_user user_to_employee ops acc1 rows2 w1.
Proof.
  revert acc w. induction rows1 as [|r rows1 IH]; intros acc w.
  - cbn. by intros [= -> ->].
  - rewrite <- app_comm_cons, !process_rows_cons.
    destruct (process_row _ _ _ _ _ acc r w) as [[acc'| |] w'];
      [apply IH | done | done].
Qed.

(** Under [recreate], a delete accepted and the insert after it refused:
    the line found is gone and no line is written in its place. *)
Lemma recreate_insert_refused (lv : line_vals) (signature : string)
    (w : world) (p : list bool) :
  pending w = false :: false :: true :: p →
  existing_ids lv signature w ≠ [] →
  create_timesheet_if_needed lv signature true w
  = (Fault, set_pending p (server_unlink (existing_ids lv signature w) w).2).
Proof.
  intros Hp Hex. unfold create_timesheet_if_needed, search.
  unfold mbind, rpc_bind at 1. unfold execute_kw at 1. rewrite Hp.
  cbn [server_search lines]. fold (domain_of lv signature).
  unfold existing_ids in *.
  destruct (take 1 _) as [|e0 ex]; [done |].
  unfold mbind, rpc_bind. unfold execute_kw at 1. cbn [pending].
  cbn [server_unlink lines next_id pending].
  by rewrite (execute_kw_fault _ _ p).
Qed.

(** The upsert, call by call. *)
Lemma create_timesheet_if_needed_eq (lv : line_vals) (signature : string)
    (recreate : bool) (w : world) :
  let create w' :=
    match execute_kw (server_create lv) w' with
    | (Ok i, w'') => (Ok (i, true), w'')
    | (Fault, w'') => (Fault, w'')
    | (KeyError, w'') => (KeyError, w'')
    end in
  create_timesheet_if_needed lv signature recreate w
  = match execute_kw (server_search (domain_of lv signature) (Some 1%nat)) w with
    | (Ok [], w') => create w'
    | (Ok (e0 :: ex), w') =>
        if recreate then
          match execute_kw (server_unlink (e0 :: ex)) w' with
          | (Ok _, w'') => create w''
          | (Fault, w'') => (Fault, w'')
          | (KeyError, w'') => (KeyError, w'')
          end
        else (Ok (e0, false), w')
    | (Fault, w') => (Fault, w')
    | (KeyError, w') => (KeyError, w')
    end.
Proof.
  unfold create_timesheet_if_needed, search, domain_of.
  unfold mbind, rpc_bind at 1.
  destruct (execute_kw _ w) as [[[|e0 ex]| |] w']; [done | | done | done].
  destruct recreate; [|done].
  unfold mbind, rpc_bind at 1.
  by destruct (execute_kw _ w') as [[x| |] w''].
Qed.

(** Every way the upsert can end in a fault: a refused call with the
    ledger as it was, or, under [recreate], the insert refused after the
    delete went through. *)
Lemma create_timesheet_if_needed_fault_inv (lv : line_vals)
    (signature : string) (recreate : bool) (w w2 : world) :
  create_timesheet_if_needed lv signature recreate w = (Fault, w2) →
  (∃ p, w2 = set_pending p w)
  ∨ (recreate = true ∧ existing_ids lv signature w ≠ []
     ∧ ∃ p, w2 = set_pending p
                   (server_unlink (existing_ids lv signature w) w).2).
Proof.
  rewrite create_timesheet_if_needed_eq.
  destruct (execute_kw_cases (server_search (domain_of lv signature)
                                (Some 1%nat)) w) as [p [-> | ->]].
  { intros [= <-]. left. by exists p. }
  cbn [server_search fst snd lines set_pending].
  fold (existing_ids lv signature w).
  destruct (existing_ids lv signature w) as [|e0 ex] eqn:Hex.
  - destruct (execute_kw_cases (server_create lv) (set_pending p w))
      as [p' [-> | ->]]; [|done].
    intros [= <-]. left. by exists p'.
  - destruct recreate; [|done].
    destruct (execute_kw_cases (server_unlink (e0 :: ex)) (set_pending p w))
      as [p' [-> | ->]].
    { intros [= <-]. left. by exists p'. }
    cbn [server_unlink fst snd].
    match goal with
    | |- context [execute_kw (server_create lv) ?w0] =>
        destruct (execute_kw_cases (server_create lv) w0) as [p'' [-> | ->]]
    end; [|done].
    intros [= <-]. right. split; [done |]. split; [done |]. by exists p''.
Qed.

(** The calls to the server raise faults only: a [KeyError] comes from
    the ingestion alone. *)
Lemma create_timesheet_if_needed_no_KeyError (lv : line_vals)
    (signature : string) (recreate : bool) (w : world) :
  (create_timesheet_if_needed lv signature recreate w).1 ≠ KeyError.
Proof.
  rewrite create_timesheet_if_needed_eq.
  assert (∀ w0, (match execute_kw (server_create lv) w0 with
                 | (Ok i, w'') => (Ok (i, true), w'')
                 | (Fault, w'') => (Fault, w'')
                 | (KeyError, w'') => (KeyError, w'')
                 end).1 ≠ KeyError) as Hcreate.
  { intros w0.
    by destruct (execute_kw_cases (server_create lv) w0) as [p [-> | ->]]. }
  destruct (execute_kw_cases (server_search (domain_of lv signature)
                                (Some 1%nat)) w) as [p [-> | ->]]; [done |].
  destruct (server_search _ _ _).1 as [|e0 ex]; [apply Hcreate |].
  destruct recreate; [|done].
  match goal with
  | |- context [execute_kw (server_unlink ?ids) ?w0] =>
      destruct (execute_kw_cases (server_unlink ids) w0) as [p' [-> | ->]]
  end; [done | apply Hcreate].
Qed.

Lemma process_row_no_KeyError (a : args) (project : Z)
    (partner_to_user user_to_employee : gmap Z (Z * string))
    (ops : list ops_row) (acc : summary) (r : ops_row) (w : world) :
  (process_row a project partner_to_user user_to_employee ops acc r w).1
  ≠ KeyError.
Proof.
  unfold process_row.
  destruct (employee_of _ _ r) as [e|]; [|done].
  destruct (dry_run a); [done |].
  unfold mbind, rpc_bind.
  pose proof (create_timesheet_if_needed_no_KeyError
                (line_vals_of a project ops e r) (signature_of r) (recrear a) w)
    as Hno.
  by destruct (create_timesheet_if_needed _ _ _ w) as [[[i c]| |] w1].
Qed.

(** A fault of the upsert of a record ends the loop, whatever records
    follow. *)
Lemma process_rows_fault (a : args) (project : Z)
    (partner_to_user user_to_employee : gmap Z (Z * string))
    (ops : list ops_row) (rows1 rows2 : list ops_row) (r : ops_row) (e : Z)
    (acc acc1 : summary) (w w1 w2 : world) :
  employee_of partner_to_user user_to_employee r = Some e →
  dry_run a = false →
  process_rows a project partner_to_user user_to_employee ops acc rows1 w
  = (Ok acc1, w1) →
  create_timesheet_if_needed (line_vals_of a project ops e r) (signature_of r)
    (recrear a) w1 = (Fault, w2) →
  process_rows a project partner_to_user user_to_employee ops acc
    (rows1 ++ r :: rows2) w = (Fault, w2).
Proof.
  intros He Hdry Hrows Hfault.
  rewrite (process_rows_app _ _ _ _ _ _ _ _ _ _ _ Hrows).
  rewrite process_rows_cons.
  unfold process_row. rewrite He, Hdry.
  unfold mbind, rpc_bind. by rewrite Hfault.
Qed.

(** C7, amended: a failure of a ledger call made for a record is not
    caught.  In a run that is not a dry run, let the rows be [rows1], then
    [r], which has an employee, then [rows2]; let the call of [fields_get]
    and the records of [rows1] go through, and let the upsert of [r] end in
    a fault.  Then [main] ends in that fault, with no summary, in the state
    the server has at the refused call, and the records of [rows2] are not
    processed.  That state is the ledger as the records before [r] left it
    or, under [recreate] when the delete went through and the insert was
    refused, that ledger without the line deleted. *)
Theorem fault_aborts_run (a : args) (project : Z)
    (ch_map : gmap Z string) (internal_partner_ids : gset Z)
    (partner_to_user user_to_employee : gmap Z (Z * string))
    (msgs : list message) (rows1 rows2 : list ops_row) (r : ops_row) (e : Z)
    (has_tags : bool) (acc1 : summary) (w0 w w1 w2 : world) :
  let ops := ops_of a ch_map internal_partner_ids msgs in
  let lv := line_vals_of a project ops e r in
  build_sessions_from_messages ch_map internal_partner_ids msgs (inactividad a)
  ≠ KeyError →
  rows_processed a ch_map internal_partner_ids msgs = rows1 ++ r :: rows2 →
  execute_kw server_fields_get w0 = (Ok has_tags, w) →
  employee_of partner_to_user user_to_employee r = Some e →
  dry_run a = false →
  process_rows a project partner_to_user user_to_employee ops summary0 rows1 w
  = (Ok acc1, w1) →
  create_timesheet_if_needed lv (signature_of r) (recrear a) w1 = (Fault, w2) →
  main a project ch_map internal_partner_ids partner_to_user user_to_employee
    msgs w0 = (Fault, w2)
  ∧ ((∃ p, w2 = set_pending p w1)
     ∨ (recrear a = true
        ∧ existing_ids lv (signature_of r) w1 ≠ []
        ∧ ∃ p, w2 = set_pending p
                      (server_unlink (existing_ids lv (signature_of r) w1)
                         w1).2)).
Proof.
  intros ops lv Hok Hrows Hfg He Hdry Hrows1 Hfault. split.
  - rewrite main_eq.
    destruct (build_sessions_from_messages_cases ch_map internal_partner_ids
                msgs (inactividad a)) as [(Hk & _)| ->]; [done |].
    unfold rows_processed in Hrows.
    case_bool_decide; [by destruct rows1 |].
    unfold mbind, rpc_bind. rewrite Hfg.
    pose proof (process_rows_fault a project partner_to_user user_to_employee
                  ops rows1 rows2 r e summary0 acc1 w w1 w2 He Hdry Hrows1
                  Hfault) as Hloop.
    rewrite <- Hrows in Hloop. exact Hloop.
  - by apply create_timesheet_if_needed_fault_inv.
Qed.

(** The day of three records: the server accepts the call of
    [fields_get], the search and the insert of the record of Ana in
    channel 1 and the search of the record of Beto, and refuses his insert:
    the run ends there, with the line of the first record in the ledger,
    and the record of Ana in channel 2 is not processed. *)
Lemma fault_aborts_run_witness :
  let ops := ops_of Day.args0 Day.ch_map Day.internal_partner_ids
               Day.msgs_three_records in
  let w2 := {| lines := [ {| id := 1;
                             vals := line_vals_of Day.args0 55 ops 700
                                       Day.row_acme_ana |} ];
               next_id := 2; pending := [] |} in
  rows_processed Day.args0 Day.ch_map Day.internal_partner_ids
    Day.msgs_three_records
  = [Day.row_acme_ana] ++ Day.row_acme_beto :: [Day.row_bodega_ana]
  ∧ main Day.args0 55 Day.ch_map Day.internal_partner_ids
      Day.partner_to_user Day.user_to_employee Day.msgs_three_records
      {| lines := []; next_id := 1;
         pending := [false; false; false; false; true] |}
    = (Fault, w2).
Proof.
  intros ops w2.
  assert (rows_processed Day.args0 Day.ch_map Day.internal_partner_ids
            Day.msgs_three_records
          = [Day.row_acme_ana] ++ Day.row_acme_beto :: [Day.row_bodega_ana])
    as Hrows by (vm_compute; reflexivity).
  split; [exact Hrows |].
  refine (proj1 (fault_aborts_run Day.args0 55 Day.ch_map
           Day.internal_partner_ids Day.partner_to_user Day.user_to_employee
           Day.msgs_three_records [Day.row_acme_ana] [Day.row_bodega_ana]
           Day.row_acme_beto 800 false
           {| creados := 1; ya_existian := 0; omitidos_sin_empleado := ∅;
              preview_rows :=
                [ (line_vals_of Day.args0 55 ops 700 Day.row_acme_ana,
                   signature_of Day.row_acme_ana) ] |}
           {| lines := []; next_id := 1;
              pending := [false; false; false; false; true] |}
           {| lines := []; next_id := 1;
              pending := [false; false; false; true] |}
           {| lines := [ {| id := 1;
                            vals := line_vals_of Day.args0 55 ops 700
                                      Day.row_acme_ana |} ];
              next_id := 2; pending := [false; true] |}
           w2 _ Hrows _ _ _ _ _)).
  - vm_compute. discriminate.
  - reflexivity.
  - reflexivity.
  - reflexivity.
  - vm_compute. reflexivity.
  - vm_compute. reflexivity.
Defined.

(** The fourth way to fail, on a ledger that holds the line of Beto: under
    [recreate] the server deletes the line and refuses the insert, and the
    ledger is left without it. *)
Example recreate_fault_loses_line :
  create_timesheet_if_needed
    (line_vals_of Day.args0 55 [Day.row_beto] 800 Day.row_beto)
    (signature_of Day.row_beto) true
    {| lines := [Day.line_beto 1]; next_id := 2;
       pending := [false; false; true] |}
  = (Fault, {| lines := []; next_id := 2; pending := [] |}).
Proof. vm_compute. reflexivity. Qed.

(** C7, as stated, fails: on the day of section 8, when the server refuses
    the insert of the first record, the run ends in the fault: no summary
    is returned and the record of Beto, which comes next and for which no
    call would have failed, is never written; without the refusal the same
    day writes two lines. *)
Lemma insert_failure_aborts_run :
  main Day.args0 55 Day.ch_map Day.internal_partner_ids Day.partner_to_user
    Day.user_to_employee Day.msgs_spec Day.world_refusing
  = (Fault, {| lines := []; next_id := 1; pending := [] |})
  ∧ length (lines (main Day.args0 55 Day.ch_map Day.internal_partner_ids
                     Day.partner_to_user Day.user_to_employee Day.msgs_spec
                     Day.world0).2) = 2%nat.
Proof. split; vm_compute; reflexivity. Qed.

(** * Further properties *)

(** ** A run without [recreate] only appends *)






(** ** The counts a run reports *)

Lemma omitidos_total_insert (m : gmap string Z) (k : string) (v : Z) :
  omitidos_total (<[k := v]> m) = omitidos_total m - default 0 (m !! k) + v.
Proof.
  unfold omitidos_total.
  assert (∀ (m' : gmap string Z) j1 j2 z1 z2 y,
    j1 ≠ j2 → m' !! j1 = Some z1 → m' !! j2 = Some z2 →
    z1 + (z2 + y) = z2 + (z1 + y)) as Hcomm by (intros; lia).
  destruct (m !! k) as [old|] eqn:Hk; simpl.
  - rewrite <- insert_delete_eq.
    rewrite (map_fold_insert_L _ _ _ _ _ (Hcomm _)) by apply lookup_delete_eq.
    rewrite (map_fold_delete_L _ _ k old m (Hcomm _) Hk). lia.
  - rewrite (map_fold_insert_L _ _ _ _ _ (Hcomm _) Hk). lia.
Qed.

Lemma plan_of_cons (a : args) (project : Z)
    (partner_to_user user_to_employee : gmap Z (Z * string))
    (ops : list ops_row) (r : ops_row) (rows : list ops_row) :
  plan_of a project partner_to_user user_to_employee ops (r :: rows)
  = match employee_of partner_to_user user_to_employee r with
    | Some e =>
        (line_vals_of a project ops e r, signature_of r)
        :: plan_of a project partner_to_user user_to_employee ops rows
    | None => plan_of a project partner_to_user user_to_employee ops rows
    end.
Proof.
  unfold plan_of. simpl.
  by destruct (employee_of partner_to_user user_to_employee r).
Qed.

Lemma process_rows_counts (a : args) (project : Z)
    (partner_to_user user_to_employee : gmap Z (Z * string))
    (ops rows : list ops_row) (acc s : summary) (w w' : world) :
  process_rows a project partner_to_user user_to_employee ops acc rows w
  = (Ok s, w') →
  let plan := plan_of a project partner_to_user user_to_employee ops rows in
  preview_rows s = preview_rows acc ++ plan
  ∧ omitidos_total (omitidos_sin_empleado s)
    = omitidos_total (omitidos_sin_empleado acc)
      + (Z.of_nat (length rows) - Z.of_nat (length plan))
  ∧ creados acc ≤ creados s ∧ ya_existian acc ≤ ya_existian s
  ∧ (creados s - creados acc) + (ya_existian s - ya_existian acc)
    = if dry_run a then 0 else Z.of_nat (length plan).
Proof.
  revert acc w. induction rows as [|r rows IH]; intros acc w.
  - cbn. intros [= <- <-]. rewrite app_nil_r.
    repeat split; try lia. destruct (dry_run a); simpl; lia.
  - rewrite process_rows_cons.
    destruct (process_row _ _ _ _ _ acc r w) as [[acc1| |] w1] eqn:Hrow;
      [|done | done].
    intros Hrows. destruct (IH acc1 w1 Hrows) as (Hp & Ho & Hc & Hy & Hsum).
    cbn zeta in *. rewrite plan_of_cons.
    unfold process_row in Hrow.
    destruct (employee_of partner_to_user user_to_employee r) as [e|].
    + destruct (dry_run a) eqn:Hdry.
      * injection Hrow as <- <-. simpl in *.
        rewrite Hp, <- app_assoc. cbn [length]. repeat split; try done; lia.
      * unfold mbind, rpc_bind in Hrow.
        destruct (create_timesheet_if_needed _ _ _ w) as [[[i c]| |] w2];
          [|done | done].
        injection Hrow as <- <-. simpl in *.
        rewrite Hp, <- app_assoc. cbn [length].
        repeat split; try done; destruct c; lia.
    + injection Hrow as <- <-. simpl in *.
      rewrite omitidos_total_insert in Ho.
      repeat split; try done; lia.
Qed.

(** A run that ends well is the loop over the rows, from the server as
    the call of [fields_get] left it. *)
Lemma main_Ok_inv (a : args) (project : Z)
    (ch_map : gmap Z string) (internal_partner_ids : gset Z)
    (partner_to_user user_to_employee : gmap Z (Z * string))
    (msgs : list message) (w w' : world) (s : summary) :
  main a project ch_map internal_partner_ids partner_to_user user_to_employee
    msgs w = (Ok s, w') →
  ∃ p, process_rows a project partner_to_user user_to_employee
         (ops_of a ch_map internal_partner_ids msgs) summary0
         (rows_processed a ch_map internal_partner_ids msgs) (set_pending p w)
       = (Ok s, w').
Proof.
  rewrite main_eq. unfold rows_processed.
  destruct (build_sessions_from_messages_cases ch_map internal_partner_ids
              msgs (inactividad a)) as [(-> & _)| ->]; [done |].
  case_bool_decide.
  - intros [= <- <-]. exists (pending w). by rewrite set_pending_self.
  - unfold mbind, rpc_bind.
    destruct (execute_kw_cases server_fields_get w) as [p [-> | ->]]; [done |].
    intros Hrun. by exists p.
Qed.

(** X2: when a run ends well, every row it went over is either planned or
    counted as left out for want of an employee; the planned lines are the
    preview rows; and, outside a dry run, each planned line is counted once,
    as created or as already there. *)
Theorem main_counts (a : args) (project : Z)
    (ch_map : gmap Z string) (internal_partner_ids : gset Z)
    (partner_to_user user_to_employee : gmap Z (Z * string))
    (msgs : list message) (w w' : world) (s : summary) :
  main a project ch_map internal_partner_ids partner_to_user user_to_employee
    msgs w = (Ok s, w') →
  let rows := rows_processed a ch_map internal_partner_ids msgs in
  let ops := ops_of a ch_map internal_partner_ids msgs in
  preview_rows s = plan_of a project partner_to_user user_to_employee ops rows
  ∧ Z.of_nat (length (preview_rows s)) + omitidos_total (omitidos_sin_empleado s)
    = Z.of_nat (length rows)
  ∧ 0 ≤ creados s ∧ 0 ≤ ya_existian s
  ∧ creados s + ya_existian s
    = if dry_run a then 0 else Z.of_nat (length (preview_rows s)).
Proof.
  intros Hrun rows ops. apply main_Ok_inv in Hrun as [p Hrun].
  apply process_rows_counts in Hrun as (Hp & Ho & Hc & Hy & Hsum).
  fold rows ops in Hp, Ho, Hsum. simpl in *. rewrite Hp.
  unfold omitidos_total in Ho at 2. rewrite map_fold_empty in Ho.
  repeat split; try done; try lia.
Qed.

Lemma main_counts_witness :
  ∃ s w',
    main Day.args0 55 Day.ch_map Day.internal_partner_ids Day.partner_to_user
      Day.user_to_employee Day.msgs_spec Day.world0 = (Ok s, w')
    ∧ Z.of_nat (length (preview_rows s))
      + omitidos_total (omitidos_sin_empleado s)
      = Z.of_nat (length (rows_processed Day.args0 Day.ch_map
                            Day.internal_partner_ids Day.msgs_spec))
    ∧ creados s + ya_existian s = Z.of_nat (length (preview_rows s)).
Proof.
  destruct (main Day.args0 55 Day.ch_map Day.internal_partner_ids
              Day.partner_to_user Day.user_to_employee Day.msgs_spec
              Day.world0) as [[s| |] w'] eqn:Hrun.
  - exists s, w'. split; [done |].
    destruct (main_counts _ _ _ _ _ _ _ _ _ _ Hrun) as (_ & H1 & _ & _ & H2).
    split; [exact H1 | exact H2].
  - vm_compute in Hrun. discriminate Hrun.
  - vm_compute in Hrun. discriminate Hrun.
Defined.

(** ** Runs that write nothing *)







(** ** Sessions of a channel lie apart *)

Lemma channel_ids_separated (T : Z) (ts : list Z) :
  ∀ (prev : option Z) (n : Z),
  StronglySorted Z.le ts →
  (∀ p, prev = Some p → Forall (λ t, p ≤ t) ts) →
  Forall (λ x, n ≤ x.2 ∧ ∀ p, prev = Some p → n < x.2 → 60 * T < x.1 - p)
    (zip ts (channel_ids T prev n ts))
  ∧ ∀ x y, x ∈ zip ts (channel_ids T prev n ts) →
           y ∈ zip ts (channel_ids T prev n ts) →
           x.2 < y.2 → 60 * T < y.1 - x.1.
Proof.
  induction ts as [|t ts IH]; intros prev n Hs Hprev.
  - split; [constructor | by intros x y ?%elem_of_nil].
  - apply StronglySorted_inv in Hs as [Hs Hall].
    cbn [channel_ids zip zip_with].
    set (b := match prev with
              | Some p => bool_decide (60 * T < t - p)
              | None => false
              end).
    set (n' := n + (if b then 1 else 0)).
    destruct (IH (Some t) n' Hs) as [Ha Hb].
    { by intros p [= <-]. }
    assert (n ≤ n') as Hnn' by (unfold n'; destruct b; lia).
    assert (∀ p, prev = Some p → n < n' → 60 * T < t - p) as Hbreak.
    { intros p -> Hlt. unfold n', b in Hlt.
      case_bool_decide; [done | lia]. }
    split.
    + constructor.
      * simpl. split; [done |]. intros p Hp Hlt. by apply Hbreak.
      * apply Forall_forall. intros x Hx.
        eapply Forall_forall in Ha as [Hge Hgap]; [|exact Hx].
        assert (x.1 ∈ ts) as Hin by (destruct x; by eapply elem_of_zip_l).
        eapply Forall_forall in Hall; [|exact Hin].
        split; [lia |]. intros p Hp Hlt. specialize (Hprev p Hp).
        apply Forall_cons in Hprev as [Hpt _].
        destruct (decide (n' < x.2)) as [Hlt'|Hge'].
        -- specialize (Hgap t eq_refl Hlt'). lia.
        -- assert (n < n') as Hn by lia. specialize (Hbreak p Hp Hn). lia.
    + intros x y [->|Hx]%elem_of_cons [->|Hy]%elem_of_cons Hlt; simpl in *.
      * lia.
      * eapply Forall_forall in Ha as [_ Hgap]; [|exact Hy].
        by apply (Hgap t).
      * eapply Forall_forall in Ha as [Hge _]; [|exact Hx]. lia.
      * by apply Hb.
Qed.

Lemma elem_of_zip_projections (l : list (drow * Z)) (x : drow * Z) :
  x ∈ l → (fecha_local x.1, x.2) ∈ zip (fecha_local <$> l.*1) (l.*2).
Proof.
  induction l as [|y l IH]; [by intros ?%elem_of_nil |].
  intros [->|Hx]%elem_of_cons; [by left | right; by apply IH].
Qed.

Lemma with_sessions_channel_rows (T c : Z) (df : list drow) :
  (filter (λ x, d_channel x.1 = c) (with_sessions T df)).*1
  = filter (λ r, d_channel r = c) df.
Proof.
  rewrite (fmap_filter_comm fst (λ r, d_channel r = c)
             (λ x : drow * Z, d_channel x.1 = c)) by done.
  by rewrite with_sessions_fst.
Qed.

(** The events of a later session of a channel come more than the threshold
    after every event of an earlier session of that channel. *)
Lemma later_session_later (T : Z) (df0 : list drow) (x y : drow * Z) :
  let dfs := with_sessions T (sort_values df0) in
  x ∈ dfs → y ∈ dfs → d_channel x.1 = d_channel y.1 → x.2 < y.2 →
  60 * T < fecha_local y.1 - fecha_local x.1.
Proof.
  intros dfs Hx Hy Hc Hlt.
  set (c := d_channel y.1).
  set (l := filter (λ z, d_channel z.1 = c) dfs).
  assert (x ∈ l ∧ y ∈ l) as [Hxl Hyl].
  { unfold l. rewrite !list_elem_of_filter. done. }
  apply elem_of_zip_projections in Hxl, Hyl.
  unfold l, dfs in Hxl, Hyl.
  rewrite with_sessions_channel_rows, with_sessions_channel in Hxl, Hyl.
  destruct (channel_ids_separated T
              (fecha_local <$> filter (λ r, d_channel r = c) (sort_values df0))
              None 0) as [_ Hsep].
  - eapply StronglySorted_fmap; [| apply sort_values_channel_sorted]. done.
  - done.
  - exact (Hsep _ _ Hxl Hyl Hlt).
Qed.

Lemma Zmin_list_spec (l : list Z) :
  l ≠ [] → Zmin_list l ∈ l ∧ Forall (λ t, Zmin_list l ≤ t) l.
Proof.
  destruct l as [|x l]; [done |]. intros _. unfold Zmin_list.
  induction l as [|y l IH]; simpl.
  - split; [by left | by repeat constructor].
  - destruct IH as [Hin Hall]. apply Forall_cons in Hall as [Hx Hall]. split.
    + destruct (Z.min_spec y (foldr Z.min x l)) as [[_ ->] | [_ ->]].
      * right. by left.
      * apply elem_of_cons in Hin as [Hin | Hin]; [rewrite Hin; by left |].
        right. by right.
    + repeat constructor; try lia.
      eapply Forall_impl; [exact Hall |]. simpl. lia.
Qed.

Lemma Zmax_list_spec (l : list Z) :
  l ≠ [] → Zmax_list l ∈ l ∧ Forall (λ t, t ≤ Zmax_list l) l.
Proof.
  destruct l as [|x l]; [done |]. intros _. unfold Zmax_list.
  induction l as [|y l IH]; simpl.
  - split; [by left | by repeat constructor].
  - destruct IH as [Hin Hall]. apply Forall_cons in Hall as [Hx Hall]. split.
    + destruct (Z.max_spec y (foldr Z.max x l)) as [[_ ->] | [_ ->]].
      * apply elem_of_cons in Hin as [Hin | Hin]; [rewrite Hin; by left |].
        right. by right.
      * right. by left.
    + repeat constructor; try lia.
      eapply Forall_impl; [exact Hall |]. simpl. lia.
Qed.

Lemma session_bounds_rows (dfs : list (drow * Z)) (s : session) :
  s ∈ sessions_all dfs →
  (∃ x, x ∈ dfs ∧ d_channel x.1 = s_channel_id s ∧ x.2 = s_session_id s
        ∧ fecha_local x.1 = inicio s)
  ∧ (∃ y, y ∈ dfs ∧ d_channel y.1 = s_channel_id s ∧ y.2 = s_session_id s
          ∧ fecha_local y.1 = fin s)
  ∧ ∀ z, z ∈ dfs → session_key z = (s_canal s, s_channel_id s, s_session_id s) →
         inicio s ≤ fecha_local z.1 ≤ fin s.
Proof.
  intros (x & Hx & ->)%elem_of_sessions_all. unfold agg_session. simpl.
  set (g := filter (λ y, session_key y = session_key x) dfs).
  set (ts := (λ y : drow * Z, fecha_local y.1) <$> g).
  assert (x ∈ g) as Hxg by (unfold g; by rewrite list_elem_of_filter).
  assert (ts ≠ []) as Hne.
  { intros Hnil. apply (list_elem_of_fmap_2 (λ y : drow * Z, fecha_local y.1)) in Hxg.
    fold ts in Hxg. rewrite Hnil in Hxg. by apply elem_of_nil in Hxg. }
  destruct (Zmin_list_spec ts Hne) as [Hmin Hle].
  destruct (Zmax_list_spec ts Hne) as [Hmax Hge].
  assert (∀ t, t ∈ ts →
            ∃ y, y ∈ dfs ∧ d_channel y.1 = d_channel x.1 ∧ y.2 = x.2
                 ∧ fecha_local y.1 = t) as Hrow.
  { intros t (y & -> & Hy)%list_elem_of_fmap.
    apply list_elem_of_filter in Hy as [Hk Hy].
    exists y. unfold session_key in Hk. by simplify_eq. }
  split; [by apply Hrow |]. split; [by apply Hrow |].
  intros z Hz Hk.
  assert (fecha_local z.1 ∈ ts) as Hin.
  { apply (list_elem_of_fmap_2 (λ y : drow * Z, fecha_local y.1)).
    unfold g. by rewrite list_elem_of_filter. }
  rewrite Forall_forall in Hle, Hge. split; [by apply Hle | by apply Hge].
Qed.

Lemma sessions_all_apart (T : Z) (df0 : list drow) (s1 s2 : session) :
  let dfs := with_sessions T (sort_values df0) in
  s1 ∈ sessions_all dfs → s2 ∈ sessions_all dfs →
  s_channel_id s1 = s_channel_id s2 → s_session_id s1 < s_session_id s2 →
  60 * T < inicio s2 - fin s1.
Proof.
  intros dfs H1 H2 Hc Hlt.
  apply session_bounds_rows in H1 as (_ & (y & Hy & Hyc & Hys & <-) & _).
  apply session_bounds_rows in H2 as ((x & Hx & Hxc & Hxs & <-) & _ & _).
  apply (later_session_later T df0 y x); [done | done | congruence | lia].
Qed.

(** X5: in the summary [build_sessions_from_messages] returns, a session
    starts no later than it ends and its duration is not negative; and of two
    sessions of one channel, the one with the larger session id starts more
    than the inactivity threshold after the other has ended: the sessions of
    a channel never overlap. *)
Theorem sessions_never_overlap (ch_map : gmap Z string)
    (internal_partner_ids : gset Z) (msgs : list message) (T : Z)
    (sess : list session) (ops_per_sess : list op_row) (s1 s2 : session) :
  build_sessions_from_messages ch_map internal_partner_ids msgs T
  = Ok (sess, ops_per_sess) →
  s1 ∈ sess → s2 ∈ sess →
  (inicio s1 ≤ fin s1 ∧ (0 <= dur_min s1)%Q)
  ∧ (s_channel_id s1 = s_channel_id s2 → s_session_id s1 < s_session_id s2 →
     60 * T < inicio s2 - fin s1).
Proof.
  intros Hok.
  assert (sess = [] ∨ sess = (session_tables ch_map internal_partner_ids
                                msgs T).1) as [-> | ->].
  { unfold build_sessions_from_messages in Hok.
    repeat case_decide; simplify_eq; auto. }
  { by intros ?%elem_of_nil. }
  unfold session_tables. cbn [fst].
  intros [H1 _]%elem_of_sessions [H2 _]%elem_of_sessions. split.
  - pose proof H1 as Hb.
    apply session_bounds_rows in Hb as ((x & Hx & Hxc & Hxs & Hxi) & _ & Hall).
    pose proof H1 as (x0 & Hx0 & Hagg)%elem_of_sessions_all.
    assert (inicio s1 ≤ fin s1) as Hle.
    { assert (session_key x0 = (s_canal s1, s_channel_id s1, s_session_id s1))
        as Hk by (by rewrite Hagg).
      specialize (Hall x0 Hx0 Hk). lia. }
    split; [done |].
    rewrite Hagg in Hle |- *. unfold agg_session in *. simpl in *.
    unfold Qle. simpl. lia.
  - by apply (sessions_all_apart T
                (dropna (build_rows ch_map internal_partner_ids msgs))).
Qed.

Lemma sessions_never_overlap_witness :
  ∃ s1 s2 ops_per_sess,
    build_sessions_from_messages Day.ch_map Day.internal_partner_ids
      Book.msgs_two_visits 45 = Ok ([s1; s2], ops_per_sess)
    ∧ (inicio s1 ≤ fin s1 ∧ (0 <= dur_min s1)%Q)
    ∧ 60 * 45 < inicio s2 - fin s1.
Proof.
  evar (ops : list op_row).
  eexists _, _, ops. split; [unfold ops; vm_compute; reflexivity |].
  match goal with
  | |- (inicio ?a ≤ _ ∧ _) ∧ _ < inicio ?b - _ =>
      destruct (sessions_never_overlap Day.ch_map Day.internal_partner_ids
                  Book.msgs_two_visits 45 [a; b] ops a b) as [Hb Hgap];
        [vm_compute; reflexivity | left | right; left | ];
        split; [exact Hb | apply Hgap; vm_compute; reflexivity]
  end.
Defined.

(** ** The day of the lines *)

Lemma local_day_in_bounds (d t : Z) :
  (to_local_day_bounds d).1 ≤ t ≤ (to_local_day_bounds d).2 → local_day t = d.
Proof.
  unfold to_local_day_bounds, local_day, TZ_OFFSET. simpl. intros Ht.
  symmetry. apply (Z.div_unique _ _ _ (t - 10800 - d * 86400)); lia.
Qed.

Lemma plan_of_elem (a : args) (project : Z)
    (partner_to_user user_to_employee : gmap Z (Z * string))
    (ops rows : list ops_row) (p : line_vals * string) :
  p ∈ plan_of a project partner_to_user user_to_employee ops rows ↔
  ∃ r e, r ∈ rows
         ∧ employee_of partner_to_user user_to_employee r = Some e
         ∧ p = (line_vals_of a project ops e r, signature_of r).
Proof.
  unfold plan_of. rewrite list_elem_of_omap. split.
  - intros (r & Hr & Hp).
    destruct (employee_of _ _ r) as [e|] eqn:He; [|done].
    simpl in Hp. exists r, e. by simplify_eq.
  - intros (r & e & Hr & He & ->). exists r. split; [done |]. by rewrite He.
Qed.

(** X6: for a day from 2009-03-15 on (day 14318, since when the zone has
    kept UTC-3), when the messages read for the day lie within the bounds
    [to_local_day_bounds] gives for the day asked for, every session of the
    summary begins and ends within them and carries that day, and every
    planned line is dated that day. *)
Theorem lines_carry_requested_date (a : args) (project : Z)
    (ch_map : gmap Z string) (internal_partner_ids : gset Z)
    (partner_to_user user_to_employee : gmap Z (Z * string))
    (msgs : list message) :
  14318 ≤ fecha a →
  Forall (in_day (fecha a)) msgs →
  let ops := ops_of a ch_map internal_partner_ids msgs in
  (∀ sess ops_per_sess,
     build_sessions_from_messages ch_map internal_partner_ids msgs
       (inactividad a) = Ok (sess, ops_per_sess) →
     Forall (λ s, (to_local_day_bounds (fecha a)).1 ≤ inicio s
                  ∧ fin s ≤ (to_local_day_bounds (fecha a)).2
                  ∧ date_local s = fecha a) sess)
  ∧ Forall (λ p, date p.1 = fecha a)
      (plan_of a project partner_to_user user_to_employee ops ops).
Proof.
  intros _ Hday ops.
  assert (Forall (λ s, (to_local_day_bounds (fecha a)).1 ≤ inicio s
                       ∧ fin s ≤ (to_local_day_bounds (fecha a)).2
                       ∧ date_local s = fecha a)
            (session_tables ch_map internal_partner_ids msgs
               (inactividad a)).1) as Hsess.
  { unfold session_tables. cbn [fst]. apply Forall_forall.
    intros s [Hs _]%elem_of_sessions.
    pose proof Hs as ((x & Hx & _ & _ & Hxi) & (y & Hy & _ & _ & Hyf) & _)
      %session_bounds_rows.
    apply dfs_row_message in Hx as (mx & Hmx & _ & Hdx).
    apply dfs_row_message in Hy as (my & Hmy & _ & Hdy).
    rewrite Forall_forall in Hday.
    pose proof (Hday mx Hmx _ Hdx) as Hbx.
    pose proof (Hday my Hmy _ Hdy) as Hby.
    rewrite Hxi in Hbx. rewrite Hyf in Hby.
    assert (inicio s ≤ fin s) as Hle.
    { apply elem_of_sessions_all in Hs as (z & Hz & ->). simpl.
      set (ts := (λ x0 : drow * Z, fecha_local x0.1) <$> _).
      assert (ts ≠ []) as Hne.
      { intros Hnil.
        assert (fecha_local z.1 ∈ ts) as Hin.
        { apply (list_elem_of_fmap_2 (λ x0 : drow * Z, fecha_local x0.1)).
          by apply list_elem_of_filter. }
        rewrite Hnil in Hin. by apply elem_of_nil in Hin. }
      destruct (Zmin_list_spec ts Hne) as [Hmin _].
      destruct (Zmax_list_spec ts Hne) as [_ Hmax].
      rewrite Forall_forall in Hmax. by apply Hmax. }
    split; [lia |]. split; [lia |].
    apply elem_of_sessions_all in Hs as (z & Hz & Hagg).
    assert (date_local s = local_day (inicio s)) as -> by (by rewrite Hagg).
    by apply local_day_in_bounds. }
  split.
  { intros sess ops_per_sess Hok.
    assert (sess = [] ∨ sess = (session_tables ch_map internal_partner_ids
                                  msgs (inactividad a)).1) as [-> | ->].
    { unfold build_sessions_from_messages in Hok.
      repeat case_decide; simplify_eq; auto. }
    - constructor.
    - exact Hsess. }
  apply Forall_forall. intros p (r & e & Hr & _ & ->)%plan_of_elem. simpl.
  unfold o_date_local. destruct (o_session r) as [s|] eqn:Hs; [|done]. simpl.
  unfold ops, ops_of, session_tables in Hr.
  apply elem_of_merge in Hr as [_ Hr]. rewrite Hs in Hr. destruct Hr as [Hin _].
  rewrite Forall_forall in Hsess. by apply Hsess.
Qed.

Lemma lines_carry_requested_date_witness :
  14318 ≤ fecha Day.args0
  ∧ Forall (in_day 20332) Day.msgs_spec
  ∧ Forall (λ p, date p.1 = 20332)
      (plan_of Day.args0 55 Day.partner_to_user Day.user_to_employee
         (ops_of Day.args0 Day.ch_map Day.internal_partner_ids Day.msgs_spec)
         (ops_of Day.args0 Day.ch_map Day.internal_partner_ids Day.msgs_spec)).
Proof.
  assert (Forall (in_day 20332) Day.msgs_spec) as Hday.
  { unfold Day.msgs_spec.
    repeat (apply Forall_cons; split;
            [intros t [= <-]; vm_compute; by split |]).
    constructor. }
  assert (14318 ≤ fecha Day.args0) as Hera by (vm_compute; discriminate).
  split; [exact Hera |]. split; [exact Hday |].
  exact (proj2 (lines_carry_requested_date Day.args0 55 Day.ch_map
                  Day.internal_partner_ids Day.partner_to_user
                  Day.user_to_employee Day.msgs_spec Hera Hday)).
Defined.

(** ** The minutes of a session *)

Lemma Qsum_scale (q : Q) (l : list Q) :
  (Qsum (Qmult q <$> l) == q * Qsum l)%Q.
Proof.
  induction l as [|x l IH].
  - simpl. ring.
  - cbn [fmap list_fmap Qsum foldr]. fold (Qsum (Qmult q <$> l)).
    fold (Qsum l). rewrite IH. ring.
Qed.

Lemma min_asignados_session (mode : modo) (ops rows : list ops_row)
    (s : session) :
  Forall (λ x, o_session x = Some s) rows →
  (Qsum (min_asignados mode ops <$> rows)
   == dur_min s * Qsum (weight mode ops <$> rows))%Q.
Proof.
  intros Hall.
  assert (min_asignados mode ops <$> rows
          = Qmult (dur_min s) <$> (weight mode ops <$> rows)) as ->.
  { rewrite <- list_fmap_compose. apply list_fmap_ext. intros i x Hx.
    apply list_elem_of_lookup_2 in Hx. rewrite Forall_forall in Hall.
    unfold min_asignados, o_dur_min. simpl. by rewrite (Hall x Hx). }
  apply Qsum_scale.
Qed.

Lemma ops_session_shared (a : args) (ch_map : gmap Z string)
    (internal_partner_ids : gset Z) (msgs : list message)
    (r r' : ops_row) (s : session) :
  let ops := ops_of a ch_map internal_partner_ids msgs in
  r ∈ ops → r' ∈ ops → same_session r r' → o_session r = Some s →
  o_session r' = Some s.
Proof.
  intros ops Hr Hr' [Hc Hi] Hs.
  unfold ops, ops_of, session_tables in Hr, Hr'.
  set (dfs := with_sessions (inactividad a) _) in Hr, Hr'.
  apply elem_of_merge in Hr as [_ Hr]. rewrite Hs in Hr.
  destruct Hr as [Hin [Hsc Hsi]].
  apply elem_of_merge in Hr' as [_ Hr'].
  destruct (o_session r') as [s'|].
  - destruct Hr' as [Hin' [Hsc' Hsi']]. f_equal.
    apply elem_of_sessions in Hin as [Hin _].
    apply elem_of_sessions in Hin' as [Hin' _].
    apply (sessions_all_key_unique dfs);
      [apply dfs_canal_by_channel | done | done | congruence | congruence].
  - exfalso. apply (Hr' s Hin). split; congruence.
Qed.

(** X7: the rows of a session that is in the summary all carry that
    session, and the minutes assigned to them add up to the duration of the
    session under [by_msgs] and, the display name of a partner being the
    same on all messages, under [equal]; under [full] every row gets the
    whole duration, so the minutes add up to the duration times the number
    of rows. *)
Theorem minutes_add_up (a : args) (ch_map : gmap Z string)
    (internal_partner_ids : gset Z) (msgs : list message)
    (r : ops_row) (s : session) :
  let ops := ops_of a ch_map internal_partner_ids msgs in
  let rows := filter (same_session r) ops in
  r ∈ ops → o_session r = Some s →
  Forall (λ x, o_session x = Some s) rows
  ∧ (Qsum (min_asignados by_msgs ops <$> rows) == dur_min s)%Q
  ∧ (names_consistent msgs →
     (Qsum (min_asignados equal ops <$> rows) == dur_min s)%Q)
  ∧ (Qsum (min_asignados full ops <$> rows)
     == inject_Z (Z.of_nat (length rows)) * dur_min s)%Q.
Proof.
  intros ops rows Hr Hs.
  assert (Forall (λ x, o_session x = Some s) rows) as Hall.
  { apply Forall_forall. intros x [Hx Hin]%list_elem_of_filter.
    by apply (ops_session_shared a ch_map internal_partner_ids msgs r x). }
  split; [done |]. split; [|split].
  - rewrite (min_asignados_session by_msgs ops rows s Hall).
    pose proof (ops_tot_pos a ch_map internal_partner_ids msgs r Hr) as Htot.
    fold ops in Htot.
    assert (tot_by_sess ops r ≠ 0) as Hne by lia.
    pose proof (weight_by_msgs_sum ops r Hne) as Hsum.
    fold rows in Hsum. rewrite Hsum. ring.
  - intros Hcons.
    rewrite (min_asignados_session equal ops rows s Hall).
    destruct (weight_equal_sum ops r Hr
                (ops_session_partners_NoDup a ch_map internal_partner_ids
                   msgs r Hcons)) as (_ & _ & Hsum).
    fold rows in Hsum. rewrite Hsum. ring.
  - rewrite (min_asignados_session full ops rows s Hall).
    assert (weight full ops <$> rows = (λ _, 1%Q) <$> rows) as -> by done.
    rewrite Qsum_const. ring.
Qed.

Lemma minutes_add_up_witness :
  let ops := ops_of Day.args0 Day.ch_map Day.internal_partner_ids
               Day.msgs_activity in
  let rows := filter (same_session Book.row_ana) ops in
  Book.row_ana ∈ ops
  ∧ (Qsum (min_asignados by_msgs ops <$> rows)
     == dur_min Book.session_activity)%Q.
Proof.
  assert (Book.row_ana ∈ ops_of Day.args0 Day.ch_map Day.internal_partner_ids
                           Day.msgs_activity) as Hin
    by (vm_compute; left).
  split; [exact Hin |].
  exact (proj1 (proj2 (minutes_add_up Day.args0 Day.ch_map
                         Day.internal_partner_ids Day.msgs_activity
                         Book.row_ana Book.session_activity Hin eq_refl))).
Defined.

(** ** The marker of a row *)

Lemma occurs_app (c : ascii) (a b : string) :
  occurs c (a +:+ b) = occurs c a || occurs c b.
Proof.
  induction a as [|x a IH]; simpl; [done |]. by rewrite IH, orb_assoc.
Qed.

Lemma lower_ascii_bracket (x : ascii) :
  Str.lower_ascii x = "["%char → x = "["%char.
Proof.
  destruct x as [[] [] [] [] [] [] [] []]; vm_compute; congruence.
Qed.

Lemma occurs_bracket_lower (s : string) :
  occurs "[" s = false → occurs "[" (Str.lower s) = false.
Proof.
  induction s as [|x s IH]; simpl; [done |].
  intros [Hx Hs]%orb_false_elim. rewrite IH by done.
  rewrite orb_false_r. apply bool_decide_eq_false_2. intros Heq.
  symmetry in Heq. apply lower_ascii_bracket in Heq.
  apply bool_decide_eq_false_1 in Hx. congruence.
Qed.

Lemma contains_skip (c : ascii) (p a b : string) :
  occurs c a = false →
  Str.contains (a +:+ b) (String c p) = Str.contains b (String c p).
Proof.
  induction a as [|x a IH]; [done |].
  simpl. intros [Hx Hs]%orb_false_elim. rewrite Hx. simpl. by apply IH.
Qed.

Lemma contains_free (c : ascii) (p s : string) :
  occurs c s = false → Str.contains s (String c p) = false.
Proof.
  induction s as [|x s IH]; [done |].
  simpl. intros [Hx Hs]%orb_false_elim. rewrite Hx. simpl. by apply IH.
Qed.

Lemma numeric_app (a b : string) :
  numeric (a +:+ b) = numeric a && numeric b.
Proof.
  induction a as [|x a IH]; simpl; [done |]. by rewrite IH, andb_assoc.
Qed.

Lemma numeric_char_pretty (n : N) : numeric_char (pretty_N_char n) = true.
Proof. unfold pretty_N_char. by repeat case_match. Qed.

Lemma numeric_pretty_N_go (x : N) (s : string) :
  numeric s = true → numeric (pretty_N_go x s) = true.
Proof.
  revert s. induction (N.lt_wf_0 x) as [x _ IH]; intros s Hs.
  assert (x = 0 ∨ 0 < x)%N as [->|Hx] by lia; [by rewrite pretty_N_go_0 |].
  rewrite pretty_N_go_step by done. apply IH; [by apply N.div_lt |].
  simpl. by rewrite numeric_char_pretty.
Qed.

Lemma numeric_pretty_N (n : N) : numeric (pretty n) = true.
Proof.
  unfold pretty, pretty_N. case_decide; [done |].
  by apply numeric_pretty_N_go.
Qed.

Lemma numeric_pretty (z : Z) : numeric (pretty z) = true.
Proof.
  destruct z as [|p|p]; [done | apply (numeric_pretty_N (Npos p)) |].
  change (numeric ("-" +:+ pretty (Npos p)) = true).
  rewrite numeric_app. by rewrite numeric_pretty_N.
Qed.

Lemma numeric_free (c : ascii) (s : string) :
  numeric_char c = false → numeric s = true → occurs c s = false.
Proof.
  intros Hc. induction s as [|x s IH]; simpl; [done |].
  intros [Hx Hs]%andb_true_iff. rewrite IH by done.
  rewrite orb_false_r. apply bool_decide_eq_false_2. intros ->. congruence.
Qed.

Lemma numeric_lower (s : string) : numeric s = true → Str.lower s = s.
Proof.
  induction s as [|x s IH]; simpl; [done |].
  intros [Hx Hs]%andb_true_iff. rewrite IH by done. f_equal.
  revert Hx. destruct x as [[] [] [] [] [] [] [] []]; vm_compute; congruence.
Qed.

(** Two printed integers, each followed by a character no integer prints:
    when one text begins with the other, the integers print alike. *)
Lemma is_prefix_numeric (d1 d2 r1 r2 : string) (x y : ascii) :
  numeric d1 = true → numeric d2 = true →
  numeric_char x = false → numeric_char y = false →
  Str.is_prefix (d1 +:+ String x r1) (d2 +:+ String y r2) = true →
  d1 = d2 ∧ x = y ∧ Str.is_prefix r1 r2 = true.
Proof.
  intros H1 H2 Hx Hy. revert d2 H2.
  induction d1 as [|c1 d1 IH]; intros [|c2 d2] H2; simpl in *.
  - intros [Hxy Hr]%andb_true_iff. by apply bool_decide_eq_true_1 in Hxy.
  - intros [Hxy _]%andb_true_iff. apply bool_decide_eq_true_1 in Hxy.
    apply andb_true_iff in H2 as [H2 _]. congruence.
  - intros [Hxy _]%andb_true_iff. apply bool_decide_eq_true_1 in Hxy.
    apply andb_true_iff in H1 as [H1 _]. congruence.
  - intros [Hc Hr]%andb_true_iff. apply bool_decide_eq_true_1 in Hc.
    apply andb_true_iff in H1 as [_ H1]. apply andb_true_iff in H2 as [_ H2].
    destruct (IH H1 d2 H2 Hr) as (-> & -> & Hr'). by rewrite Hc.
Qed.

Lemma is_prefix_numeric_other (c : ascii) (p d r : string) (y : ascii) :
  numeric_char c = false → c ≠ y → numeric d = true →
  Str.is_prefix (String c p) (d +:+ String y r) = false.
Proof.
  intros Hc Hy Hd. destruct d as [|x d]; simpl.
  - by rewrite bool_decide_eq_false_2.
  - apply andb_true_iff in Hd as [Hx _].
    rewrite bool_decide_eq_false_2; [done | congruence].
Qed.

Lemma append_assoc (a b c : string) : (a +:+ b) +:+ c = a +:+ (b +:+ c).
Proof.
  induction a as [|x a IH]; [done |].
  change (String x ((a +:+ b) +:+ c) = String x (a +:+ b +:+ c)). by f_equal.
Qed.

Lemma lower_signature (r : ops_row) :
  Str.lower ("[" +:+ signature_of r +:+ "]")
  = "[wa[" +:+ pretty (o_channel_id (o_op r)) +:+ "/"
    +:+ pretty (o_session_id (o_op r)) +:+ "]@"
    +:+ pretty (o_partner_id (o_op r)) +:+ "]".
Proof.
  unfold signature_of. rewrite !append_assoc, !lower_app.
  rewrite (numeric_lower (pretty (o_channel_id (o_op r)))),
    (numeric_lower (pretty (o_session_id (o_op r)))),
    (numeric_lower (pretty (o_partner_id (o_op r))))
    by apply numeric_pretty.
  reflexivity.
Qed.

Lemma marker_core (c s p c' s' p' : Z) :
  Str.contains
    ("[wa[" +:+ pretty c' +:+ "/" +:+ pretty s' +:+ "]@" +:+ pretty p' +:+ "]")
    ("[wa[" +:+ pretty c +:+ "/" +:+ pretty s +:+ "]@" +:+ pretty p +:+ "]")
  = true →
  c = c' ∧ s = s' ∧ p = p'.
Proof.
  set (X := pretty c +:+ "/" +:+ pretty s +:+ "]@" +:+ pretty p +:+ "]").
  set (X' := pretty c' +:+ "/" +:+ pretty s' +:+ "]@" +:+ pretty p' +:+ "]").
  assert (occurs "[" X' = false) as Hfree.
  { unfold X'. rewrite !occurs_app.
    rewrite (numeric_free "[" (pretty c')), (numeric_free "[" (pretty s')),
      (numeric_free "[" (pretty p')) by (done || apply numeric_pretty).
    done. }
  assert (Str.is_prefix ("wa[" +:+ X) X' = false) as Hw.
  { apply (is_prefix_numeric_other "w" _ (pretty c') _ "/");
      [done | done | apply numeric_pretty]. }
  change ("[wa[" +:+ X') with (String "[" (String "w" (String "a" (String "[" X')))).
  change ("[wa[" +:+ X) with (String "[" ("wa[" +:+ X)).
  cbn [Str.contains Str.is_prefix].
  rewrite Hw, (contains_free "[" _ X' Hfree).
  rewrite !bool_decide_eq_true_2 by done.
  rewrite (bool_decide_eq_false_2 ("["%char = "w"%char)) by done.
  rewrite (bool_decide_eq_false_2 ("["%char = "a"%char)) by done.
  cbn [andb orb]. rewrite !orb_false_r.
  change (Str.is_prefix ("wa[" +:+ X) (String "w" (String "a" (String "[" X'))))
    with (Str.is_prefix X X').
  unfold X, X'.
  change ("/" +:+ ?a) with (String "/" a).
  intros (Hc & _ & H1)%is_prefix_numeric;
    [| apply numeric_pretty | apply numeric_pretty | done | done].
  change ("]@" +:+ ?a) with (String "]" ("@" +:+ a)) in H1.
  apply is_prefix_numeric in H1 as (Hs & _ & H2);
    [| apply numeric_pretty | apply numeric_pretty | done | done].
  change (Str.is_prefix (pretty p +:+ String "]" "") (pretty p' +:+ String "]" "")
          = true) in H2.
  apply is_prefix_numeric in H2 as (Hp & _ & _);
    [| apply numeric_pretty | apply numeric_pretty | done | done].
  by apply (inj pretty) in Hc, Hs, Hp.
Qed.

Lemma name_of_split (r : ops_row) :
  name_of r = name_head r +:+ "[" +:+ signature_of r +:+ "]".
Proof. unfold name_of, name_head. by rewrite !append_assoc. Qed.

Lemma occurs_bracket_pad2 (n : Z) : occurs "[" (pad2 n) = false.
Proof.
  unfold pad2. destruct (n <? 10); [rewrite occurs_app |];
    by rewrite (numeric_free "[" (pretty n)) by (done || apply numeric_pretty).
Qed.

Lemma occurs_bracket_fmt_hhmm (t : Z) : occurs "[" (fmt_hhmm t) = false.
Proof.
  unfold fmt_hhmm. cbv zeta. rewrite !occurs_app.
  by rewrite !occurs_bracket_pad2.
Qed.

Lemma occurs_bracket_time_span (r : ops_row) : occurs "[" (time_span r) = false.
Proof.
  unfold time_span. destruct (o_session r) as [s|]; rewrite !occurs_app.
  - by rewrite !occurs_bracket_fmt_hhmm.
  - by rewrite (numeric_free "[" (pretty _)) by (done || apply numeric_pretty).
Qed.

Lemma occurs_bracket_name_head (r : ops_row) :
  occurs "[" (from_option s_canal "nan" (o_session r)) = false →
  occurs "[" (o_autor (o_op r)) = false →
  occurs "[" (name_head r) = false.
Proof.
  intros Hc Ha. unfold name_head. rewrite !occurs_app.
  by rewrite Hc, Ha, occurs_bracket_time_span.
Qed.

Lemma ilike_marker (r r' : ops_row) :
  occurs "[" (from_option s_canal "nan" (o_session r')) = false →
  occurs "[" (o_autor (o_op r')) = false →
  Str.ilike (name_of r') ("[" +:+ signature_of r +:+ "]") = true ↔
  row_key r = row_key r'.
Proof.
  intros Hc Ha. split.
  - unfold Str.ilike. rewrite name_of_split, lower_app, !lower_signature.
    change ("[wa[" +:+ ?x) with (String "[" ("wa[" +:+ x)) at 2.
    rewrite contains_skip
      by (by apply occurs_bracket_lower, occurs_bracket_name_head).
    intros (? & ? & ?)%marker_core. unfold row_key. congruence.
  - intros Hk. unfold row_key in Hk.
    assert (signature_of r = signature_of r') as ->
      by (unfold signature_of; congruence).
    apply name_of_marker.
Qed.

(** X8: the search of [create_timesheet_if_needed] for a row finds a line
    this program wrote, in whatever run, only when that line was written
    for the same channel, session and operator, with the same date, project
    and employee, and then it does find it; this as long as the name of the
    channel and the name of the operator on the line hold no opening
    bracket. *)
Theorem search_finds_own_line_only (a a' : args) (project project' : Z)
    (ops ops' : list ops_row) (e e' : Z) (r r' : ops_row) (i : Z) :
  occurs "[" (from_option s_canal "nan" (o_session r')) = false →
  occurs "[" (o_autor (o_op r')) = false →
  matches (domain_of (line_vals_of a project ops e r) (signature_of r))
    {| id := i; vals := line_vals_of a' project' ops' e' r' |}
  ↔ row_key r = row_key r'
    ∧ o_date_local (fecha a') r' = o_date_local (fecha a) r
    ∧ project' = project ∧ e' = e.
Proof.
  intros Hc Ha. unfold matches, domain_of, line_vals_of. simpl.
  by rewrite (ilike_marker r r' Hc Ha).
Qed.

Lemma search_finds_own_line_only_witness :
  ¬ matches
      (domain_of (line_vals_of Day.args0 55 [] 800 Day.row_beto)
         (signature_of Day.row_beto))
      {| id := 1; vals := line_vals_of Day.args0 55 [] 800 Book.row_beta |}.
Proof.
  intros Hm.
  apply (search_finds_own_line_only Day.args0 Day.args0 55 55 [] [] 800 800
           Day.row_beto Book.row_beta 1) in Hm as [Hk _];
    [| vm_compute; reflexivity | vm_compute; reflexivity].
  vm_compute in Hk. discriminate Hk.
Defined.

(** ** A first run *)

Lemma plan_of_app (a : args) (project : Z)
    (partner_to_user user_to_employee : gmap Z (Z * string))
    (ops l1 l2 : list ops_row) :
  plan_of a project partner_to_user user_to_employee ops (l1 ++ l2)
  = plan_of a project partner_to_user user_to_employee ops l1
    ++ plan_of a project partner_to_user user_to_employee ops l2.
Proof. unfold plan_of. apply omap_app. Qed.

(** No line planned for another row answers the search for a row. *)
Lemma plan_line_other_row (a : args) (project : Z)
    (partner_to_user user_to_employee : gmap Z (Z * string))
    (ops done : list ops_row) (r : ops_row) (lv : line_vals) (l : line) :
  Forall plain_row done →
  row_key r ∉ row_key <$> done →
  vals l ∈ (plan_of a project partner_to_user user_to_employee ops done).*1 →
  ¬ matches (domain_of lv (signature_of r)) l.
Proof.
  intros Hplain Hkey Hl [Hm _].
  apply list_elem_of_fmap in Hl as (p & Hp & Hin).
  apply plan_of_elem in Hin as (r' & e' & Hr' & _ & ->). simpl in Hp.
  rewrite Forall_forall in Hplain. destruct (Hplain r' Hr') as [Hc Ha].
  rewrite Hp in Hm. simpl in Hm. apply (ilike_marker r r' Hc Ha) in Hm.
  apply Hkey. rewrite Hm. by apply list_elem_of_fmap_2.
Qed.

Lemma process_rows_fresh (a : args) (project : Z)
    (partner_to_user user_to_employee : gmap Z (Z * string))
    (ops : list ops_row) :
  dry_run a = false →
  ∀ (rows done : list ops_row) (acc : summary) (w : world),
  pending w = [] →
  NoDup (row_key <$> done ++ rows) →
  Forall plain_row (done ++ rows) →
  vals <$> lines w
  = (plan_of a project partner_to_user user_to_employee ops done).*1 →
  ∃ s w',
    process_rows a project partner_to_user user_to_employee ops acc rows w
    = (Ok s, w')
    ∧ vals <$> lines w'
      = (plan_of a project partner_to_user user_to_employee ops
           (done ++ rows)).*1
    ∧ creados s
      = creados acc
        + Z.of_nat (length (plan_of a project partner_to_user
                              user_to_employee ops rows))
    ∧ ya_existian s = ya_existian acc.
Proof.
  intros Hdry. induction rows as [|r rows IH]; intros done acc w Hp Hnd Hplain Hw.
  - exists acc, w. rewrite app_nil_r. simpl. split; [done |].
    split; [done |]. split; [lia | done].
  - rewrite cons_middle, app_assoc in Hnd, Hplain.
    rewrite (cons_middle r done rows), app_assoc.
    rewrite plan_of_cons. cbn [process_rows]. unfold mbind, rpc_bind at 1.
    assert (row_key r ∉ row_key <$> done) as Hfresh.
    { rewrite fmap_app, fmap_app in Hnd.
      apply NoDup_app in Hnd as [Hnd _]. apply NoDup_app in Hnd as (_ & Hd & _).
      intros Hin. apply (Hd _ Hin). simpl. by left. }
    assert (Forall plain_row done) as Hpd.
    { apply Forall_app in Hplain as [Hplain _].
      by apply Forall_app in Hplain as [Hplain _]. }
    unfold process_row.
    destruct (employee_of partner_to_user user_to_employee r) as [e|] eqn:He.
    + rewrite Hdry. unfold mbind, rpc_bind at 1.
      rewrite create_timesheet_if_needed_ok by done.
      assert (existing_ids (line_vals_of a project ops e r) (signature_of r) w
              = []) as ->.
      { apply existing_ids_nil.
        destruct (filter _ (lines w)) as [|l ls] eqn:Hf; [done |]. exfalso.
        assert (l ∈ filter (matches (domain_of (line_vals_of a project ops e r)
                                       (signature_of r))) (lines w))
          as [Hm Hl]%list_elem_of_filter by (rewrite Hf; by left).
        eapply plan_line_other_row; [exact Hpd | exact Hfresh | | exact Hm].
        rewrite <- Hw. by apply list_elem_of_fmap_2. }
      cbn [mret rpc_ret].
      match goal with
      | |- ∃ s w', process_rows _ _ _ _ _ ?acc1 _ ?w1 = _ ∧ _ =>
          destruct (IH (done ++ [r]) acc1 w1)
            as (s & w' & Hrun & Hvals & Hc & Hy); [done | done | done | |]
      end.
      { simpl. rewrite fmap_app, Hw, plan_of_app, fmap_app. simpl.
        unfold plan_of at 2. simpl. by rewrite He. }
      exists s, w'. split; [exact Hrun |]. split; [done |].
      simpl in Hc, Hy. cbn [length]. rewrite Nat2Z.inj_succ. split; [lia | done].
    + cbn [mret rpc_ret].
      match goal with
      | |- ∃ s w', process_rows _ _ _ _ _ ?acc1 _ ?w1 = _ ∧ _ =>
          destruct (IH (done ++ [r]) acc1 w1)
            as (s & w' & Hrun & Hvals & Hc & Hy); [done | done | done | |]
      end.
      { rewrite Hw, plan_of_app. unfold plan_of at 3. simpl. rewrite He.
        by rewrite app_nil_r. }
      exists s, w'. split; [exact Hrun |]. split; [done |].
      simpl in Hc, Hy. split; [lia | done].
Qed.

Lemma ops_row_keys_NoDup (a : args) (ch_map : gmap Z string)
    (internal_partner_ids : gset Z) (msgs : list message) :
  names_consistent msgs →
  NoDup (row_key <$> ops_of a ch_map internal_partner_ids msgs).
Proof.
  intros Hcons.
  set (dfs := with_sessions (inactividad a)
    (sort_values (dropna (build_rows ch_map internal_partner_ids msgs)))).
  assert (row_key <$> ops_of a ch_map internal_partner_ids msgs
          = (λ o, (o_channel_id o, o_session_id o, o_partner_id o))
              <$> ops_per_sess dfs) as ->.
  { pose proof (ops_of_one_to_one a ch_map internal_partner_ids msgs) as Hone.
    fold dfs in Hone. rewrite <- Hone. by rewrite <- list_fmap_compose. }
  apply NoDup_fmap_2_strong; [|apply NoDup_ops_per_sess].
  intros o1 o2 H1 H2 Hk.
  eapply (NoDup_fmap_eq op_row_key);
    [apply NoDup_ops_per_sess_keys | done | done |].
  unfold op_row_key.
  rewrite (ops_per_sess_name a ch_map internal_partner_ids msgs o1 o2 Hcons H1 H2)
    by congruence.
  congruence.
Qed.

Lemma ops_rows_plain (a : args) (ch_map : gmap Z string)
    (internal_partner_ids : gset Z) (msgs : list message) :
  plain_names ch_map msgs →
  Forall plain_row (ops_of a ch_map internal_partner_ids msgs).
Proof.
  intros [Hch Hau]. apply Forall_forall. intros r Hr.
  unfold ops_of, session_tables in Hr.
  set (dfs := with_sessions (inactividad a) _) in Hr.
  apply elem_of_merge in Hr as [Hop Hs]. split.
  - destruct (o_session r) as [s|]; [|done]. simpl.
    destruct Hs as [[Hs _]%elem_of_sessions _].
    apply elem_of_sessions_all in Hs as (x & Hx & ->). simpl.
    apply dfs_row_message in Hx as (m & _ & -> & _). simpl.
    destruct (ch_map !! m_res_id m) as [n|] eqn:Hn; [|done].
    exact (Hch _ _ Hn).
  - apply elem_of_ops_per_sess in Hop as (x & Hx & Hopx & Hk & _).
    destruct (dfs_operador_author _ _ _ _ x Hx Hopx)
      as (m & p & Hm & Ha & Hpid & _ & _).
    unfold op_key in Hk. rewrite Hpid in Hk. simpl in Hk.
    injection Hk as _ _ _ <-.
    rewrite Forall_forall in Hau. exact (Hau m Hm _ Ha).
Qed.

(** X9: on a ledger with no line yet and a server that refuses no call,
    with one display name per partner and no opening bracket in the names
    of channels and operators, a run other than a dry run whose ingestion
    does not raise writes the plan and nothing else: the lines of the
    ledger are the planned lines, one each and in order, [creados] is their
    number and [ya_existian] is 0, with [--recrear] or without. *)
Theorem first_run_writes_the_plan (a : args) (project : Z)
    (ch_map : gmap Z string) (internal_partner_ids : gset Z)
    (partner_to_user user_to_employee : gmap Z (Z * string))
    (msgs : list message) (w : world) :
  dry_run a = false → lines w = [] → pending w = [] →
  names_consistent msgs → plain_names ch_map msgs →
  build_sessions_from_messages ch_map internal_partner_ids msgs (inactividad a)
  ≠ KeyError →
  let plan := plan_of a project partner_to_user user_to_employee
                (ops_of a ch_map internal_partner_ids msgs)
                (rows_processed a ch_map internal_partner_ids msgs) in
  ∃ s w',
    main a project ch_map internal_partner_ids partner_to_user
      user_to_employee msgs w = (Ok s, w')
    ∧ vals <$> lines w' = plan.*1
    ∧ creados s = Z.of_nat (length plan)
    ∧ ya_existian s = 0.
Proof.
  intros Hdry Hl Hp Hcons Hplain Hok plan.
  rewrite main_rows_processed by done.
  destruct (process_rows_fresh a project partner_to_user user_to_employee
              (ops_of a ch_map internal_partner_ids msgs) Hdry
              (rows_processed a ch_map internal_partner_ids msgs) []
              summary0 w Hp)
    as (s & w' & Hrun & Hvals & Hc & Hy).
  - simpl. unfold rows_processed. case_bool_decide; [constructor |].
    by apply ops_row_keys_NoDup.
  - simpl. unfold rows_processed. case_bool_decide; [constructor |].
    by apply ops_rows_plain.
  - by rewrite Hl.
  - exists s, w'. simpl in Hvals, Hc, Hy. done.
Qed.

Lemma first_run_writes_the_plan_witness :
  ∃ s w',
    main Book.args_recreate 55 Day.ch_map Day.internal_partner_ids
      Day.partner_to_user Day.user_to_employee Day.msgs_activity Day.world0
    = (Ok s, w')
    ∧ length (lines w') = 2%nat ∧ creados s = 2 ∧ ya_existian s = 0.
Proof.
  destruct (first_run_writes_the_plan Book.args_recreate 55 Day.ch_map
              Day.internal_partner_ids Day.partner_to_user Day.user_to_employee
              Day.msgs_activity Day.world0)
    as (s & w' & Hrun & Hvals & Hc & Hy).
  - reflexivity.
  - reflexivity.
  - reflexivity.
  - unfold names_consistent. repeat (constructor; [repeat constructor |]).
    constructor.
  - split.
    + apply map_Forall_lookup. intros i n Hi.
      destruct (decide (i = 1)) as [->|]; [by injection Hi as <- |].
      destruct (decide (i = 2)) as [->|]; [by injection Hi as <- |].
      unfold Day.ch_map in Hi.
      rewrite lookup_insert_ne, lookup_singleton_ne in Hi by done. done.
    + unfold Day.msgs_activity.
      repeat (apply Forall_cons; split; [by intros a [= <-] |]). constructor.
  - vm_compute. discriminate.
  - exists s, w'. split; [exact Hrun |].
    apply (f_equal length) in Hvals. rewrite !length_fmap in Hvals.
    split; [exact Hvals |]. split; [exact Hc | exact Hy].
Defined.

(** ** A run with [--recrear] over the lines of an earlier run *)

Lemma ledger_wf_replace_head (lv : line_vals) (l0 : line) (ls : list line)
    (w : world) :
  ledger_wf w → lines w = l0 :: ls →
  ledger_wf (with_line lv ls w)
  ∧ filter (λ l, id l ∉ [id l0]) (lines w) = ls.
Proof.
  intros [Hnd Hlt] Hl. rewrite Hl in Hnd, Hlt |- *.
  rewrite fmap_cons in Hnd. apply NoDup_cons in Hnd as [Hl0 Hnd].
  apply Forall_cons in Hlt as [_ Hlt]. split.
  - unfold ledger_wf, with_line. simpl. split.
    + rewrite fmap_app. apply NoDup_app. split; [done |]. split.
      * intros i Hi Hnew. apply list_elem_of_fmap in Hi as (l & -> & Hin).
        eapply Forall_forall in Hlt; [|exact Hin].
        apply list_elem_of_singleton in Hnew. simpl in Hnew. lia.
      * apply NoDup_singleton.
    + apply Forall_app. split.
      * eapply Forall_impl; [exact Hlt |]. intros l Hlw. simpl in Hlw. lia.
      * apply Forall_singleton. simpl. lia.
  - rewrite filter_cons_False by (intros Hn; apply Hn; by left).
    apply filter_all, Forall_forall. intros l Hin Hid.
    apply list_elem_of_singleton in Hid. apply Hl0. rewrite <- Hid.
    by apply list_elem_of_fmap_2.
Qed.

Lemma process_rows_recreate (a a0 : args) (project : Z)
    (partner_to_user user_to_employee : gmap Z (Z * string))
    (ops ops0 : list ops_row) :
  dry_run a = false → recrear a = true → fecha a0 = fecha a →
  ∀ (rows done : list ops_row) (acc : summary) (w : world),
  pending w = [] → ledger_wf w →
  NoDup (row_key <$> done ++ rows) →
  Forall plain_row (done ++ rows) →
  vals <$> lines w
  = (plan_of a0 project partner_to_user user_to_employee ops0 rows).*1
    ++ (plan_of a project partner_to_user user_to_employee ops done).*1 →
  ∃ s w',
    process_rows a project partner_to_user user_to_employee ops acc rows w
    = (Ok s, w')
    ∧ ledger_wf w'
    ∧ vals <$> lines w'
      = (plan_of a project partner_to_user user_to_employee ops
           (done ++ rows)).*1
    ∧ creados s
      = creados acc
        + Z.of_nat (length (plan_of a project partner_to_user
                              user_to_employee ops rows))
    ∧ ya_existian s = ya_existian acc.
Proof.
  intros Hdry Hrec Hfecha.
  induction rows as [|r rows IH]; intros done acc w Hp Hwf Hnd Hplain Hw.
  - exists acc, w. rewrite app_nil_r. simpl. split; [done |].
    split; [done |]. split; [done |]. split; [lia | done].
  - pose proof Hnd as Hnd0. pose proof Hplain as Hplain0.
    rewrite cons_middle, app_assoc in Hnd, Hplain.
    rewrite (cons_middle r done rows), app_assoc.
    rewrite plan_of_cons. rewrite plan_of_cons in Hw.
    cbn [process_rows]. unfold mbind, rpc_bind at 1.
    assert (row_key r ∉ row_key <$> done) as Hfresh.
    { rewrite fmap_app, fmap_app in Hnd.
      apply NoDup_app in Hnd as [Hnd _]. apply NoDup_app in Hnd as (_ & Hd & _).
      intros Hin. apply (Hd _ Hin). simpl. by left. }
    assert (row_key r ∉ row_key <$> rows) as Hfresh'.
    { rewrite fmap_app in Hnd0. apply NoDup_app in Hnd0 as (_ & _ & Hnd0).
      rewrite fmap_cons in Hnd0. by apply NoDup_cons in Hnd0 as [? _]. }
    assert (Forall plain_row done ∧ Forall plain_row rows) as [Hpd Hpr].
    { apply Forall_app in Hplain0 as [? Hplain0].
      by apply Forall_cons in Hplain0 as [_ ?]. }
    unfold process_row.
    destruct (employee_of partner_to_user user_to_employee r) as [e|] eqn:He.
    + rewrite Hdry. unfold mbind, rpc_bind at 1.
      rewrite create_timesheet_if_needed_ok by done. rewrite Hrec.
      destruct (lines w) as [|l0 ls] eqn:Hl; [done |].
      cbn [fmap list_fmap app fst] in Hw. injection Hw as Hl0 Hls.
      destruct (ledger_wf_replace_head (line_vals_of a project ops e r)
                  l0 ls w Hwf Hl) as [Hwf' Hkeep].
      set (dom := domain_of (line_vals_of a project ops e r) (signature_of r)).
      assert (filter (matches dom) (l0 :: ls) = [l0]) as Hfound.
      { rewrite filter_cons_True.
        - f_equal. destruct (filter (matches dom) ls) as [|l ls'] eqn:Hf; [done |].
          exfalso.
          assert (l ∈ filter (matches dom) ls) as [Hm Hin]%list_elem_of_filter
            by (rewrite Hf; by left).
          apply (list_elem_of_fmap_2 vals) in Hin. rewrite Hls in Hin.
          apply elem_of_app in Hin as [Hin|Hin].
          + exact (plan_line_other_row a0 project partner_to_user
                     user_to_employee ops0 rows r _ l Hpr Hfresh' Hin Hm).
          + exact (plan_line_other_row a project partner_to_user
                     user_to_employee ops done r _ l Hpd Hfresh Hin Hm).
        - unfold dom, matches. rewrite Hl0. simpl.
          split; [apply name_of_marker |]. by rewrite Hfecha. }
      unfold existing_ids. fold dom. rewrite Hl, Hfound.
      cbn [fmap list_fmap sort_by foldr insert_sorted take].
      rewrite Hl in Hkeep. rewrite Hkeep. cbn [mret rpc_ret].
      match goal with
      | |- ∃ s w', process_rows _ _ _ _ _ ?acc1 _ ?w1 = _ ∧ _ =>
          destruct (IH (done ++ [r]) acc1 w1)
            as (s & w' & Hrun & Hwf2 & Hvals & Hc & Hy);
            [done | done | done | done | |]
      end.
      { simpl. rewrite fmap_app, Hls, plan_of_app, fmap_app. simpl.
        unfold plan_of at 3. simpl. rewrite He. simpl. by rewrite app_assoc. }
      exists s, w'. split; [exact Hrun |]. split; [done |]. split; [done |].
      simpl in Hc, Hy. cbn [length]. rewrite Nat2Z.inj_succ. split; [lia | done].
    + cbn [mret rpc_ret].
      match goal with
      | |- ∃ s w', process_rows _ _ _ _ _ ?acc1 _ ?w1 = _ ∧ _ =>
          destruct (IH (done ++ [r]) acc1 w1)
            as (s & w' & Hrun & Hwf2 & Hvals & Hc & Hy);
            [done | done | done | done | |]
      end.
      { rewrite Hw, plan_of_app. unfold plan_of at 3. simpl. rewrite He.
        by rewrite app_nil_r. }
      exists s, w'. split; [exact Hrun |]. split; [done |]. split; [done |].
      simpl in Hc, Hy. split; [lia | done].
Qed.

Lemma rows_processed_inactividad (a a0 : args) (ch_map : gmap Z string)
    (internal_partner_ids : gset Z) (msgs : list message) :
  inactividad a0 = inactividad a →
  ops_of a0 ch_map internal_partner_ids msgs
  = ops_of a ch_map internal_partner_ids msgs
  ∧ rows_processed a0 ch_map internal_partner_ids msgs
    = rows_processed a ch_map internal_partner_ids msgs.
Proof. intros Hi. unfold rows_processed, ops_of. by rewrite Hi. Qed.

(** X10: a run with [--recrear] over the lines an earlier run wrote from
    the same messages, with the same inactivity threshold, for the same
    day, project and employees (in another mode, say) replaces them all: on
    a well-formed ledger that holds the earlier plan and a server that
    refuses no call, with one display name per partner and no opening
    bracket in the names, a run whose ingestion does not raise ends with
    exactly the lines of the new plan, in order, the ledger well formed,
    [creados] their number and [ya_existian] 0. *)
Theorem recreate_replaces_the_plan (a a0 : args) (project : Z)
    (ch_map : gmap Z string) (internal_partner_ids : gset Z)
    (partner_to_user user_to_employee : gmap Z (Z * string))
    (msgs : list message) (w : world) :
  dry_run a = false → recrear a = true →
  fecha a0 = fecha a → inactividad a0 = inactividad a →
  pending w = [] → ledger_wf w →
  names_consistent msgs → plain_names ch_map msgs →
  build_sessions_from_messages ch_map internal_partner_ids msgs (inactividad a)
  ≠ KeyError →
  vals <$> lines w
  = (plan_of a0 project partner_to_user user_to_employee
       (ops_of a0 ch_map internal_partner_ids msgs)
       (rows_processed a0 ch_map internal_partner_ids msgs)).*1 →
  let plan := plan_of a project partner_to_user user_to_employee
                (ops_of a ch_map internal_partner_ids msgs)
                (rows_processed a ch_map internal_partner_ids msgs) in
  ∃ s w',
    main a project ch_map internal_partner_ids partner_to_user
      user_to_employee msgs w = (Ok s, w')
    ∧ ledger_wf w'
    ∧ vals <$> lines w' = plan.*1
    ∧ creados s = Z.of_nat (length plan)
    ∧ ya_existian s = 0.
Proof.
  intros Hdry Hrec Hfecha Hinact Hp Hwf Hcons Hplain Hok Hw plan.
  destruct (rows_processed_inactividad a a0 ch_map internal_partner_ids msgs
              Hinact) as [_ Hrows].
  rewrite Hrows in Hw. rewrite main_rows_processed by done.
  destruct (process_rows_recreate a a0 project partner_to_user user_to_employee
              (ops_of a ch_map internal_partner_ids msgs)
              (ops_of a0 ch_map internal_partner_ids msgs) Hdry Hrec Hfecha
              (rows_processed a ch_map internal_partner_ids msgs) []
              summary0 w Hp Hwf)
    as (s & w' & Hrun & Hwf' & Hvals & Hc & Hy).
  - simpl. unfold rows_processed. case_bool_decide; [constructor |].
    by apply ops_row_keys_NoDup.
  - simpl. unfold rows_processed. case_bool_decide; [constructor |].
    by apply ops_rows_plain.
  - by rewrite Hw, app_nil_r.
  - exists s, w'. simpl in Hvals, Hc, Hy. done.
Qed.

Lemma recreate_replaces_the_plan_witness :
  ∃ s w',
    main Book.args_remode 55 Day.ch_map Day.internal_partner_ids
      Day.partner_to_user Day.user_to_employee Day.msgs_activity
      Book.world_after
    = (Ok s, w')
    ∧ unit_amount <$> (vals <$> lines Book.world_after) = [ 3 # 100; 3 # 100 ]
    ∧ length (lines w') = 2%nat ∧ creados s = 2 ∧ ya_existian s = 0.
Proof.
  destruct (recreate_replaces_the_plan Book.args_remode Day.args0 55 Day.ch_map
              Day.internal_partner_ids Day.partner_to_user Day.user_to_employee
              Day.msgs_activity Book.world_after)
    as (s & w' & Hrun & _ & Hvals & Hc & Hy).
  - reflexivity.
  - reflexivity.
  - reflexivity.
  - reflexivity.
  - vm_compute. reflexivity.
  - split.
    + vm_compute. repeat constructor; intros Hin;
        repeat (apply elem_of_cons in Hin as [Hin|Hin]; [discriminate Hin |]);
        by apply elem_of_nil in Hin.
    + vm_compute. repeat constructor.
  - unfold names_consistent. repeat (constructor; [repeat constructor |]).
    constructor.
  - split.
    + apply map_Forall_lookup. intros i n Hi.
      destruct (decide (i = 1)) as [->|]; [by injection Hi as <- |].
      destruct (decide (i = 2)) as [->|]; [by injection Hi as <- |].
      unfold Day.ch_map in Hi.
      rewrite lookup_insert_ne, lookup_singleton_ne in Hi by done. done.
    + unfold Day.msgs_activity.
      repeat (apply Forall_cons; split; [by intros a [= <-] |]). constructor.
  - vm_compute. discriminate.
  - vm_compute. reflexivity.
  - exists s, w'. split; [exact Hrun |]. split; [vm_compute; reflexivity |].
    apply (f_equal length) in Hvals. rewrite !length_fmap in Hvals.
    split; [exact Hvals |]. split; [exact Hc | exact Hy].
Defined.

(** ** Chunks *)

Lemma concat_slices {A : Type} (n m : nat) :
  ∀ l : list A, (length l ≤ m * n)%nat →
  concat ((λ i, slice l i n) <$> ((λ k, k * n)%nat <$> seq 0 m)) = l.
Proof.
  induction m as [|m IH]; intros l Hlen.
  - destruct l; [done | simpl in Hlen; lia].
  - cbn [seq]. rewrite <- fmap_S_seq, !fmap_cons, <- !list_fmap_compose.
    cbn [concat].
    erewrite (list_fmap_ext _ ((λ i, slice (drop n l) i n) ∘ (λ k, k * n)%nat)).
    + rewrite list_fmap_compose, IH by (rewrite length_drop; lia).
      unfold slice. simpl. by rewrite drop_0, take_drop.
    + intros i k _. unfold slice. simpl. rewrite drop_drop. done.
Qed.

Lemma range_step_covers (len n : nat) :
  n ≠ 0%nat → (len ≤ Nat.div (len + n - 1) n * n)%nat.
Proof.
  intros Hn. pose proof (Nat.div_mod_eq (len + n - 1) n) as Hdiv.
  pose proof (Nat.mod_upper_bound (len + n - 1) n Hn). lia.
Qed.

Lemma range_step_below (len n k : nat) :
  n ≠ 0%nat → (k < Nat.div (len + n - 1) n)%nat → (k * n < len)%nat.
Proof.
  intros Hn Hk. pose proof (Nat.div_mod_eq (len + n - 1) n) as Hdiv.
  assert (S k * n ≤ Nat.div (len + n - 1) n * n)%nat as Hle
    by (apply Nat.mul_le_mono_r; lia).
  simpl in Hle. lia.
Qed.

Lemma lookup_slices {A : Type} (l : list A) (n k : nat) (c : list A) :
  ((λ i, slice l i n) <$> range_step (length l) n) !! k = Some c →
  (k < Nat.div (length l + n - 1) n)%nat ∧ c = slice l (k * n) n.
Proof.
  unfold range_step. rewrite <- list_fmap_compose, list_lookup_fmap.
  destruct (seq 0 _ !! k) as [j|] eqn:Hj; [|done].
  apply lookup_seq in Hj as [-> Hk]. simpl. by intros [= <-].
Qed.

(** X11: for a chunk size above 0, [chunked] cuts the list into pieces
    that, put end to end, give the list back: no piece is empty or longer
    than the size, and every piece but the last has exactly that size.  For
    the size 0 it raises. *)
Theorem chunked_partition {A : Type} (lst : list A) (n : nat) :
  match chunked lst n with
  | None => n = 0%nat
  | Some chunks =>
      n ≠ 0%nat
      ∧ concat chunks = lst
      ∧ Forall (λ c, (0 < length c ≤ n)%nat) chunks
      ∧ ∀ k c, chunks !! k = Some c → (S k < length chunks)%nat →
               length c = n
  end.
Proof.
  unfold chunked. destruct (decide (n = 0%nat)) as [|Hn]; [done |].
  split; [done |]. split; [|split].
  - unfold range_step. apply concat_slices. by apply range_step_covers.
  - apply Forall_forall. intros c Hc.
    apply list_elem_of_lookup_1 in Hc as [k Hk].
    apply lookup_slices in Hk as [Hk ->].
    pose proof (range_step_below _ _ _ Hn Hk) as Hlt.
    unfold slice. rewrite length_take, length_drop. lia.
  - intros k c Hc Hlast. apply lookup_slices in Hc as [Hk ->].
    unfold range_step in Hlast. rewrite !length_fmap, length_seq in Hlast.
    pose proof (range_step_below _ _ _ Hn Hlast) as Hlt.
    unfold slice. rewrite length_take, length_drop. simpl in Hlt. lia.
Qed.

Section ReadFacts.
Context {R : Type} (server_read : list Z → world → list R * world).

Lemma read_chunks_ok (chunks : list (list Z)) (out : list R) (w : world) :
  pending w = [] → (∀ ids w, (server_read ids w).2 = w) →
  read_chunks server_read chunks out w
  = (Ok (out ++ concat ((λ c, (server_read c w).1) <$> chunks)), w).
Proof.
  intros Hp Hpure. revert out.
  induction chunks as [|c chunks IH]; intros out.
  - simpl. by rewrite app_nil_r.
  - cbn [read_chunks]. unfold mbind, rpc_bind at 1.
    rewrite execute_kw_ok by done. rewrite Hpure, IH.
    cbn [fmap list_fmap concat]. by rewrite app_assoc.
Qed.

Lemma server_read_concat (chunks : list (list Z)) (w : world) :
  (∀ a b w, (server_read (a ++ b) w).1
            = (server_read a w).1 ++ (server_read b w).1) →
  concat ((λ c, (server_read c w).1) <$> chunks)
  = (server_read (concat chunks) w).1.
Proof.
  intros Hdist. induction chunks as [|c chunks IH];
    cbn [fmap list_fmap concat].
  - specialize (Hdist [] [] w). simpl in Hdist.
    apply (f_equal length) in Hdist. rewrite length_app in Hdist.
    destruct (server_read [] w).1; [done | simpl in Hdist; lia].
  - by rewrite Hdist, <- IH.
Qed.

End ReadFacts.

(** X12: [read] asks nothing of the server for an empty list of ids; and
    when the server refuses no call, answers a read without changing and
    answers for a list of ids what it answers for its parts, put end to
    end, the read in chunks of 200 gives what a single read of all the ids
    would give. *)
Theorem read_is_one_read {R : Type}
    (server_read : list Z → world → list R * world) (ids : list Z) (w : world) :
  (∀ ids w, (server_read ids w).2 = w) →
  (∀ a b w, (server_read (a ++ b) w).1
            = (server_read a w).1 ++ (server_read b w).1) →
  read server_read [] w = (Ok [], w)
  ∧ (pending w = [] →
     read server_read ids w = (Ok (server_read ids w).1, w)).
Proof.
  intros Hpure Hdist. split; [done |]. intros Hp. unfold read.
  rewrite read_chunks_ok by done. rewrite server_read_concat by done.
  pose proof (chunked_go := concat_slices (A := Z) 200
                (Nat.div (length ids + 200 - 1) 200) ids).
  unfold range_step. rewrite chunked_go; [done |].
  by apply range_step_covers.
Qed.

Lemma read_is_one_read_witness :
  read (λ ids w, ((λ i, (i, 2 * i)) <$> ids, w)) (seqZ 1 450) Day.world0
  = (Ok ((λ i, (i, 2 * i)) <$> seqZ 1 450), Day.world0).
Proof.
  refine (proj2 (read_is_one_read (λ ids w, ((λ i, (i, 2 * i)) <$> ids, w))
                   (seqZ 1 450) Day.world0 _ _) eq_refl).
  - done.
  - intros a b w. simpl. apply fmap_app.
Defined.

(** ** The names of the sheets *)

Lemma length_append (a b : string) :
  String.length (a +:+ b) = (String.length a + String.length b)%nat.
Proof.
  induction a as [|x a IH]; [done |].
  change (S (String.length (a +:+ b)) = S (String.length a + String.length b)).
  by rewrite IH.
Qed.

Lemma length_str_take (n : nat) (s : string) :
  (String.length (str_take n s) ≤ n)%nat.
Proof.
  revert s. induction n as [|n IH]; intros [|c s]; simpl; try lia.
  specialize (IH s). lia.
Qed.

Lemma length_py_prefix (s : string) (k : Z) :
  0 ≤ k → Z.of_nat (String.length (py_prefix s k)) ≤ k.
Proof.
  intros Hk. unfold py_prefix. rewrite decide_True by done.
  pose proof (length_str_take (Z.to_nat k) s). lia.
Qed.

Lemma length_pretty_N_go (k : nat) :
  ∀ (x : N) (s : string), (x < 10 ^ N.of_nat k)%N →
  (String.length (pretty_N_go x s) ≤ k + String.length s)%nat.
Proof.
  induction k as [|k IH]; intros x s Hx.
  - assert (x = 0%N) as -> by (simpl in Hx; lia).
    rewrite pretty_N_go_0. lia.
  - assert (x = 0 ∨ 0 < x)%N as [->|Hpos] by lia.
    { rewrite pretty_N_go_0. lia. }
    rewrite pretty_N_go_step by done.
    etrans; [apply IH |].
    + rewrite Nat2N.inj_succ, N.pow_succ_r' in Hx.
      apply N.Div0.div_lt_upper_bound. lia.
    + simpl. lia.
Qed.

Lemma length_pretty (i : Z) :
  0 ≤ i < 10 ^ 30 → (String.length (pretty i) ≤ 30)%nat.
Proof.
  intros Hi. destruct i as [|p|p]; [simpl; lia | | lia].
  change (String.length (pretty (N.pos p)) ≤ 30)%nat.
  unfold pretty, pretty_N. rewrite decide_False by done.
  etrans; [apply (length_pretty_N_go 30) |]; [|simpl; lia].
  change (10 ^ N.of_nat 30)%N with (Z.to_N (10 ^ 30)). lia.
Qed.

Lemma length_cand (base : string) (i : Z) :
  0 ≤ i < 10 ^ 30 → (String.length (cand base i) ≤ 31)%nat.
Proof.
  intros Hi. unfold cand. cbv zeta.
  pose proof (length_pretty i Hi) as Hlen.
  set (sfx := "~" +:+ pretty i).
  assert (String.length sfx = S (String.length (pretty i))) as Hs by done.
  pose proof (length_py_prefix base (31 - Z.of_nat (String.length sfx))) as Hpre.
  rewrite length_append. lia.
Qed.

(** After the last tilde come the digits of the turn. *)
Lemma tilde_tail (a b d1 d2 : string) :
  occurs "~" d1 = false → occurs "~" d2 = false →
  a +:+ String "~" d1 = b +:+ String "~" d2 → d1 = d2.
Proof.
  intros H1 H2.
  assert (∀ s d, occurs "~" (s +:+ String "~" d) = true) as Hocc.
  { intros s d. rewrite occurs_app. cbn [occurs].
    rewrite bool_decide_eq_true_2 by done. apply orb_true_r. }
  revert b. induction a as [|x a IH]; intros [|y b] Heq.
  - by injection Heq.
  - injection Heq as _ Heq. rewrite Heq, Hocc in H1. done.
  - injection Heq as _ Heq. rewrite <- Heq, Hocc in H2. done.
  - injection Heq as _ Heq. by apply (IH b).
Qed.

Lemma cand_inj (base : string) : Inj (=) (=) (cand base).
Proof.
  intros i j Heq. unfold cand in Heq. cbv zeta in Heq.
  apply tilde_tail in Heq.
  - by apply (inj pretty) in Heq.
  - apply numeric_free; [done | apply numeric_pretty].
  - apply numeric_free; [done | apply numeric_pretty].
Qed.

Lemma cands_used_bound (base : string) (used : gset string) (i : Z) :
  2 ≤ i → (∀ j, 2 ≤ j < i → cand base j ∈ used) →
  i - 2 ≤ Z.of_nat (size used).
Proof.
  intros Hi Hall.
  set (l := cand base <$> seqZ 2 (i - 2)).
  assert (NoDup l) as Hnd.
  { apply NoDup_fmap_2_strong; [|apply NoDup_seqZ].
    intros x y _ _. apply cand_inj. }
  assert (list_to_set l ⊆ used) as Hsub.
  { intros c Hc. apply elem_of_list_to_set in Hc.
    apply list_elem_of_fmap in Hc as (j & -> & Hj).
    apply elem_of_seqZ in Hj. apply Hall. lia. }
  apply subseteq_size in Hsub. rewrite size_list_to_set in Hsub by done.
  unfold l in Hsub. rewrite length_fmap, length_seqZ in Hsub. lia.
Qed.

Lemma xl_sheet_loop_finds (base : string) (used : gset string) :
  ∀ (fuel : nat) (i : Z),
  2 ≤ i → (∀ j, 2 ≤ j < i → cand base j ∈ used) →
  Z.of_nat (size used) < i - 2 + Z.of_nat fuel →
  ∃ k, (i ≤ k ≤ Z.of_nat (size used) + 2)
       ∧ xl_sheet_loop fuel base used i
         = Some (cand base k, {[ cand base k ]} ∪ used)
       ∧ (cand base k ∉ used)
       ∧ ∀ j, 2 ≤ j < k → cand base j ∈ used.
Proof.
  induction fuel as [|fuel IH]; intros i Hi Hall Hfuel.
  - pose proof (cands_used_bound base used i Hi Hall). lia.
  - cbn [xl_sheet_loop]. destruct (decide (cand base i ∈ used)) as [Hin|Hout].
    + destruct (IH (i + 1)) as (k & Hk & Hrun & Hfresh & Hbelow).
      * lia.
      * intros j Hj. destruct (decide (j = i)) as [->|]; [done |].
        apply Hall. lia.
      * lia.
      * exists k. split; [lia | done].
    + exists i. pose proof (cands_used_bound base used i Hi Hall).
      split; [lia | done].
Qed.

(** X13: given more turns than there are names in use, [xl_sheet] gives a
    name that was not in use and records it in [used].  The name is the
    first 31 characters of the name asked for when these were free;
    otherwise it is the first candidate [base~i], [i] from 2 on, that was
    free, with [i] no more than two above the number of names in use; and,
    fewer than [10 ^ 30 - 2] names being in use, it holds 31 characters at
    most. *)
Theorem xl_sheet_fresh (fuel : nat) (name : string) (used : gset string) :
  (size used < fuel)%nat →
  ∃ sh,
    xl_sheet fuel name used = Some (sh, {[ sh ]} ∪ used)
    ∧ (sh ∉ used)
    ∧ (py_prefix name 31 ∉ used → sh = py_prefix name 31)
    ∧ (py_prefix name 31 ∈ used →
       ∃ i, 2 ≤ i ≤ Z.of_nat (size used) + 2
            ∧ sh = cand (py_prefix name 31) i
            ∧ ∀ j, 2 ≤ j < i → cand (py_prefix name 31) j ∈ used)
    ∧ (Z.of_nat (size used) + 2 < 10 ^ 30 → (String.length sh ≤ 31)%nat).
Proof.
  intros Hfuel. unfold xl_sheet. cbv zeta.
  set (base := py_prefix name 31).
  destruct (decide (base ∈ used)) as [Hin|Hout].
  - destruct (xl_sheet_loop_finds base used fuel 2)
      as (k & Hk & Hrun & Hfresh & Hbelow); [lia | intros j Hj; lia | lia |].
    exists (cand base k). split; [done |]. split; [done |].
    split; [done |]. split; [intros _; by exists k |].
    intros Hsize. apply length_cand. lia.
  - exists base. split; [done |]. split; [done |]. split; [done |].
    split; [done |]. intros _.
    pose proof (length_py_prefix name 31). unfold base. lia.
Qed.

Example xl_sheet_third :
  fst <$> xl_sheet 3 "Mensajes" {[ "Mensajes"%string; "Mensajes~2"%string ]}
  = Some "Mensajes~3"%string.
Proof. vm_compute. reflexivity. Qed.

Lemma xl_sheet_fresh_witness :
  ∃ sh,
    xl_sheet 3 "Mensajes" {[ "Mensajes"%string; "Mensajes~2"%string ]}
    = Some (sh, {[ sh ]} ∪ {[ "Mensajes"%string; "Mensajes~2"%string ]})
    ∧ sh ∉ ({[ "Mensajes"%string; "Mensajes~2"%string ]} : gset string).
Proof.
  destruct (xl_sheet_fresh 3 "Mensajes"
              {[ "Mensajes"%string; "Mensajes~2"%string ]})
    as (sh & Hrun & Hfresh & _).
  - vm_compute. lia.
  - by exists sh.
Defined.

Lemma xl_sheet_some (fuel : nat) (name : string) (used : gset string) :
  (size used < fuel)%nat →
  ∃ sh,
    xl_sheet fuel name used = Some (sh, {[ sh ]} ∪ used)
    ∧ (sh ∉ used)
    ∧ (Z.of_nat (size used) + 2 < 10 ^ 30 → (String.length sh ≤ 31)%nat).
Proof.
  intros Hfuel. unfold xl_sheet. cbv zeta.
  destruct (decide (py_prefix name 31 ∈ used)) as [Hin|Hout].
  - destruct (xl_sheet_loop_finds (py_prefix name 31) used fuel 2)
      as (k & Hk & Hrun & Hfresh & _); [lia | intros j Hj; lia | lia |].
    exists (cand (py_prefix name 31) k). split; [done |]. split; [done |].
    intros Hsize. apply length_cand. lia.
  - exists (py_prefix name 31). split; [done |]. split; [done |]. intros _.
    pose proof (length_py_prefix name 31). lia.
Qed.

(** X14: the sheets of a workbook get names that differ from one another
    and from the names in use before: given as many turns as there are
    names in use and sheets to name, the loop names every sheet, leaves in
    [used] the names it gave besides those that were there, and, fewer than
    [10 ^ 30 - 2] names being in play, gives no name of more than 31
    characters. *)
Theorem sheet_names_distinct (fuel : nat) (names : list string)
    (used : gset string) :
  (size used + length names ≤ fuel)%nat →
  ∃ shs used',
    xl_sheets fuel names used = Some (shs, used')
    ∧ length shs = length names
    ∧ NoDup shs
    ∧ Forall (λ sh, sh ∉ used) shs
    ∧ used' = list_to_set shs ∪ used
    ∧ (Z.of_nat (size used + length names) + 2 < 10 ^ 30 →
       Forall (λ sh, (String.length sh ≤ 31)%nat) shs).
Proof.
  revert used. induction names as [|name names IH]; intros used Hfuel.
  - exists [], used. simpl. split; [done |]. split; [done |].
    split; [constructor |]. split; [constructor |].
    split; [| by constructor].
    change (used = ∅ ∪ used). by rewrite (left_id_L ∅ (∪)).
  - cbn [length] in Hfuel.
    destruct (xl_sheet_some fuel name used) as (sh & Hrun & Hfresh & Hlen);
      [lia |].
    assert (size ({[ sh ]} ∪ used) = S (size used)) as Hsize.
    { rewrite size_union by (by apply disjoint_singleton_l).
      by rewrite size_singleton. }
    destruct (IH ({[ sh ]} ∪ used))
      as (shs & used' & Hruns & Hl & Hnd & Hout & Hused & Hlens);
      [rewrite Hsize; lia |].
    exists (sh :: shs), used'. cbn [xl_sheets]. rewrite Hrun. simpl.
    rewrite Hruns. simpl. split; [done |]. split; [by rewrite Hl |].
    rewrite Forall_forall in Hout. split; [|split; [|split]].
    + constructor; [|done]. intros Hin. apply (Hout sh Hin).
      by apply elem_of_union_l, elem_of_singleton.
    + constructor; [done |]. apply Forall_forall. intros x Hx Hxu.
      apply (Hout x Hx). by apply elem_of_union_r.
    + rewrite Hused, (comm_L (∪) {[ sh ]} (list_to_set shs)).
      by rewrite (assoc_L (∪)).
    + intros Hbound. constructor; [apply Hlen; lia |].
      apply Hlens. rewrite Hsize. lia.
Qed.

Example xl_sheets_chats :
  fst <$> xl_sheets 3 [ "Chats"; "Chats"; "Chats" ]%string ∅
  = Some [ "Chats"; "Chats~2"; "Chats~3" ]%string.
Proof. vm_compute. reflexivity. Qed.

Lemma sheet_names_distinct_witness :
  ∃ shs used',
    xl_sheets 3 [ "Chats"; "Chats"; "Chats" ]%string ∅ = Some (shs, used')
    ∧ length shs = 3%nat ∧ NoDup shs.
Proof.
  destruct (sheet_names_distinct 3 [ "Chats"; "Chats"; "Chats" ]%string ∅)
    as (shs & used' & Hrun & Hlen & Hnd & _).
  - vm_compute. lia.
  - by exists shs, used'.
Defined.

(** ** Users and employees *)

Section LastWins.
Context {A V : Type} (key : A → option Z) (val : A → V).

Let step (m : gmap Z V) (x : A) : gmap Z V :=
  match key x with Some j => <[j := val x]> m | None => m end.

Lemma foldl_insert_lookup (l : list A) (m0 : gmap Z V) (k : Z) :
  foldl step m0 l !! k
  = match last (filter (λ x, key x = Some k) l) with
    | Some x => Some (val x)
    | None => m0 !! k
    end.
Proof.
  revert m0. induction l as [|x l IH]; intros m0; [done |].
  cbn [foldl]. rewrite IH, filter_cons.
  destruct (decide (key x = Some k)) as [Hk|Hk].
  - destruct (filter _ l) as [|y fl] eqn:Hf.
    + simpl. unfold step. rewrite Hk. by rewrite lookup_insert_eq.
    + rewrite last_cons_cons.
      destruct (last (y :: fl)) eqn:Hlast; [done | by apply last_None in Hlast].
  - destruct (last (filter _ l)); [done |].
    unfold step. destruct (key x) as [j|]; [|done].
    rewrite lookup_insert_ne; [done | congruence].
Qed.

Lemma foldl_insert_dom (l : list A) (m0 : gmap Z V) :
  dom (foldl step m0 l) = dom m0 ∪ list_to_set (omap key l).
Proof.
  revert m0. induction l as [|x l IH]; intros m0.
  - simpl. by rewrite (right_id_L ∅ (∪)).
  - cbn [foldl omap list_omap]. rewrite IH. unfold step.
    destruct (key x) as [j|]; [|done].
    rewrite dom_insert_L, list_to_set_cons.
    by rewrite (comm_L (∪) {[ j ]} (dom m0)), (assoc_L (∪)).
Qed.

End LastWins.

Lemma build_employee_map_folds (users : list user_rec)
    (emps : option (list emp_rec)) :
  (build_employee_map users emps).1
  = foldl (λ m u, match fst <$> u_partner_id u with
                  | Some j => <[j := (u_id u, u_name u)]> m
                  | None => m
                  end) ∅ users
  ∧ (build_employee_map users emps).2
    = foldl (λ m e, match fst <$> e_user_id e with
                    | Some j => <[j := (e_id e, e_name e)]> m
                    | None => m
                    end) ∅ (default [] emps).
Proof.
  unfold build_employee_map. cbn [fst snd]. split.
  - generalize (∅ : gmap Z (Z * string)).
    induction users as [|u users IH]; intros m; [done |].
    cbn [foldl]. rewrite IH. by destruct (u_partner_id u).
  - generalize (∅ : gmap Z (Z * string)).
    induction (default [] emps) as [|e l IH]; intros m; [done |].
    cbn [foldl]. rewrite IH. by destruct (e_user_id e).
Qed.

Lemma ops_partner_internal (a : args) (ch_map : gmap Z string)
    (internal_partner_ids : gset Z) (msgs : list message) (r : ops_row) :
  r ∈ ops_of a ch_map internal_partner_ids msgs →
  o_partner_id (o_op r) ∈ internal_partner_ids.
Proof.
  unfold ops_of, session_tables.
  intros [Hop _]%elem_of_merge.
  apply elem_of_ops_per_sess in Hop as (x & Hx & Hopx & Hk & _).
  destruct (dfs_operador_author _ _ _ _ x Hx Hopx)
    as (m & p & _ & _ & Hpid & Hin & _).
  unfold op_key in Hk. rewrite Hpid in Hk. simpl in Hk.
  by injection Hk as _ _ <- _.
Qed.

(** X15: in the maps [build_employee_map] returns, the entry of a partner
    is the id and name of the last user read with that partner, and the
    entry of a user the id and name of the last employee read with that
    user; the partners with an entry are the internal partners the
    sessions were built with, so every row of the run finds its user: a
    row is left out only for want of an employee. *)
Theorem employee_map_last_wins (users : list user_rec)
    (emps : option (list emp_rec)) (a : args) (ch_map : gmap Z string)
    (msgs : list message) :
  let ipi := internal_partner_ids_of users in
  let p2u := (build_employee_map users emps).1 in
  let u2e := (build_employee_map users emps).2 in
  (∀ p, p2u !! p
        = (λ u, (u_id u, u_name u))
            <$> last (filter (λ u, fst <$> u_partner_id u = Some p) users))
  ∧ (∀ u, u2e !! u
          = (λ e, (e_id e, e_name e))
              <$> last (filter (λ e, fst <$> e_user_id e = Some u)
                          (default [] emps)))
  ∧ dom p2u = ipi
  ∧ Forall (λ r, ∃ u, p2u !! o_partner_id (o_op r) = Some u
                      ∧ employee_of p2u u2e r
                        = (emp ← u2e !! u.1;
                           if decide (emp.1 = 0) then None else Some emp.1))
      (ops_of a ch_map ipi msgs).
Proof.
  intros ipi p2u u2e.
  destruct (build_employee_map_folds users emps) as [Hp Hu].
  fold p2u in Hp. fold u2e in Hu.
  assert (dom p2u = ipi) as Hdom.
  { rewrite Hp, foldl_insert_dom, dom_empty_L.
    by rewrite (left_id_L ∅ (∪)). }
  split; [|split; [|split; [done |]]].
  - intros p. rewrite Hp, foldl_insert_lookup, lookup_empty.
    by destruct (last _).
  - intros u. rewrite Hu, foldl_insert_lookup, lookup_empty.
    by destruct (last _).
  - apply Forall_forall. intros r Hr.
    apply ops_partner_internal in Hr. rewrite <- Hdom in Hr.
    apply elem_of_dom in Hr as [u Hu'].
    exists u. split; [done |]. unfold employee_of. by rewrite Hu'.
Qed.

(** ** Projects and tags *)

Lemma cat_execute_kw_ok {A : Type} (method : catalog → A * catalog)
    (c : catalog) :
  cat_pending c = [] →
  cat_execute_kw method c = (Done (method c).1, (method c).2).
Proof. intros Hp. unfold cat_execute_kw. rewrite Hp. by destruct (method c). Qed.

Lemma cat_execute_kw_recs {A : Type} (method : catalog → A * catalog)
    (c : catalog) :
  (∀ c', recs (method c').2 = recs c'
         ∧ cat_next_id (method c').2 = cat_next_id c') →
  recs (cat_execute_kw method c).2 = recs c
  ∧ cat_next_id (cat_execute_kw method c).2 = cat_next_id c.
Proof.
  intros Hm. unfold cat_execute_kw.
  destruct (cat_pending c) as [|[] p]; [| done |].
  - specialize (Hm c). by destruct (method c).
  - match goal with
    | |- context [method ?c0] =>
        specialize (Hm c0); by destruct (method c0)
    end.
Qed.

(** The first id of a search in ascending order. *)
Lemma least_id_cases (ids : list Z) :
  (ids = [] ∧ take 1 (sort_by Z.leb ids) = [])
  ∨ ∃ i, take 1 (sort_by Z.leb ids) = [i] ∧ i ∈ ids ∧ ∀ j, j ∈ ids → i ≤ j.
Proof.
  destruct (sort_by Z.leb ids) as [|x xs] eqn:Hs.
  - left. split; [|done].
    pose proof (sort_by_length Z.leb ids) as Hlen. rewrite Hs in Hlen.
    by destruct ids.
  - right. exists x. split; [simpl; by rewrite take_0 |].
    assert (∀ y, y ∈ ids ↔ y ∈ x :: xs) as Hin.
    { intros y. by rewrite <- Hs, elem_of_sort_by. }
    split; [apply Hin; by left |].
    intros j [->|Hj]%Hin%elem_of_cons; [lia |].
    assert (StronglySorted (le_of Z.leb) (x :: xs)) as Hss.
    { rewrite <- Hs. apply Sorted_StronglySorted.
      - intros a b c. unfold le_of. rewrite !Z.leb_le. lia.
      - apply sort_by_Sorted. intros a b. rewrite !Z.leb_le. lia. }
    apply StronglySorted_inv in Hss as [_ Hall].
    eapply Forall_forall in Hall; [|exact Hj].
    unfold le_of in Hall. by apply Z.leb_le in Hall.
Qed.

Lemma cat_search_cases (cond : named → Prop) `{!∀ r, Decision (cond r)}
    (c : catalog) :
  ((∀ r, r ∈ recs c → ¬ cond r) ∧ (cat_search cond c).1 = [])
  ∨ ∃ r, (cat_search cond c).1 = [n_id r] ∧ r ∈ recs c ∧ cond r
         ∧ ∀ r', r' ∈ recs c → cond r' → n_id r ≤ n_id r'.
Proof.
  unfold cat_search. cbn [fst].
  destruct (least_id_cases (n_id <$> filter cond (recs c)))
    as [[Hnil ->]|(i & -> & Hi & Hleast)].
  - left. split; [|done]. intros r Hr Hc.
    assert (n_id r ∈ n_id <$> filter cond (recs c)) as Hin.
    { apply list_elem_of_fmap_2. by apply list_elem_of_filter. }
    rewrite Hnil in Hin. by apply elem_of_nil in Hin.
  - right. apply list_elem_of_fmap in Hi as (r & -> & [Hc Hr]%list_elem_of_filter).
    exists r. split; [done |]. split; [done |]. split; [done |].
    intros r' Hr' Hc'. apply Hleast, list_elem_of_fmap_2.
    by apply list_elem_of_filter.
Qed.

(** X16: when the server refuses no call, [find_or_create_tag] returns
    the id of a tag of the name asked for that is on the server afterwards.
    When a tag of that name was there it changes nothing and returns the
    least id of such tags; when none was there it creates one, with the
    next id.  Asked again, it returns the same id and changes nothing:
    two calls never make two tags. *)
Theorem find_or_create_tag_idempotent (tag_name : string) (c : catalog) :
  cat_pending c = [] →
  ∃ i c1,
    find_or_create_tag tag_name c = (Done i, c1)
    ∧ (∃ r, r ∈ recs c1 ∧ n_id r = i ∧ n_name r = tag_name)
    ∧ ((∃ r, r ∈ recs c ∧ n_name r = tag_name) →
       c1 = c ∧ ∀ r, r ∈ recs c → n_name r = tag_name → i ≤ n_id r)
    ∧ ((∀ r, r ∈ recs c → n_name r ≠ tag_name) →
       i = cat_next_id c
       ∧ recs c1 = recs c ++ [ {| n_id := i; n_name := tag_name;
                                  n_allow_timesheets := None |} ])
    ∧ find_or_create_tag tag_name c1 = (Done i, c1).
Proof.
  intros Hp. unfold find_or_create_tag.
  unfold mbind, call_bind at 1. rewrite cat_execute_kw_ok by done.
  destruct (cat_search_cases (λ r, n_name r = tag_name) c)
    as [[Hnone Hs]|(r & Hs & Hr & Hname & Hleast)].
  - rewrite Hs. cbn [snd cat_search]. rewrite cat_execute_kw_ok by done.
    eexists _, _. split; [done |]. cbn [cat_create fst snd].
    split; [|split; [|split]].
    + eexists. split; [apply elem_of_app; right; by left | done].
    + intros (r & Hr & Hn). by destruct (Hnone r Hr).
    + done.
    + unfold mbind, call_bind. rewrite cat_execute_kw_ok by done.
      unfold cat_search. cbn [fst snd recs].
      rewrite filter_app.
      assert (filter (λ r, n_name r = tag_name) (recs c) = []) as ->.
      { destruct (filter _ (recs c)) as [|r fl] eqn:Hf; [done |]. exfalso.
        assert (r ∈ filter (λ r, n_name r = tag_name) (recs c))
          as [Hn Hr]%list_elem_of_filter by (rewrite Hf; by left).
        by destruct (Hnone r Hr). }
      by rewrite filter_cons_True by done.
  - rewrite Hs. cbn [snd cat_search mret call_ret].
    exists (n_id r), c. split; [done |]. split; [by exists r |].
    split; [done |]. split; [intros Hnone; by destruct (Hnone r Hr) |].
    unfold mbind, call_bind. rewrite cat_execute_kw_ok by done.
    by rewrite Hs.
Qed.

Lemma find_or_create_tag_idempotent_witness :
  ∃ c1,
    find_or_create_tag "Cliente: Acme" Office.projects = (Done 10, c1)
    ∧ find_or_create_tag "Cliente: Acme" c1 = (Done 10, c1).
Proof.
  destruct (find_or_create_tag_idempotent "Cliente: Acme" Office.projects)
    as (i & c1 & Hrun & _ & _ & Hnew & Hagain); [done |].
  destruct Hnew as [-> _].
  - intros r Hr. unfold Office.projects in Hr. simpl in Hr.
    repeat (apply elem_of_cons in Hr as [->|Hr]; [done |]).
    by apply elem_of_nil in Hr.
  - by exists c1.
Defined.

Lemma cat_search_pure (cond : named → Prop) `{!∀ r, Decision (cond r)}
    (c : catalog) :
  recs (cat_search cond c).2 = recs c
  ∧ cat_next_id (cat_search cond c).2 = cat_next_id c.
Proof. done. Qed.

(** X17: [find_project_by_id], and [find_project] without
    [--crear-proyecto], never write, whatever the server answers.  When the
    server refuses no call, [find_project_by_id] returns the id asked for
    when a project has it and raises [RuntimeError] when none has;
    [find_project] returns the least id of the projects of the name asked
    for, and when there is none it raises [RuntimeError] without
    [--crear-proyecto] and with it creates the project, with
    [allow_timesheets] set, and returns its id. *)
Theorem find_project_outcomes (project_name : string) (project_id : Z)
    (c : catalog) :
  let by_id := find_project_by_id project_id c in
  let by_name := find_project project_name false c in
  let or_new := find_project project_name true c in
  (recs by_id.2 = recs c ∧ cat_next_id by_id.2 = cat_next_id c)
  ∧ (recs by_name.2 = recs c ∧ cat_next_id by_name.2 = cat_next_id c)
  ∧ (cat_pending c = [] →
     match by_id.1 with
     | Done i => i = project_id ∧ ∃ r, r ∈ recs c ∧ n_id r = project_id
     | RuntimeError => ∀ r, r ∈ recs c → n_id r ≠ project_id
     | ServerFault => False
     end
     ∧ match by_name.1 with
       | Done i =>
           (∃ r, r ∈ recs c ∧ n_id r = i ∧ n_name r = project_name)
           ∧ (∀ r, r ∈ recs c → n_name r = project_name → i ≤ n_id r)
           ∧ or_new = by_name
       | RuntimeError =>
           (∀ r, r ∈ recs c → n_name r ≠ project_name)
           ∧ or_new.1 = Done (cat_next_id c)
           ∧ recs or_new.2
             = recs c ++ [ {| n_id := cat_next_id c; n_name := project_name;
                              n_allow_timesheets := Some true |} ]
       | ServerFault => False
       end).
Proof.
  intros by_id by_name or_new. split; [|split].
  - unfold by_id, find_project_by_id, mbind, call_bind.
    pose proof (cat_execute_kw_recs (cat_search (λ r, n_id r = project_id)) c
                  (cat_search_pure _)) as Hpure.
    destruct (cat_execute_kw _ c) as [[[|i ids]| |] c']; done.
  - unfold by_name, find_project, mbind, call_bind.
    pose proof (cat_execute_kw_recs (cat_search (λ r, n_name r = project_name))
                  c (cat_search_pure _)) as Hpure.
    destruct (cat_execute_kw _ c) as [[[|i ids]| |] c']; done.
  - intros Hp. split.
    + unfold by_id, find_project_by_id, mbind, call_bind.
      rewrite cat_execute_kw_ok by done.
      destruct (cat_search_cases (λ r, n_id r = project_id) c)
        as [[Hnone Hs]|(r & Hs & Hr & Hid & _)]; rewrite Hs; simpl.
      * done.
      * split; [done |]. by exists r.
    + unfold or_new, by_name, find_project, mbind, call_bind.
      rewrite cat_execute_kw_ok by done.
      destruct (cat_search_cases (λ r, n_name r = project_name) c)
        as [[Hnone Hs]|(r & Hs & Hr & Hname & Hleast)]; rewrite Hs; simpl.
      * split; [done |]. by rewrite cat_execute_kw_ok by done.
      * split; [by exists r |]. done.
Qed.

(** ** The operator messages of a session *)

Lemma filter_ext_in {A : Type} (P Q : A → Prop) `{!∀ x, Decision (P x)}
    `{!∀ x, Decision (Q x)} (l : list A) :
  (∀ x, x ∈ l → (P x ↔ Q x)) → filter P l = filter Q l.
Proof.
  induction l as [|x l IH]; intros Hext; [done |].
  rewrite !filter_cons.
  destruct (decide (P x)) as [HP|HP], (decide (Q x)) as [HQ|HQ].
  - rewrite IH; [done |]. intros y Hy. apply Hext. by right.
  - exfalso. apply HQ, (Hext x); [by left | done].
  - exfalso. apply HP, (Hext x); [by left | done].
  - apply IH. intros y Hy. apply Hext. by right.
Qed.

Lemma count_true_fmap {A : Type} (f : A → bool) (l : list A) :
  count_true (f <$> l) = Z.of_nat (length (filter (λ x, f x = true) l)).
Proof.
  unfold count_true.
  rewrite <- (fmap_filter_comm f (λ b, b = true) (λ x, f x = true)) by done.
  by rewrite length_fmap.
Qed.

Lemma ops_per_sess_sum (dfs : list (drow * Z)) (c0 i0 : Z) :
  (∀ x, x ∈ dfs → es_operador (d_row x.1) = true → is_Some (op_key x)) →
  Zsum (o_msgs_oper
          <$> filter (λ o, c0 = o_channel_id o ∧ i0 = o_session_id o)
                (ops_per_sess dfs))
  = Z.of_nat (length (filter (λ x, d_channel x.1 = c0 ∧ x.2 = i0)
                        (filter (λ x, es_operador (d_row x.1) = true) dfs))).
Proof.
  intros Hkey. unfold ops_per_sess.
  set (dfo := filter (λ x, es_operador (d_row x.1) = true) dfs).
  set (keys := sort_by op_key_leb (remove_dups (omap op_key dfo))).
  set (D := filter (λ x, d_channel x.1 = c0 ∧ x.2 = i0) dfo).
  set (Pk := λ k : Z * Z * Z * string, c0 = k.1.1.1 ∧ i0 = k.1.1.2).
  rewrite <- (fmap_filter_comm _ _ Pk)
    by (by intros [[[c s] p] n]).
  rewrite <- list_fmap_compose.
  assert (NoDup (filter Pk keys)) as Hnd.
  { apply NoDup_filter, NoDup_sort_by, NoDup_remove_dups. }
  rewrite <- (Zsum_group_lengths op_key (Some <$> filter Pk keys) D).
  - rewrite <- list_fmap_compose. f_equal. apply list_fmap_ext.
    intros i [[[c s] p] n] Hk.
    apply list_elem_of_lookup_2, list_elem_of_filter in Hk as [[Hc Hs] _].
    simpl in Hc, Hs. simpl. do 2 f_equal. unfold D.
    rewrite list_filter_filter. apply filter_ext_in.
    intros x _. split; [|tauto]. intros Hx. split; [done |].
    unfold op_key in Hx. destruct (autor_partner_id (d_row x.1)); [|done].
    simpl in Hx. injection Hx as <- <- _ _. done.
  - by apply (NoDup_fmap_2 Some).
  - intros x [[Hc Hs] Hx]%list_elem_of_filter.
    pose proof Hx as [Hop Hin]%list_elem_of_filter.
    destruct (Hkey x Hin Hop) as [k Hk]. rewrite Hk.
    apply list_elem_of_fmap_2, list_elem_of_filter. split.
    + unfold Pk. unfold op_key in Hk.
      destruct (autor_partner_id (d_row x.1)); [|done].
      simpl in Hk. injection Hk as <-. done.
    + unfold keys.
      rewrite elem_of_sort_by, elem_of_remove_dups, list_elem_of_omap.
      by exists x.
Qed.

Lemma session_msgs_oper (dfs : list (drow * Z)) (s : session) :
  canal_by_channel dfs → s ∈ sessions_all dfs →
  msgs_oper s
  = Z.of_nat (length (filter (λ x, d_channel x.1 = s_channel_id s
                                   ∧ x.2 = s_session_id s)
                        (filter (λ x, es_operador (d_row x.1) = true) dfs))).
Proof.
  intros Hcan (x0 & Hx0 & ->)%elem_of_sessions_all.
  unfold agg_session. cbn [msgs_oper s_channel_id s_session_id].
  rewrite (count_true_fmap (λ x : drow * Z, es_operador (d_row x.1))).
  do 2 f_equal. rewrite !list_filter_filter. apply filter_ext_in.
  intros y Hy. unfold session_key. simpl. split.
  - intros [Hop Hk]. injection Hk as _ Hc Hs. done.
  - intros [[Hc Hs] Hop]. split; [done |].
    by rewrite (Hcan y x0 Hy Hx0 Hc), Hc, Hs.
Qed.

(** X18: for a row whose session is in the summary, the operator messages
    counted on the rows of that session add up to the operator messages
    the summary counts for the session: under [by_msgs] a row weighs its
    messages over [msgs_oper] of its session. *)
Theorem operator_messages_add_up (a : args) (ch_map : gmap Z string)
    (internal_partner_ids : gset Z) (msgs : list message)
    (r : ops_row) (s : session) :
  let ops := ops_of a ch_map internal_partner_ids msgs in
  r ∈ ops → o_session r = Some s →
  tot_by_sess ops r = msgs_oper s
  ∧ weight by_msgs ops r
    = (inject_Z (o_msgs_oper (o_op r)) / inject_Z (msgs_oper s))%Q.
Proof.
  intros ops Hr Hs.
  assert (tot_by_sess ops r = msgs_oper s) as Htot.
  { pose proof Hr as Hr'.
    unfold ops, ops_of, session_tables in Hr'.
    set (dfs := with_sessions (inactividad a) _) in Hr'.
    apply elem_of_merge in Hr' as [Hop Hsess]. rewrite Hs in Hsess.
    destruct Hsess as [[Hin _]%elem_of_sessions [Hc Hi]].
    rewrite (session_msgs_oper dfs s (dfs_canal_by_channel _ _ _ _) Hin).
    rewrite Hc, Hi. rewrite <- ops_per_sess_sum.
    - unfold tot_by_sess.
      pose proof (ops_of_one_to_one a ch_map internal_partner_ids msgs) as Hone.
      fold dfs in Hone. fold ops in Hone. rewrite <- Hone.
      rewrite <- (fmap_filter_comm o_op _ (same_session r)) by done.
      by rewrite <- list_fmap_compose.
    - intros x Hx Hopx.
      destruct (dfs_operador_author _ _ _ _ x Hx Hopx)
        as (m & p & _ & _ & Hpid & _ & _).
      unfold op_key. rewrite Hpid. by eexists. }
  split; [done |]. unfold weight. rewrite Htot. unfold replace_0_1.
  rewrite decide_False; [done |].
  pose proof (ops_tot_pos a ch_map internal_partner_ids msgs r Hr) as Hpos.
  fold ops in Hpos. lia.
Qed.

Lemma operator_messages_add_up_witness :
  let ops := ops_of Day.args0 Day.ch_map Day.internal_partner_ids
               Day.msgs_activity in
  Book.row_ana ∈ ops
  ∧ tot_by_sess ops Book.row_ana = 4
  ∧ weight by_msgs ops Book.row_ana = (inject_Z 3 / inject_Z 4)%Q.
Proof.
  assert (Book.row_ana ∈ ops_of Day.args0 Day.ch_map Day.internal_partner_ids
                           Day.msgs_activity) as Hin
    by (vm_compute; left).
  split; [exact Hin |].
  exact (operator_messages_add_up Day.args0 Day.ch_map
           Day.internal_partner_ids Day.msgs_activity
           Book.row_ana Book.session_activity Hin eq_refl).
Defined.

(** ** The hours written *)

Lemma round_half_even_close (q : Q) :
  (q - (1 # 2) <= inject_Z (round_half_even q) <= q + (1 # 2))%Q.
Proof.
  unfold round_half_even. cbv zeta.
  pose proof (Qfloor_le q) as Hlo. pose proof (Qlt_floor q) as Hhi.
  rewrite inject_Z_plus in Hhi.
  change (inject_Z 1) with 1%Q in Hhi.
  destruct (q - inject_Z (Qfloor q) ?= 1 # 2)%Q eqn:Hcmp;
    [apply Qeq_alt in Hcmp; destruct (Z.even (Qfloor q))
    | apply Qlt_alt in Hcmp | apply Qgt_alt in Hcmp];
    rewrite ?inject_Z_plus; change (inject_Z 1) with 1%Q;
    revert Hlo Hhi Hcmp; generalize (inject_Z (Qfloor q)); intros F Hlo Hhi Hcmp;
    split; lra.
Qed.

Lemma round_half_even_nonneg (q : Q) : (0 <= q)%Q → 0 ≤ round_half_even q.
Proof.
  intros Hq. unfold round_half_even. cbv zeta.
  assert (0 ≤ Qfloor q) as Hf.
  { change 0 with (Qfloor 0). by apply Qfloor_resp_le. }
  destruct (_ ?= _)%Q; [destruct (Z.even _) | |]; lia.
Qed.

Lemma round2_close (q : Q) :
  (q - (1 # 200) <= round2 q <= q + (1 # 200))%Q.
Proof.
  unfold round2. pose proof (round_half_even_close (q * 100)) as H.
  rewrite (Qmake_Qdiv (round_half_even (q * 100)) 100).
  generalize dependent (inject_Z (round_half_even (q * 100))). intros n Hn.
  change (inject_Z (Z.pos 100)) with (100 # 1)%Q.
  split.
  - apply Qle_shift_div_l; [done |]. lra.
  - apply Qle_shift_div_r; [done |]. lra.
Qed.

Lemma Qdiv_nonneg (x y : Z) : 0 ≤ x → 0 < y → (0 <= inject_Z x / inject_Z y)%Q.
Proof.
  intros Hx Hy. apply Qle_shift_div_l.
  - unfold Qlt. simpl. lia.
  - rewrite Qmult_0_l. unfold Qle. simpl. lia.
Qed.

Lemma dur_min_nonneg (dfs : list (drow * Z)) (s : session) :
  s ∈ sessions_all dfs → (0 <= dur_min s)%Q.
Proof.
  intros Hs. pose proof Hs as (_ & _ & Hall)%session_bounds_rows.
  apply elem_of_sessions_all in Hs as (x0 & Hx0 & Hagg).
  assert (session_key x0 = (s_canal s, s_channel_id s, s_session_id s))
    as Hk by (by rewrite Hagg).
  specialize (Hall x0 Hx0 Hk).
  rewrite Hagg in Hall |- *. unfold agg_session in *. simpl in *.
  unfold Qle. simpl. lia.
Qed.

(** X19: the hours written on a line are the exact share of the row
    rounded to two decimals: never negative, a whole number of hundredths,
    and within half a hundredth of an hour of the exact share. *)
Theorem hours_written_close (a : args) (project : Z) (ch_map : gmap Z string)
    (internal_partner_ids : gset Z) (msgs : list message) (e : Z)
    (r : ops_row) :
  let ops := ops_of a ch_map internal_partner_ids msgs in
  let h := horas_asignadas (modo_ a) ops r in
  let lv := line_vals_of a project ops e r in
  r ∈ ops →
  (0 <= h)%Q
  ∧ (∃ n, 0 ≤ n ∧ unit_amount lv = n # 100)
  ∧ (h - (1 # 200) <= unit_amount lv <= h + (1 # 200))%Q.
Proof.
  intros ops h lv Hr.
  assert (0 <= o_dur_min r)%Q as Hdur.
  { unfold o_dur_min. destruct (o_session r) as [s|] eqn:Hs; [|done]. simpl.
    pose proof Hr as Hr'.
    unfold ops, ops_of, session_tables in Hr'.
    apply elem_of_merge in Hr' as [_ Hsess]. rewrite Hs in Hsess.
    destruct Hsess as [[Hin _]%elem_of_sessions _].
    by apply (dur_min_nonneg _ s Hin). }
  assert (0 <= weight (modo_ a) ops r)%Q as Hw.
  { pose proof (ops_tot_pos a ch_map internal_partner_ids msgs r Hr) as Htot.
    pose proof (ops_msgs_pos a ch_map internal_partner_ids msgs r Hr) as Hmsg.
    pose proof (n_ops_pos ops r Hr) as Hn. fold ops in Htot.
    unfold weight, replace_0_1. destruct (modo_ a).
    - rewrite decide_False by lia. apply Qdiv_nonneg; lia.
    - rewrite decide_False by lia. apply Qdiv_nonneg; lia.
    - done. }
  assert (0 <= h)%Q as Hh.
  { unfold h, horas_asignadas, min_asignados.
    apply Qle_shift_div_l; [done |]. rewrite Qmult_0_l.
    by apply Qmult_le_0_compat. }
  split; [done |]. split.
  - exists (round_half_even (h * 100)). split; [|done].
    apply round_half_even_nonneg. apply Qmult_le_0_compat; [done |]. done.
  - apply round2_close.
Qed.

Lemma hours_written_close_witness :
  let ops := ops_of Day.args0 Day.ch_map Day.internal_partner_ids
               Day.msgs_activity in
  Book.row_ana ∈ ops
  ∧ (horas_asignadas equal ops Book.row_ana == 1 # 30)%Q
  ∧ unit_amount (line_vals_of Day.args0 55 ops 700 Book.row_ana) = (3 # 100)%Q.
Proof.
  assert (Book.row_ana ∈ ops_of Day.args0 Day.ch_map Day.internal_partner_ids
                           Day.msgs_activity) as Hin
    by (vm_compute; left).
  split; [exact Hin |]. split; [vm_compute; reflexivity |].
  destruct (hours_written_close Day.args0 55 Day.ch_map
              Day.internal_partner_ids Day.msgs_activity 700 Book.row_ana Hin)
    as (_ & (n & _ & Hn) & _).
  rewrite Hn. revert Hn. vm_compute. by intros [= <-].
Defined.

(** ** A run in another mode without [--recrear] *)


